(** * HD44780 over PCF8574: buffered screen, protocol driver and menu engine

    A shallow embedding of the Python package [py_hd44780_i2c_pcf8574]
    ([pins.py], [lcdx.py], [lcds.py], [menu/core.py], [menu/widgets.py])
    and the properties of its specification.

    Conventions of the embedding:
    - a Python [int] is a [Z]; [//] and [%] are [Z.div] and [Z.modulo]
      (both floor towards minus infinity, as Python does), with a zero
      divisor raising;
    - a one-character [str] is its code point ([Z]); a [str] is a list of
      code points;
    - a raised exception is [None] in the [option] monad: the state a
      method leaves behind when it raises is not observed;
    - a list indexed by an [int] follows Python's rule: a negative index
      counts from the end, anything outside [-len, len) raises. *)

From stdpp Require Import base option list list_numbers gmap fin_maps.
From Stdlib Require Import ZArith Lia Decimal.

Local Open Scope Z_scope.

(** ** Python primitives *)

Module Py.

(** [l[i]]'s position, as Python normalises an index. *)
Definition index {A} (l : list A) (i : Z) : option nat :=
  let n := Z.of_nat (length l) in
  if decide (0 ≤ i < n) then Some (Z.to_nat i)
  else if decide (- n ≤ i < 0) then Some (Z.to_nat (n + i))
  else None.

(** [l[i]] *)
Definition getitem {A} (l : list A) (i : Z) : option A :=
  k ← index l i; l !! k.

(** [l[i] = x] *)
Definition setitem {A} (l : list A) (i : Z) (x : A) : option (list A) :=
  k ← index l i; Some (<[k:=x]> l).

(** [range(a, b)] *)
Definition range (a b : Z) : list Z := seqZ a (b - a).

(** [enumerate(l)] *)
Definition enumerate {A} (l : list A) : list (Z * A) :=
  zip (seqZ 0 (Z.of_nat (length l))) l.

(** [l[:n]] *)
Definition prefix {A} (l : list A) (n : Z) : list A :=
  if decide (0 ≤ n) then take (Z.to_nat n) l
  else take (Z.to_nat (Z.of_nat (length l) + n)) l.

(** [a // b] and [a % b] *)
Definition floordiv (a b : Z) : option Z :=
  if decide (b = 0) then None else Some (a `div` b).
Definition mod_ (a b : Z) : option Z :=
  if decide (b = 0) then None else Some (a `mod` b).

(** [for x in xs: body], the loop state threaded through; a [continue]
    is a body that returns its state unchanged. *)
Fixpoint for_ {X S} (xs : list X) (body : X → S → option S) (s : S) : option S :=
  match xs with
  | [] => Some s
  | x :: xs' => s' ← body x s; for_ xs' body s'
  end.

(** The code points of the space, the question mark, the line break and NUL. *)
Definition SPACE : Z := 32.
Definition QUESTION : Z := 63.
Definition NEWLINE : Z := 10.
Definition NUL : Z := 0.

(** [text.encode(latin-1, errors=replace)]: a code point that latin-1
    lacks becomes a question mark. *)
Definition encode_latin1 (text : list Z) : list Z :=
  (λ c, if decide (0 ≤ c ≤ 0xFF) then c else QUESTION) <$> text.

(** [bytes(l)]: a [ValueError] for an element outside 0..255. *)
Definition bytes (l : list Z) : option (list Z) :=
  if decide (Forall (λ b, 0 ≤ b ≤ 0xFF) l) then Some l else None.

(** [l[n:]] *)
Definition suffix {A} (l : list A) (n : Z) : list A :=
  if decide (0 ≤ n) then drop (Z.to_nat n) l
  else drop (Z.to_nat (Z.of_nat (length l) + n)) l.

(** [c * n] for a one-character string [c] *)
Definition times {A} (c : A) (n : Z) : list A := replicate (Z.to_nat n) c.

(** [s.ljust(n)] *)
Definition ljust (s : list Z) (n : Z) : list Z :=
  s ++ times SPACE (n - Z.of_nat (length s)).

(** [str(n)] for an [int]: its decimal digits, a minus sign first when
    negative. *)
Fixpoint digits (d : Decimal.uint) : list Z :=
  match d with
  | Decimal.Nil => []
  | Decimal.D0 d => 48 :: digits d
  | Decimal.D1 d => 49 :: digits d
  | Decimal.D2 d => 50 :: digits d
  | Decimal.D3 d => 51 :: digits d
  | Decimal.D4 d => 52 :: digits d
  | Decimal.D5 d => 53 :: digits d
  | Decimal.D6 d => 54 :: digits d
  | Decimal.D7 d => 55 :: digits d
  | Decimal.D8 d => 56 :: digits d
  | Decimal.D9 d => 57 :: digits d
  end.

Definition str (n : Z) : list Z :=
  match Z.to_int n with
  | Decimal.Pos d => digits d
  | Decimal.Neg d => 45 :: digits d
  end.

(** The format [02d]: at least two characters, zeros after the sign. *)
Definition format_02d (n : Z) : list Z :=
  if decide (0 ≤ n < 10) then 48 :: str n else str n.

End Py.

(** ** pins.py: the PCF8574 bit mapping *)

Module Pins.

Record PinMapping := {
  rs : Z;
  rw : Z;
  e : Z;
  bl : Z;
  d4 : Z;
  d5 : Z;
  d6 : Z;
  d7 : Z;
  bl_active_high : bool
}.

Definition VARIANT_A : PinMapping :=
  {| rs := 0; rw := 1; e := 2; bl := 3; d4 := 4; d5 := 5; d6 := 6; d7 := 7;
     bl_active_high := true |}.
Definition VARIANT_B : PinMapping :=
  {| rs := 0; rw := 2; e := 1; bl := 3; d4 := 4; d5 := 5; d6 := 6; d7 := 7;
     bl_active_high := true |}.
Definition VARIANT_C : PinMapping :=
  {| rs := 4; rw := 5; e := 6; bl := 7; d4 := 0; d5 := 1; d6 := 2; d7 := 3;
     bl_active_high := true |}.

(** [bit_mask]: a [ValueError] outside 0..7. *)
Definition bit_mask (bit : Z) : option Z :=
  if decide (¬ (0 ≤ bit ≤ 7)) then None else Some (Z.shiftl 1 bit).

End Pins.

(** ** lcdx.py: the protocol driver *)

Module Lcdx.

Record HD44780Config := {
  cols : Z;
  rows : Z;
  address_7bit : Z;
  i2c_speed_hz : Z
}.

Definition default_config : HD44780Config :=
  {| cols := 16; rows := 2; address_7bit := 0x3F; i2c_speed_hz := 100000 |}.

(** The driver object. Its bus device [_i2c] is the list of the writes it
    received, (address, bytes) in the order made: the bus is an external
    collaborator, and a write on it is taken to succeed. The delays
    ([time.sleep]) change no state and are left out. *)
Record HD44780_PCF8574 := {
  _i2c : list (Z * list Z);
  _mapping : Pins.PinMapping;
  _cfg : HD44780Config;
  _pcf_state : Z;
  _backlight_on : bool;
  _row_offsets : list Z;
  _it : Z;
  _rs_mask : Z;
  _rw_mask : Z;
  _e_mask : Z;
  _bl_mask : Z;
  _d4_mask : Z;
  _d5_mask : Z;
  _d6_mask : Z;
  _d7_mask : Z
}.

Definition set_i2c (f : list (Z * list Z) → list (Z * list Z))
    (d : HD44780_PCF8574) : HD44780_PCF8574 :=
  {| _i2c := f (_i2c d); _mapping := _mapping d; _cfg := _cfg d;
     _pcf_state := _pcf_state d; _backlight_on := _backlight_on d;
     _row_offsets := _row_offsets d; _it := _it d;
     _rs_mask := _rs_mask d; _rw_mask := _rw_mask d; _e_mask := _e_mask d;
     _bl_mask := _bl_mask d; _d4_mask := _d4_mask d; _d5_mask := _d5_mask d;
     _d6_mask := _d6_mask d; _d7_mask := _d7_mask d |}.

Definition set_pcf_state (v : Z) (d : HD44780_PCF8574) : HD44780_PCF8574 :=
  {| _i2c := _i2c d; _mapping := _mapping d; _cfg := _cfg d;
     _pcf_state := v; _backlight_on := _backlight_on d;
     _row_offsets := _row_offsets d; _it := _it d;
     _rs_mask := _rs_mask d; _rw_mask := _rw_mask d; _e_mask := _e_mask d;
     _bl_mask := _bl_mask d; _d4_mask := _d4_mask d; _d5_mask := _d5_mask d;
     _d6_mask := _d6_mask d; _d7_mask := _d7_mask d |}.

Definition set_backlight_on (b : bool) (d : HD44780_PCF8574) : HD44780_PCF8574 :=
  {| _i2c := _i2c d; _mapping := _mapping d; _cfg := _cfg d;
     _pcf_state := _pcf_state d; _backlight_on := b;
     _row_offsets := _row_offsets d; _it := _it d;
     _rs_mask := _rs_mask d; _rw_mask := _rw_mask d; _e_mask := _e_mask d;
     _bl_mask := _bl_mask d; _d4_mask := _d4_mask d; _d5_mask := _d5_mask d;
     _d6_mask := _d6_mask d; _d7_mask := _d7_mask d |}.

Definition set_it (i : Z) (d : HD44780_PCF8574) : HD44780_PCF8574 :=
  {| _i2c := _i2c d; _mapping := _mapping d; _cfg := _cfg d;
     _pcf_state := _pcf_state d; _backlight_on := _backlight_on d;
     _row_offsets := _row_offsets d; _it := i;
     _rs_mask := _rs_mask d; _rw_mask := _rw_mask d; _e_mask := _e_mask d;
     _bl_mask := _bl_mask d; _d4_mask := _d4_mask d; _d5_mask := _d5_mask d;
     _d6_mask := _d6_mask d; _d7_mask := _d7_mask d |}.

(** Commands *)
Definition LCDC_CLS : Z := 0x01.
Definition LCDC_HOME : Z := 0x02.
Definition LCDC_MODE : Z := 0x04.
Definition LCDC_MODER : Z := 0x02.
Definition LCDC_ON : Z := 0x08.
Definition LCDC_ONDISPLAY : Z := 0x04.
Definition LCDC_ONCURSOR : Z := 0x02.
Definition LCDC_ONBLINK : Z := 0x01.
Definition LCDC_FUNC : Z := 0x20.
Definition LCDC_FUNC4b : Z := 0x00.
Definition LCDC_FUNC2L : Z := 0x08.
Definition LCDC_FUNC1L : Z := 0x00.
Definition LCDC_FUNC5x7 : Z := 0x00.
Definition LCDC_CGA : Z := 0x40.
Definition LCDC_DDA : Z := 0x80.

(** [HD44780_PCF8574.__init__]: the eight masks come from [bit_mask], one
    after the other; nothing is written to the bus. *)
Definition __init__ (i2c : list (Z * list Z)) (mapping : Pins.PinMapping)
    (config : HD44780Config) : option HD44780_PCF8574 :=
  rs_mask ← Pins.bit_mask (Pins.rs mapping);
  rw_mask ← Pins.bit_mask (Pins.rw mapping);
  e_mask ← Pins.bit_mask (Pins.e mapping);
  bl_mask ← Pins.bit_mask (Pins.bl mapping);
  d4_mask ← Pins.bit_mask (Pins.d4 mapping);
  d5_mask ← Pins.bit_mask (Pins.d5 mapping);
  d6_mask ← Pins.bit_mask (Pins.d6 mapping);
  d7_mask ← Pins.bit_mask (Pins.d7 mapping);
  Some {| _i2c := i2c; _mapping := mapping; _cfg := config;
          _pcf_state := 0x00; _backlight_on := true;
          _row_offsets := [0x00; 0x40; 0x14; 0x54];
          _it := 0;
          _rs_mask := rs_mask; _rw_mask := rw_mask; _e_mask := e_mask;
          _bl_mask := bl_mask; _d4_mask := d4_mask; _d5_mask := d5_mask;
          _d6_mask := d6_mask; _d7_mask := d7_mask |}.

(** *** low level *)

Definition _apply_backlight_to_state (d : HD44780_PCF8574) : HD44780_PCF8574 :=
  if Pins.bl_active_high (_mapping d) then
    if _backlight_on d then set_pcf_state (Z.lor (_pcf_state d) (_bl_mask d)) d
    else set_pcf_state (Z.land (_pcf_state d) (Z.lnot (_bl_mask d))) d
  else
    if _backlight_on d then set_pcf_state (Z.land (_pcf_state d) (Z.lnot (_bl_mask d))) d
    else set_pcf_state (Z.lor (_pcf_state d) (_bl_mask d)) d.

Definition _write_pcf (value : Z) (d : HD44780_PCF8574) : HD44780_PCF8574 :=
  set_i2c (λ l, l ++ [(address_7bit (_cfg d), [Z.land value 0xFF])]) d.

Definition _pulse_enable (data : Z) (d : HD44780_PCF8574) : HD44780_PCF8574 :=
  (* E high *)
  let d := _write_pcf (Z.lor data (_e_mask d)) d in
  (* E low *)
  _write_pcf (Z.land data (Z.lnot (_e_mask d))) d.

Definition _write4bits (nibble : Z) (rs : bool) (d : HD44780_PCF8574)
    : HD44780_PCF8574 :=
  let nibble := Z.land nibble 0x0F in
  (* Base state: keep backlight, RW low *)
  let state := _pcf_state d in
  let state := Z.land state (Z.lnot (_rw_mask d)) in
  (* RS *)
  let state := if rs then Z.lor state (_rs_mask d)
               else Z.land state (Z.lnot (_rs_mask d)) in
  (* Clear data bits then set per nibble *)
  let state := Z.land state
    (Z.lnot (Z.lor (Z.lor (Z.lor (_d4_mask d) (_d5_mask d)) (_d6_mask d)) (_d7_mask d))) in
  let state := if decide (Z.land nibble 0x01 ≠ 0) then Z.lor state (_d4_mask d) else state in
  let state := if decide (Z.land nibble 0x02 ≠ 0) then Z.lor state (_d5_mask d) else state in
  let state := if decide (Z.land nibble 0x04 ≠ 0) then Z.lor state (_d6_mask d) else state in
  let state := if decide (Z.land nibble 0x08 ≠ 0) then Z.lor state (_d7_mask d) else state in
  let d := _write_pcf state d in
  _pulse_enable state d.

Definition _send (value : Z) (rs : bool) (d : HD44780_PCF8574) : HD44780_PCF8574 :=
  let d := _write4bits (Z.shiftr value 4) rs d in
  _write4bits (Z.land value 0x0F) rs d.

(** *** commands, data and the cursor *)

Definition command (cmd : Z) (d : HD44780_PCF8574) : HD44780_PCF8574 :=
  _send (Z.land cmd 0xFF) false d.

Definition write_char (ch : Z) (d : HD44780_PCF8574) : HD44780_PCF8574 :=
  _send (Z.land ch 0xFF) true d.

Definition set_backlight (on : bool) (d : HD44780_PCF8574) : HD44780_PCF8574 :=
  let d := set_backlight_on on d in
  let d := _apply_backlight_to_state d in
  _write_pcf (_pcf_state d) d.

Definition clear (d : HD44780_PCF8574) : HD44780_PCF8574 :=
  let d := command LCDC_CLS d in
  set_it 0 d.

Definition home (d : HD44780_PCF8574) : HD44780_PCF8574 :=
  let d := command LCDC_HOME d in
  set_it 0 d.

Definition init (d : HD44780_PCF8574) : HD44780_PCF8574 :=
  let d := set_pcf_state 0x00 d in
  let d := set_backlight true d in
  (* Per HD44780 init: 0x3 (8-bit) x3, then 0x2 (4-bit) *)
  let d := _write4bits 0x03 false d in
  let d := _write4bits 0x03 false d in
  let d := _write4bits 0x03 false d in
  let d := _write4bits 0x02 false d in
  (* Function set *)
  let func := Z.lor LCDC_FUNC LCDC_FUNC4b in
  let func := Z.lor func (if decide (rows (_cfg d) > 1) then LCDC_FUNC2L else LCDC_FUNC1L) in
  let func := Z.lor func LCDC_FUNC5x7 in
  let d := command func d in
  (* Display off, clear, entry mode, display on *)
  let d := command LCDC_ON d in
  let d := clear d in
  let d := command (Z.lor LCDC_MODE LCDC_MODER) d in
  let d := command (Z.lor LCDC_ON LCDC_ONDISPLAY) d in
  set_it 0 d.

Definition write (text : list Z) (d : HD44780_PCF8574) : HD44780_PCF8574 :=
  foldl (λ d b, write_char b d) d (Py.encode_latin1 text).

Definition set_cursor (col row : Z) (d : HD44780_PCF8574) : option HD44780_PCF8574 :=
  let row := if decide (row < 0) then 0 else row in
  let col := if decide (col < 0) then 0 else col in
  let row := if decide (row >= rows (_cfg d)) then rows (_cfg d) - 1 else row in
  let col := if decide (col >= cols (_cfg d)) then cols (_cfg d) - 1 else col in
  off ← Py.getitem (_row_offsets d) row;
  let addr := col + off in
  let d := command (Z.lor LCDC_DDA addr) d in
  Some (set_it (row * cols (_cfg d) + col) d).

Definition create_char (location : Z) (pattern : list Z) (d : HD44780_PCF8574)
    : option HD44780_PCF8574 :=
  if decide (¬ (0 ≤ location ≤ 7)) then None
  else if decide (length pattern ≠ 8%nat) then None
  else
    let d := command (Z.lor LCDC_CGA (Z.shiftl location 3)) d in
    Some (foldl (λ d b, write_char b d) d pattern).

Definition line1 (d : HD44780_PCF8574) : HD44780_PCF8574 :=
  let d := command LCDC_DDA d in
  set_it 0 d.

Definition line2 (d : HD44780_PCF8574) : HD44780_PCF8574 :=
  if decide (rows (_cfg d) < 2) then d
  else
    let d := command (Z.lor LCDC_DDA 0x40) d in
    set_it (cols (_cfg d)) d.

Definition gotoxy (x y : Z) (d : HD44780_PCF8574) : option HD44780_PCF8574 :=
  if decide (x < 0 ∨ x >= cols (_cfg d)) then Some d
  else if decide (y < 0 ∨ y >= rows (_cfg d)) then Some d
  else set_cursor x y d.

Definition up (d : HD44780_PCF8574) : option HD44780_PCF8574 :=
  col ← Py.mod_ (_it d) (cols (_cfg d));
  row ← Py.floordiv (_it d) (cols (_cfg d));
  if decide (row ≤ 0) then Some d
  else set_cursor col (row - 1) d.

Definition down (d : HD44780_PCF8574) : option HD44780_PCF8574 :=
  col ← Py.mod_ (_it d) (cols (_cfg d));
  row ← Py.floordiv (_it d) (cols (_cfg d));
  if decide (row >= rows (_cfg d) - 1) then Some d
  else set_cursor col (row + 1) d.

Definition curleft (d : HD44780_PCF8574) : option HD44780_PCF8574 :=
  let size := cols (_cfg d) * rows (_cfg d) in
  if decide (size ≤ 0) then Some (set_it 0 d)
  else
    let d := set_it (_it d - 1) d in
    let d := if decide (_it d < 0) then set_it (size - 1) d else d in
    col ← Py.mod_ (_it d) (cols (_cfg d));
    row ← Py.floordiv (_it d) (cols (_cfg d));
    set_cursor col row d.

Definition curright (d : HD44780_PCF8574) : option HD44780_PCF8574 :=
  let size := cols (_cfg d) * rows (_cfg d) in
  if decide (size ≤ 0) then Some (set_it 0 d)
  else
    let d := set_it (_it d + 1) d in
    let d := if decide (_it d >= size) then set_it 0 d else d in
    m ← Py.mod_ (_it d) (cols (_cfg d));
    if decide (m = 0) then
      row ← Py.floordiv (_it d) (cols (_cfg d));
      set_cursor 0 row d
    else Some d.

Definition data_it (value : Z) (d : HD44780_PCF8574) : option HD44780_PCF8574 :=
  let d := write_char value d in
  curright d.

Definition back (d : HD44780_PCF8574) : option HD44780_PCF8574 :=
  d ← curleft d;
  let d := write_char Py.SPACE d in
  curleft d.

Definition str (text : list Z) (d : HD44780_PCF8574) : option HD44780_PCF8574 :=
  if decide (text = []) then Some d
  else Py.for_ (Py.encode_latin1 text) data_it d.

(** The cursor and writing operations of the driver, and a call of each. *)
Inductive driver_op :=
| op_init
| op_clear
| op_home
| op_set_cursor (col row : Z)
| op_gotoxy (x y : Z)
| op_line1
| op_line2
| op_up
| op_down
| op_curleft
| op_curright
| op_data_it (value : Z)
| op_str (text : list Z)
| op_back.

Definition run_op (o : driver_op) (d : HD44780_PCF8574) : option HD44780_PCF8574 :=
  match o with
  | op_init => Some (init d)
  | op_clear => Some (clear d)
  | op_home => Some (home d)
  | op_set_cursor col row => set_cursor col row d
  | op_gotoxy x y => gotoxy x y d
  | op_line1 => Some (line1 d)
  | op_line2 => Some (line2 d)
  | op_up => up d
  | op_down => down d
  | op_curleft => curleft d
  | op_curright => curright d
  | op_data_it value => data_it value d
  | op_str text => str text d
  | op_back => back d
  end.

(** The eight signal positions of a mapping. *)
Definition signals (m : Pins.PinMapping) : list Z :=
  [Pins.rs m; Pins.rw m; Pins.e m; Pins.bl m;
   Pins.d4 m; Pins.d5 m; Pins.d6 m; Pins.d7 m].

(** A driver whose cursor is on the screen: the geometry is at least one
    cell each way and at most four rows, the four row offsets are there. *)
Definition cursor_ok (d : HD44780_PCF8574) : Prop :=
  1 ≤ cols (_cfg d) ∧ 1 ≤ rows (_cfg d) ≤ 4
  ∧ length (_row_offsets d) = 4%nat
  ∧ 0 ≤ _it d < cols (_cfg d) * rows (_cfg d).

End Lcdx.

(** ** lcds.py: the buffered screen *)

Module Lcds.

Record LCDSConfig := {
  cols : Z;
  rows : Z;
  use_dynamic_chars : bool
}.

Record DynamicCharDef := {
  pattern : list Z;   (* 8 bytes, 5-bit rows *)
  alt : list Z         (* fallback single-char replacement *)
}.

(** The calls [LCDS] makes on its driver object [_lcd], in the order made.
    The field [_lcd] of the screen holds the record of them; [perform]
    makes one of them on the driver object of [lcdx.py], where it can
    raise, and [on_driver] runs a method of the screen with its driver. *)
Inductive lcd_call :=
| create_char (location : Z) (pat : list Z)
| set_cursor (col row : Z)
| write_char (code : Z).

Record LCDS := {
  _lcd : list lcd_call;
  _cfg : LCDSConfig;
  _buf : list Z;
  _shadow : list Z;
  _puts_line : Z;
  _dyn_charset : gmap Z DynamicCharDef;
  _dyn_char_to_slot : gmap Z Z;
  _dyn_slot_to_char : list (option Z);
  _dyn_used_mask : Z;
  _dyn_rotate_index : Z
}.

Definition set_lcd (f : list lcd_call → list lcd_call) (s : LCDS) : LCDS :=
  {| _lcd := f (_lcd s); _cfg := _cfg s; _buf := _buf s; _shadow := _shadow s;
     _puts_line := _puts_line s; _dyn_charset := _dyn_charset s;
     _dyn_char_to_slot := _dyn_char_to_slot s;
     _dyn_slot_to_char := _dyn_slot_to_char s;
     _dyn_used_mask := _dyn_used_mask s;
     _dyn_rotate_index := _dyn_rotate_index s |}.

Definition set_buf (b : list Z) (s : LCDS) : LCDS :=
  {| _lcd := _lcd s; _cfg := _cfg s; _buf := b; _shadow := _shadow s;
     _puts_line := _puts_line s; _dyn_charset := _dyn_charset s;
     _dyn_char_to_slot := _dyn_char_to_slot s;
     _dyn_slot_to_char := _dyn_slot_to_char s;
     _dyn_used_mask := _dyn_used_mask s;
     _dyn_rotate_index := _dyn_rotate_index s |}.

Definition set_shadow (b : list Z) (s : LCDS) : LCDS :=
  {| _lcd := _lcd s; _cfg := _cfg s; _buf := _buf s; _shadow := b;
     _puts_line := _puts_line s; _dyn_charset := _dyn_charset s;
     _dyn_char_to_slot := _dyn_char_to_slot s;
     _dyn_slot_to_char := _dyn_slot_to_char s;
     _dyn_used_mask := _dyn_used_mask s;
     _dyn_rotate_index := _dyn_rotate_index s |}.

Definition set_puts_line (l : Z) (s : LCDS) : LCDS :=
  {| _lcd := _lcd s; _cfg := _cfg s; _buf := _buf s; _shadow := _shadow s;
     _puts_line := l; _dyn_charset := _dyn_charset s;
     _dyn_char_to_slot := _dyn_char_to_slot s;
     _dyn_slot_to_char := _dyn_slot_to_char s;
     _dyn_used_mask := _dyn_used_mask s;
     _dyn_rotate_index := _dyn_rotate_index s |}.

(** The four fields of the glyph cache, replaced together. *)
Definition set_dyn (c2s : gmap Z Z) (s2c : list (option Z)) (mask rot : Z)
    (s : LCDS) : LCDS :=
  {| _lcd := _lcd s; _cfg := _cfg s; _buf := _buf s; _shadow := _shadow s;
     _puts_line := _puts_line s; _dyn_charset := _dyn_charset s;
     _dyn_char_to_slot := c2s;
     _dyn_slot_to_char := s2c;
     _dyn_used_mask := mask;
     _dyn_rotate_index := rot |}.

(** The object with the fields a refresh touches replaced: the driver, the
    shadow and the glyph cache. *)
Definition refreshed (lcd : list lcd_call) (shadow : list Z)
    (c2s : gmap Z Z) (s2c : list (option Z)) (mask rot : Z) (s : LCDS) : LCDS :=
  {| _lcd := lcd; _cfg := _cfg s; _buf := _buf s; _shadow := shadow;
     _puts_line := _puts_line s; _dyn_charset := _dyn_charset s;
     _dyn_char_to_slot := c2s;
     _dyn_slot_to_char := s2c;
     _dyn_used_mask := mask;
     _dyn_rotate_index := rot |}.

(** The helper [p] of [_default_dynamic_charset]: eight rows, five bits each. *)
Definition p (rws : list Z) : option (list Z) :=
  if decide (length rws ≠ 8%nat) then None
  else Some ((λ r, Z.land r 0x1F) <$> rws).

(** One catalog line: the character, its eight rows and its fallback. *)
Definition charset_source : list (Z * list Z * Z) :=
  [ (* Polish letters *)
    (0x105, [0x00; 0x0E; 0x01; 0x0F; 0x11; 0x0F; 0x02; 0x01], 0x61);
    (0x104, [0x0E; 0x11; 0x11; 0x1F; 0x11; 0x11; 0x02; 0x01], 0x41);
    (0x107, [0x02; 0x04; 0x0E; 0x10; 0x10; 0x11; 0x0E; 0x00], 0x63);
    (0x106, [0x02; 0x04; 0x0E; 0x11; 0x10; 0x11; 0x0E; 0x00], 0x43);
    (0x119, [0x00; 0x0E; 0x11; 0x1F; 0x10; 0x0E; 0x02; 0x01], 0x65);
    (0x118, [0x1F; 0x10; 0x1C; 0x10; 0x10; 0x1F; 0x02; 0x01], 0x45);
    (0x142, [0x0C; 0x04; 0x06; 0x04; 0x0C; 0x04; 0x0E; 0x00], 0x6C);
    (0x141, [0x08; 0x08; 0x0A; 0x0C; 0x18; 0x08; 0x0F; 0x00], 0x4C);
    (0x144, [0x02; 0x04; 0x16; 0x19; 0x11; 0x11; 0x11; 0x00], 0x6E);
    (0x143, [0x02; 0x15; 0x11; 0x19; 0x15; 0x13; 0x11; 0x00], 0x4E);
    (0x0F3, [0x02; 0x04; 0x0E; 0x11; 0x11; 0x11; 0x0E; 0x00], 0x6F);
    (0x0D3, [0x02; 0x04; 0x0E; 0x11; 0x11; 0x11; 0x0E; 0x00], 0x4F);
    (0x15B, [0x02; 0x04; 0x0E; 0x10; 0x0E; 0x01; 0x1E; 0x00], 0x73);
    (0x15A, [0x02; 0x04; 0x0F; 0x10; 0x1E; 0x01; 0x1E; 0x00], 0x53);
    (0x17C, [0x02; 0x04; 0x1F; 0x02; 0x04; 0x08; 0x1F; 0x00], 0x7A);
    (0x17B, [0x02; 0x04; 0x1F; 0x02; 0x04; 0x08; 0x1F; 0x00], 0x5A);
    (0x17A, [0x04; 0x00; 0x1F; 0x02; 0x04; 0x08; 0x1F; 0x00], 0x7A);
    (0x179, [0x04; 0x00; 0x1F; 0x02; 0x04; 0x08; 0x1F; 0x00], 0x5A);
    (* Common symbols *)
    (0x0B1, [0x04; 0x04; 0x1F; 0x04; 0x04; 0x00; 0x1F; 0x00], 0x20);
    (0x0BB, [0x00; 0x14; 0x0A; 0x05; 0x0A; 0x14; 0x00; 0x00], 0x3E);
    (0x0B0, [0x06; 0x09; 0x09; 0x06; 0x00; 0x00; 0x00; 0x00], 0x2A);
    (* a CGRAM backslash *)
    (0x05C, [0x10; 0x08; 0x04; 0x02; 0x01; 0x00; 0x00; 0x00], 0x2F) ].

Definition _default_dynamic_charset : option (gmap Z DynamicCharDef) :=
  entries ← mapM (λ '(ch, rws, a),
                    pat ← p rws; Some (ch, {| pattern := pat; alt := [a] |}))
                 charset_source;
  Some (list_to_map entries).

(** [LCDS.__init__], with the geometry and the flag of its config. *)
Definition __init__ (config : LCDSConfig) : option LCDS :=
  let size := Z.to_nat (cols config * rows config) in
  charset ← _default_dynamic_charset;
  Some {| _lcd := [];
          _cfg := config;
          _buf := replicate size Py.SPACE;
          _shadow := replicate size Py.NUL;
          _puts_line := 0;
          _dyn_charset := charset;
          _dyn_char_to_slot := ∅;
          _dyn_slot_to_char := replicate 8 None;
          _dyn_used_mask := 0;
          _dyn_rotate_index := 0 |}.

Definition clear (s : LCDS) : option LCDS :=
  b ← Py.for_ (Py.range 0 (Z.of_nat (length (_buf s))))
              (λ i b, Py.setitem b i Py.SPACE) (_buf s);
  Some (set_buf b s).

Definition clear_line (row : Z) (s : LCDS) : option LCDS :=
  let row := Z.max 0 (Z.min (rows (_cfg s) - 1) row) in
  let start := row * cols (_cfg s) in
  b ← Py.for_ (Py.range start (start + cols (_cfg s)))
              (λ i b, Py.setitem b i Py.SPACE) (_buf s);
  Some (set_buf b s).

Definition write_at (col row : Z) (text : list Z) (s : LCDS) : option LCDS :=
  if decide (row < 0 ∨ row >= rows (_cfg s)) then Some s
  else
    let col := if decide (col < 0) then 0 else col in
    if decide (col >= cols (_cfg s)) then Some s
    else if decide (text = []) then Some s
    else
      let max_len := cols (_cfg s) - col in
      let text := Py.prefix text max_len in
      let start := row * cols (_cfg s) + col in
      b ← Py.for_ (Py.enumerate text)
                  (λ '(i, ch) b, Py.setitem b (start + i) ch) (_buf s);
      Some (set_buf b s).

(** The cells one call [write_at(col, row, text)] writes, in the words of
    the specification: on row [row], the columns from [col] (0 for a
    negative one) to the end of the text or of the row, whichever comes
    first; no cell when the row is out of range. Cell [k] is the index in
    the buffer, row-major. *)
Definition written (cfg : LCDSConfig) (col row : Z) (text : list Z) (k : Z) : Prop :=
  0 ≤ row < rows cfg ∧
  row * cols cfg + Z.max 0 col ≤ k
    < row * cols cfg + Z.min (Z.max 0 col + Z.of_nat (length text)) (cols cfg).

(** The body of the loop of [puts], over (buffer, line, col). *)
Definition puts_body (cfg : LCDSConfig) (ch : Z) (st : list Z * Z * Z)
    : option (list Z * Z * Z) :=
  let '(b, line, col) := st in
  if decide (ch = Py.NEWLINE) then
    line ← Py.mod_ (line + 1) (rows cfg);
    Some (b, line, 0)
  else
    b ← Py.setitem b (line * cols cfg + col) ch;
    col ← Py.mod_ (col + 1) (cols cfg);
    Some (b, line, col).

Definition puts (text : list Z) (s : LCDS) : option LCDS :=
  if decide (text = []) then Some s
  else
    let line := _puts_line s in
    let col := 0 in
    s ← clear_line line s;
    '(b, line, col) ← Py.for_ text (puts_body (_cfg s)) (_buf s, line, col);
    Some (set_puts_line line (set_buf b s)).

(** Where [puts] stands after a part [pre] of its text, in the words of
    the specification: every line break before moved one row on, wrapping
    past the last row; the column is the number of characters since the
    last break (all of them when there is none), wrapping within the row. *)
Definition breaks (pre : list Z) : Z :=
  Z.of_nat (length (filter (λ c, c = Py.NEWLINE) pre)).

Fixpoint leading (l : list Z) : nat :=
  match l with
  | [] => 0%nat
  | c :: l' => if decide (c = Py.NEWLINE) then 0%nat else S (leading l')
  end.

Definition since_break (pre : list Z) : Z := Z.of_nat (leading (reverse pre)).

Definition puts_line_at (cfg : LCDSConfig) (line0 : Z) (pre : list Z) : Z :=
  (line0 + breaks pre) `mod` rows cfg.

Definition puts_col_at (cfg : LCDSConfig) (pre : list Z) : Z :=
  since_break pre `mod` cols cfg.

(** The cell that receives the character which follows [pre]. *)
Definition puts_cell (cfg : LCDSConfig) (line0 : Z) (pre : list Z) : Z :=
  puts_line_at cfg line0 pre * cols cfg + puts_col_at cfg pre.

(** A screen as [__init__] makes and the methods keep it: a geometry of
    at least one cell each way, a buffer and a shadow of its size, and a
    remembered line on the screen. *)
Definition screen_ok (s : LCDS) : Prop :=
  1 ≤ cols (_cfg s) ∧ 1 ≤ rows (_cfg s)
  ∧ Z.of_nat (length (_buf s)) = cols (_cfg s) * rows (_cfg s)
  ∧ length (_shadow s) = length (_buf s)
  ∧ 0 ≤ _puts_line s < rows (_cfg s).

Definition reset_dynamic_chars (s : LCDS) : LCDS :=
  set_dyn ∅ (replicate 8 None) 0 0 s.

(** [1 << slot]: a [ValueError] for a negative shift count. *)
Definition bit (slot : Z) : option Z :=
  if decide (slot < 0) then None else Some (Z.shiftl 1 slot).

(** When the dynamic-slot mask is full, free one slot (round-robin). *)
Definition _age_dynamic_mask_if_full (s : LCDS) : option LCDS :=
  if decide (_dyn_used_mask s = 0xFF) then
    let slot := _dyn_rotate_index s in
    b ← bit slot;
    Some (set_dyn (_dyn_char_to_slot s) (_dyn_slot_to_char s)
                  (Z.land (_dyn_used_mask s) (Z.lnot b))
                  ((_dyn_rotate_index s + 1) `mod` 8) s)
  else Some s.

(** The loop [for slot in range(8)] of [_alloc_dynamic_slot], which
    returns from inside its body at the first slot whose mask bit is clear. *)
Fixpoint alloc_scan (slots : list Z) (ch : Z) (s : LCDS)
    : option (option (Z * bool) * LCDS) :=
  match slots with
  | [] => Some (None, s)
  | slot :: slots' =>
      b ← bit slot;
      if decide (Z.land (_dyn_used_mask s) b = 0) then
        old ← Py.getitem (_dyn_slot_to_char s) slot;
        let c2s := match old with
                   | Some o => delete o (_dyn_char_to_slot s)
                   | None => _dyn_char_to_slot s
                   end in
        let c2s := <[ch := slot]> c2s in
        s2c ← Py.setitem (_dyn_slot_to_char s) slot (Some ch);
        let s := set_dyn c2s s2c (Z.lor (_dyn_used_mask s) b)
                         (_dyn_rotate_index s) s in
        match _dyn_charset s !! ch with
        | None => Some (None, s)
        | Some dyn =>
            let s := set_lcd (λ l, l ++ [create_char slot (pattern dyn)]) s in
            Some (Some (slot, true), s)
        end
      else alloc_scan slots' ch s
  end.

(** Return (slot, created) or None if cannot allocate. *)
Definition _alloc_dynamic_slot (ch : Z) (s : LCDS)
    : option (option (Z * bool) * LCDS) :=
  match _dyn_char_to_slot s !! ch with
  | Some existing => Some (Some (existing, false), s)
  | None => alloc_scan (Py.range 0 8) ch s
  end.

(** The end of [_encode_for_lcd], where [ch] is the character itself or
    the fallback string of its catalog entry; [ord] raises on a string of
    more than one character. *)
Definition encode_plain (ch : list Z) : option (Z * bool) :=
  match ch with
  | [] => Some (Py.SPACE, false)
  | [code] =>
      if decide (0 ≤ code ≤ 0xFF) then Some (code, false)
      else Some (Py.QUESTION, false)
  | _ => None
  end.

(** Return (byte_code, cursor_reset_needed). *)
Definition _encode_for_lcd (ch : Z) (s : LCDS) : option ((Z * bool) * LCDS) :=
  match (if use_dynamic_chars (_cfg s) then _dyn_charset s !! ch else None) with
  | Some dyn =>
      '(allocated, s) ← _alloc_dynamic_slot ch s;
      match allocated with
      | Some (slot, created) => Some ((slot, created), s)
      | None =>
          (* No slot: use fallback *)
          r ← encode_plain (alt dyn); Some (r, s)
      end
  | None => r ← encode_plain [ch]; Some (r, s)
  end.

(** The body of the loop of [flush], over (object, last_written). Its
    calls on the driver go to the record [_lcd]; [on_driver] makes them on
    the driver object. *)
Definition flush_body (ich : Z * Z) (st : LCDS * Z) : option (LCDS * Z) :=
  let '(i, ch) := ich in
  let '(s, last_written) := st in
  sh ← Py.getitem (_shadow s) i;
  if decide (sh = ch) then Some (s, last_written)
  else
    s ← _age_dynamic_mask_if_full s;
    shadow ← Py.setitem (_shadow s) i ch;
    let s := set_shadow shadow s in
    '((code, cursor_reset), s) ← _encode_for_lcd ch s;
    reset ← (if cursor_reset : bool then Some true
             else if decide (i - last_written ≠ 1) then Some true
             else
               a ← Py.floordiv i (cols (_cfg s));
               b ← Py.floordiv last_written (cols (_cfg s));
               Some (bool_decide (a ≠ b)));
    s ← (if reset : bool then
           col ← Py.mod_ i (cols (_cfg s));
           row ← Py.floordiv i (cols (_cfg s));
           Some (set_lcd (λ l, l ++ [set_cursor col row]) s)
         else Some s);
    let s := set_lcd (λ l, l ++ [write_char code]) s in
    Some (s, i).

(** Refresh the physical LCD by writing only changed cells. *)
Definition flush (s : LCDS) : option LCDS :=
  '(s, _) ← Py.for_ (Py.enumerate (_buf s)) flush_body (s, -10000);
  Some s.

(** What a recorded call does on the driver object of [lcdx.py]. *)
Definition perform (c : lcd_call) (d : Lcdx.HD44780_PCF8574)
    : option Lcdx.HD44780_PCF8574 :=
  match c with
  | create_char location pat => Lcdx.create_char location pat d
  | set_cursor col row => Lcdx.set_cursor col row d
  | write_char code => Some (Lcdx.write_char code d)
  end.

(** *** The glyph cache: its state as the specification describes it *)

(** The slots whose bit is set in a mask, among the eight of the CGRAM. *)
Definition used_slots (mask : Z) : list Z :=
  filter (λ slot, Z.testbit mask slot = true) (seqZ 0 8).

(** The number of set bits of the used-slot mask. *)
Definition popcount (mask : Z) : nat := length (used_slots mask).

(** The two maps mirror each other: a character maps to a slot exactly
    when that slot's reverse entry is the character. *)
Definition maps_mirror (s : LCDS) : Prop :=
  ∀ ch slot,
    _dyn_char_to_slot s !! ch = Some slot
    ↔ 0 ≤ slot < 8 ∧ _dyn_slot_to_char s !! Z.to_nat slot = Some (Some ch).

(** The invariant of the glyph cache as the specification states it. *)
Definition glyph_invariant_claimed (s : LCDS) : Prop :=
  maps_mirror s
  ∧ popcount (_dyn_used_mask s) = size (_dyn_char_to_slot s).

(** The invariant the code keeps: the maps mirror each other, every bit
    set in the mask names a slot that holds a character, and the mask
    counts as many slots as there are mapped characters, or one less: 7
    bits for 8 characters, after the full mask was aged (the bit goes at
    once, the mapping only when the slot is given away). *)
Definition glyph_invariant (s : LCDS) : Prop :=
  maps_mirror s
  ∧ (∀ slot, Z.testbit (_dyn_used_mask s) slot = true →
       0 ≤ slot < 8
       ∧ ∃ ch, _dyn_slot_to_char s !! Z.to_nat slot = Some (Some ch))
  ∧ (popcount (_dyn_used_mask s) = size (_dyn_char_to_slot s)
     ∨ (popcount (_dyn_used_mask s) = 7%nat
        ∧ size (_dyn_char_to_slot s) = 8%nat)).

(** What the cache code itself relies on, and keeps: eight reverse
    entries, a rotation index among them, mirrored maps, and mask bits
    that name slots holding a character. *)
Definition cache_ok (s : LCDS) : Prop :=
  length (_dyn_slot_to_char s) = 8%nat
  ∧ 0 ≤ _dyn_rotate_index s < 8
  ∧ maps_mirror s
  ∧ (∀ slot, Z.testbit (_dyn_used_mask s) slot = true →
       0 ≤ slot < 8
       ∧ ∃ ch, _dyn_slot_to_char s !! Z.to_nat slot = Some (Some ch)).

(** The cache once slot [v] is given to [ch]: the branch of the loop of
    [_alloc_dynamic_slot] for a slot whose bit is clear, its look-ups
    done ([old] is the former reverse entry of the slot). *)
Definition give_slot (v ch : Z) (s : LCDS) : LCDS :=
  let old := mjoin (_dyn_slot_to_char s !! Z.to_nat v) in
  let c2s := match old with
             | Some o => delete o (_dyn_char_to_slot s)
             | None => _dyn_char_to_slot s
             end in
  set_dyn (<[ch := v]> c2s) (<[Z.to_nat v := Some ch]> (_dyn_slot_to_char s))
          (Z.lor (_dyn_used_mask s) (2 ^ v)) (_dyn_rotate_index s) s.

(** The cache while it fills for the first time: the characters of
    [order] hold the slots 0, 1, ... in this order, the other slots are
    empty, and the mask has the bits of the slots given so far; once all
    eight are given, the mask may have been aged once (bit 0 cleared, the
    rotation index moved to 1). *)
Definition filled (order : list Z) (s : LCDS) : Prop :=
  _dyn_slot_to_char s
  = (Some <$> order) ++ replicate (8 - length order) None
  ∧ ((_dyn_used_mask s = Z.ones (Z.of_nat (length order))
      ∧ _dyn_rotate_index s = 0)
     ∨ (length order = 8%nat
        ∧ _dyn_used_mask s = 0xFE ∧ _dyn_rotate_index s = 1)).

(** The operations of the buffered screen. *)
Inductive screen_op :=
| op_clear
| op_clear_line (row : Z)
| op_write_at (col row : Z) (text : list Z)
| op_puts (text : list Z)
| op_reset_dynamic_chars
| op_flush.

Definition run_op (o : screen_op) (s : LCDS) : option LCDS :=
  match o with
  | op_clear => clear s
  | op_clear_line row => clear_line row s
  | op_write_at col row text => write_at col row text s
  | op_puts text => puts text s
  | op_reset_dynamic_chars => Some (reset_dynamic_chars s)
  | op_flush => flush s
  end.


(** The states of a screen in use, from [s0] on, with the characters of
    the cells its refreshes have written so far, in the order written:
    between two cells of a refresh, and between refreshes, where the buffer
    and the remembered line may have been changed by any of the writing
    operations. A step is one turn of the loop of [flush] on a cell whose
    shadow differs. *)
Inductive reached (s0 : LCDS) : list Z → LCDS → Prop :=
| reached_start : reached s0 [] s0
| reached_edit chs s b line :
    reached s0 chs s →
    reached s0 chs (set_puts_line line (set_buf b s))
| reached_cell chs s i ch last s' last' :
    reached s0 chs s →
    0 ≤ i →
    Py.getitem (_shadow s) i ≠ Some ch →
    flush_body (i, ch) (s, last) = Some (s', last') →
    reached s0 (chs ++ [ch]) s'.


(** *** The screen on its driver *)

(** The screen object with the driver object its field [_lcd] names. No
    method of the screen reads the driver, and the driver's methods return
    nothing to the screen: a method of the screen is run as above, and the
    calls it made on the driver, those it added to the record [_lcd], are
    made on the driver object in the order recorded. A call that raises in
    [lcdx.py] makes the method raise. *)
Definition on_driver (method : LCDS → option LCDS)
    (sd : LCDS * Lcdx.HD44780_PCF8574) : option (LCDS * Lcdx.HD44780_PCF8574) :=
  let '(s, d) := sd in
  s' ← method s;
  d' ← Py.for_ (drop (length (_lcd s)) (_lcd s')) perform d;
  Some (s', d').


(** The characters a refresh writes: those of the cells of the buffer that
    differ from the shadow, in the order of the cells. *)
Definition changed (s : LCDS) : list Z :=
  (filter (λ ich : Z * Z, Py.getitem (_shadow s) ich.1 ≠ Some ich.2)
          (Py.enumerate (_buf s))).*2.


(** A catalog whose patterns have the eight rows of a glyph, as [p] makes
    them. *)
Definition glyphs_ok (s : LCDS) : Prop :=
  ∀ ch dyn, _dyn_charset s !! ch = Some dyn → length (pattern dyn) = 8%nat.

(** A call the driver takes without raising, whatever its cursor: the
    checks of [create_char] in [lcdx.py]. *)
Definition call_ok (c : lcd_call) : Prop :=
  match c with
  | create_char location pat => 0 ≤ location ≤ 7 ∧ length pat = 8%nat
  | _ => True
  end.

(** The object after [_age_dynamic_mask_if_full], its shift done. *)
Definition aged (s : LCDS) : LCDS :=
  if decide (_dyn_used_mask s = 0xFF) then
    set_dyn (_dyn_char_to_slot s) (_dyn_slot_to_char s)
            (Z.land (_dyn_used_mask s) (Z.lnot (2 ^ _dyn_rotate_index s)))
            ((_dyn_rotate_index s + 1) `mod` 8) s
  else s.

(** The mask against the slots that hold a character: every such slot has
    its bit, as the allocations leave the mask; or all eight slots hold a
    character and one bit is clear, the full mask once aged. *)
Definition snug (s : LCDS) : Prop :=
  (∀ slot ch, 0 ≤ slot < 8 →
     _dyn_slot_to_char s !! Z.to_nat slot = Some (Some ch) →
     Z.testbit (_dyn_used_mask s) slot = true)
  ∨ (∃ v, 0 ≤ v < 8
       ∧ (∀ slot, 0 ≤ slot < 8 →
            Z.testbit (_dyn_used_mask s) slot = bool_decide (slot ≠ v))
       ∧ (∀ slot, 0 ≤ slot < 8 →
            ∃ ch, _dyn_slot_to_char s !! Z.to_nat slot = Some (Some ch))).

End Lcds.

(** ** menu/core.py and menu/widgets.py: the menu engine *)

Module Menu.

(** [LineAction] *)
Definition NONE : Z := 0.
Definition OK : Z := 1.
Definition LEFT : Z := 2.
Definition RIGHT : Z := 3.
Definition UP : Z := 4.
Definition DOWN : Z := 5.
Definition ON_ENTER : Z := 6.
Definition ON_LEAVE : Z := 7.
Definition BREAK : Z := 8.
Definition DIGIT_BASE : Z := 9.

(** The callbacks the engine calls, in the order called: a callback is an
    observer, it changes nothing of the menu. *)
Inductive effect :=
| event (name : list Z) (action child_it : Z)   (* Menu.event(self, action, child_it) *)
| commit (index : Z).                            (* Ok.commit(index) *)

Definition _fit (text : list Z) (size : Z) (fill : Z) : list Z :=
  if decide (size ≤ 0) then []
  else if decide (Z.of_nat (length text) >= size) then Py.prefix text size
  else text ++ Py.times fill (size - Z.of_nat (length text)).

Definition _bracket (open_on close_on : bool) : Z * Z :=
  (if open_on then 60 else 91, if close_on then 62 else 93).

(** *** Space *)

Definition Space_print (size : Z) : list Z := Py.times 45 (Z.max 0 size).

(** *** SwitchItem *)

Record SwitchItem := {
  si_name : list Z;
  si_enter : bool;
  si_select : bool
}.

Definition SwitchItem_print (w : SwitchItem) (size : Z) : list Z :=
  if decide (size < 4) then []
  else
    let base := _fit (si_name w) size Py.SPACE in
    let base := Py.prefix base (Z.max 0 (size - 3)) in
    let base := _fit base (size - 3) Py.SPACE in
    let '(o, c) := _bracket (si_enter w) (si_enter w) in
    let mid := if si_select w then 42 else Py.SPACE in
    base ++ [o] ++ [mid] ++ [c].

Definition SwitchItem_action (w : SwitchItem) (action : Z) : Z * SwitchItem :=
  if decide (action = ON_ENTER) then
    (action, {| si_name := si_name w; si_enter := true; si_select := si_select w |})
  else if decide (action = ON_LEAVE) then
    (action, {| si_name := si_name w; si_enter := false; si_select := si_select w |})
  else if decide (action = LEFT ∨ action = RIGHT) then
    (action, {| si_name := si_name w; si_enter := si_enter w;
                si_select := negb (si_select w) |})
  else (action, w).

(** *** Edit *)

Record Edit := {
  max_len : Z;
  input : list Z;
  children_num : Z;
  ed_child_it : Z;
  ed_cur_line : Z;
  ed_enter : bool
}.

(** [Edit()] with its defaults, [__post_init__] done. *)
Definition Edit_new : Edit :=
  {| max_len := 50; input := replicate 50 0; children_num := 0;
     ed_child_it := 0; ed_cur_line := 0; ed_enter := false |}.

Definition Edit_with (inp : list Z) (num it line : Z) (w : Edit) : Edit :=
  {| max_len := max_len w; input := inp; children_num := num;
     ed_child_it := it; ed_cur_line := line; ed_enter := ed_enter w |}.

Definition Edit_set (text : list Z) (w : Edit) : option Edit :=
  if decide (text = []) then Some w
  else
    let w := Edit_with (input w) 0 0 0 w in
    let raw := Py.encode_latin1 text in
    Py.for_ (Py.prefix raw (max_len w - 1))
            (λ b w,
               inp ← Py.setitem (input w) (children_num w) b;
               Some (Edit_with inp (children_num w + 1) (ed_child_it w + 1)
                               (ed_cur_line w) w))
            w.

Definition Edit_get (w : Edit) (size : Z) : option (list Z) :=
  if decide (size ≤ 0) then Some []
  else
    let take := Z.min (size - 1) (children_num w) in
    Py.bytes (Py.prefix (input w) take).

(** [bytes.split(NUL, 1)[0]]: what stands before the first NUL. *)
Fixpoint before_nul (l : list Z) : list Z :=
  match l with
  | [] => []
  | b :: l' => if decide (b = Py.NUL) then [] else b :: before_nul l'
  end.

Definition Edit_print (w : Edit) (size : Z) : option (list Z) :=
  if decide (size ≤ 0) then Some []
  else if decide (size < 2) then Some (Py.ljust [] size)
  else
    let inner := Z.max 0 (size - 2) in
    view ← Py.for_ (Py.range 0 inner)
      (λ i view,
         if decide (i < children_num w) then
           let src := ed_cur_line w + i in
           if decide (src < max_len w - 1) then
             k ← Py.mod_ src (max_len w - 1);
             b ← Py.getitem (input w) k;
             Py.setitem view i b
           else Some view
         else Some view)
      (Py.times 0 inner);
    let cursor := [124] in
    raw ← Py.bytes view;
    let buf := before_nul raw in
    let content :=
      if decide (buf = []) then Py.ljust cursor inner
      else
        let content := buf in
        let place := Z.max 0 (ed_child_it w - ed_cur_line w) in
        let place := if decide (place > Z.of_nat (length content))
                     then Z.of_nat (length content) else place in
        let content := Py.prefix content place ++ cursor ++ Py.suffix content place in
        _fit content inner Py.SPACE in
    let '(o, c) := _bracket (ed_enter w) (ed_enter w) in
    Some ([o] ++ content ++ [c]).

Definition Edit_action (w : Edit) (action : Z) : option (Z * Edit) :=
  let inner_visible := 12 in
  let inner_visible :=
    if decide (ed_cur_line w ≤ ed_child_it w)
    then Z.max inner_visible (ed_child_it w - ed_cur_line w + 1)
    else inner_visible in
  if decide (action = ON_ENTER) then
    Some (action, {| max_len := max_len w; input := input w;
                     children_num := children_num w; ed_child_it := ed_child_it w;
                     ed_cur_line := ed_cur_line w; ed_enter := true |})
  else if decide (action = ON_LEAVE) then
    Some (action, {| max_len := max_len w; input := input w;
                     children_num := children_num w; ed_child_it := ed_child_it w;
                     ed_cur_line := ed_cur_line w; ed_enter := false |})
  else if decide (action = RIGHT) then
    if decide (ed_child_it w < children_num w) then
      let it := ed_child_it w + 1 in
      let line := if decide (it - ed_cur_line w > inner_visible - 1)
                  then ed_cur_line w + 1 else ed_cur_line w in
      Some (action, Edit_with (input w) (children_num w) it line w)
    else Some (action, w)
  else if decide (action = LEFT) then
    let it := if decide (ed_child_it w > 0) then ed_child_it w - 1 else ed_child_it w in
    let line := if decide (ed_cur_line w > 0) then ed_cur_line w - 1 else ed_cur_line w in
    Some (action, Edit_with (input w) (children_num w) it line w)
  else if decide (action = BREAK) then
    if decide (children_num w ≠ 0 ∧ ed_child_it w ≠ 0) then
      let delete_at := ed_child_it w - 1 in
      inp ← Py.for_ (Py.range delete_at (children_num w - 1))
                    (λ i inp, b ← Py.getitem inp (i + 1); Py.setitem inp i b)
                    (input w);
      inp ← Py.setitem inp (children_num w - 1) 0;
      let line := if decide (ed_cur_line w > 0) then ed_cur_line w - 1 else ed_cur_line w in
      Some (action, Edit_with inp (children_num w - 1) (ed_child_it w - 1) line w)
    else Some (action, w)
  else
    if decide (children_num w < max_len w - 2) then
      let ch := Z.land (action - DIGIT_BASE) 0xFF in
      inp ← (if decide (ed_child_it w = children_num w) then
               Py.setitem (input w) (ed_child_it w) ch
             else
               (* for i in range(children_num, child_it, -1) *)
               inp ← Py.for_ (reverse (Py.range (ed_child_it w + 1) (children_num w + 1)))
                             (λ i inp,
                                if decide (i >= max_len w - 1) then Some inp
                                else b ← Py.getitem inp (i - 1); Py.setitem inp i b)
                             (input w);
               Py.setitem inp (ed_child_it w) ch);
      let it := ed_child_it w + 1 in
      let line := if decide (it - ed_cur_line w > inner_visible - 1)
                  then ed_cur_line w + 1 else ed_cur_line w in
      Some (action, Edit_with inp (children_num w + 1) it line w)
    else Some (action, w).

(** *** Switch *)

Record Switch := {
  pin : Z;
  eep : Z;
  sw_name : list Z;
  edit : option Edit;
  counter : Z;
  sw_enter : bool;
  sw_select : bool
}.

Definition Switch_print (w : Switch) (size : Z) : option (list Z) :=
  if decide (size < 4) then Some []
  else
    match edit w with
    | Some e => Edit_print e size
    | None =>
        let base := _fit (sw_name w) size Py.SPACE in
        let base := Py.prefix base (Z.max 0 (size - 3)) in
        let base := _fit base (size - 3) Py.SPACE in
        let sel := Py.SPACE in
        let '(o, c) := _bracket (sw_enter w) (sw_enter w) in
        Some (base ++ [o] ++ [sel] ++ [c])
    end.

Definition Switch_action (w : Switch) (action : Z) : option (Z * Switch) :=
  match edit w with
  | Some e =>
      if decide (action = OK) then
        name ← Edit_get e 100;
        Some (BREAK, {| pin := pin w; eep := eep w; sw_name := name; edit := None;
                        counter := counter w; sw_enter := sw_enter w;
                        sw_select := sw_select w |})
      else
        '(_, e) ← Edit_action e action;
        Some (BREAK, {| pin := pin w; eep := eep w; sw_name := sw_name w;
                        edit := Some e; counter := counter w;
                        sw_enter := sw_enter w; sw_select := sw_select w |})
  | None =>
      if decide (action = ON_ENTER) then
        Some (action, {| pin := pin w; eep := eep w; sw_name := sw_name w;
                         edit := None; counter := counter w; sw_enter := true;
                         sw_select := sw_select w |})
      else if decide (action = ON_LEAVE) then
        Some (action, {| pin := pin w; eep := eep w; sw_name := sw_name w;
                         edit := None; counter := counter w; sw_enter := false;
                         sw_select := sw_select w |})
      else if decide (action = LEFT ∨ action = RIGHT) then
        Some (action, {| pin := pin w; eep := eep w; sw_name := sw_name w;
                         edit := None; counter := 0; sw_enter := sw_enter w;
                         sw_select := negb (sw_select w) |})
      else if decide (action = OK) then
        e ← (if decide (sw_name w ≠ []) then Edit_set (sw_name w) Edit_new
             else Some Edit_new);
        '(_, e) ← Edit_action e ON_ENTER;
        Some (action, {| pin := pin w; eep := eep w; sw_name := sw_name w;
                         edit := Some e; counter := counter w;
                         sw_enter := sw_enter w; sw_select := sw_select w |})
      else Some (action, w)
  end.

(** *** RangeItem *)

Record RangeItem := {
  ri_name : list Z;
  min : Z;
  max : Z;
  current : Z;
  ri_enter : bool
}.

(** The label, the value in brackets at its right end: the common end of
    [RangeItem.print] and [EnumItem.print]. *)
Definition bracketed (name value : list Z) (enter : bool) (size : Z)
    : option (list Z) :=
  let buf := Py.times Py.SPACE size in
  let left := name in
  let buf := if decide (left ≠ []) then Py.ljust (Py.prefix left size) size else buf in
  let '(o, c) := _bracket enter enter in
  let pos := Z.max 0 (size - Z.of_nat (length value) - 2) in
  let out := buf in
  out ← (if decide (pos < size) then Py.setitem out pos o else Some out);
  let start := pos + 1 in
  out ← Py.for_ (Py.enumerate (Py.prefix value (Z.max 0 (size - start - 1))))
                (λ '(i, ch) out,
                   if decide (start + i < size - 1) then Py.setitem out (start + i) ch
                   else Some out)
                out;
  out ← (if decide (size >= 1) then Py.setitem out (size - 1) c else Some out);
  Some out.

Definition RangeItem_print (w : RangeItem) (size : Z) : option (list Z) :=
  if decide (size ≤ 0) then Some []
  else bracketed (ri_name w) (Py.str (current w)) (ri_enter w) size.

Definition RangeItem_action (w : RangeItem) (action : Z) : Z * RangeItem :=
  if decide (action = ON_ENTER) then
    (action, {| ri_name := ri_name w; min := min w; max := max w;
                current := current w; ri_enter := true |})
  else if decide (action = ON_LEAVE) then
    (action, {| ri_name := ri_name w; min := min w; max := max w;
                current := current w; ri_enter := false |})
  else if decide (action = RIGHT) then
    if decide (current w < max w) then
      (action, {| ri_name := ri_name w; min := min w; max := max w;
                  current := current w + 1; ri_enter := ri_enter w |})
    else (action, w)
  else if decide (action = LEFT) then
    if decide (current w > min w) then
      (action, {| ri_name := ri_name w; min := min w; max := max w;
                  current := current w - 1; ri_enter := ri_enter w |})
    else (action, w)
  else (action, w).

(** *** EnumItem *)

Record EnumItem := {
  ei_name : list Z;
  positions : list (list Z);
  pos : Z;
  ei_enter : bool
}.

(** [EnumItem.__post_init__]: a [ValueError] for no position at all. *)
Definition EnumItem_new (name : list Z) (positions : list (list Z)) : option EnumItem :=
  if decide (positions = []) then None
  else Some {| ei_name := name; positions := positions; pos := 0; ei_enter := false |}.

Definition EnumItem_print (w : EnumItem) (size : Z) : option (list Z) :=
  if decide (size ≤ 0) then Some []
  else
    value ← Py.getitem (positions w) (pos w);
    bracketed (ei_name w) value (ei_enter w) size.

Definition EnumItem_action (w : EnumItem) (action : Z) : option (Z * EnumItem) :=
  if decide (action = ON_ENTER) then
    Some (action, {| ei_name := ei_name w; positions := positions w;
                     pos := pos w; ei_enter := true |})
  else if decide (action = ON_LEAVE) then
    Some (action, {| ei_name := ei_name w; positions := positions w;
                     pos := pos w; ei_enter := false |})
  else if decide (action = RIGHT) then
    p ← Py.mod_ (pos w + 1) (Z.of_nat (length (positions w)));
    Some (action, {| ei_name := ei_name w; positions := positions w;
                     pos := p; ei_enter := ei_enter w |})
  else if decide (action = LEFT) then
    p ← Py.mod_ (pos w - 1) (Z.of_nat (length (positions w)));
    Some (action, {| ei_name := ei_name w; positions := positions w;
                     pos := p; ei_enter := ei_enter w |})
  else Some (action, w).

(** *** TimeItem *)

Record TimeItem := {
  h : Z;
  m : Z;
  s : Z;
  it : Z;
  ti_enter : bool
}.

Definition TimeItem_print (w : TimeItem) (size : Z) : list Z :=
  let it := if ti_enter w then it w else 255 in
  let seg (i v : Z) :=
    let seg := Py.format_02d v in
    if decide (it = i) then [60] ++ seg ++ [62] else seg in
  _fit (seg 0 (h w) ++ [58] ++ seg 1 (m w) ++ [58] ++ seg 2 (s w)) size Py.SPACE.

Definition TimeItem_action (w : TimeItem) (action : Z) : Z * TimeItem :=
  if decide (action = ON_ENTER) then
    (action, {| h := h w; m := m w; s := s w; it := it w; ti_enter := true |})
  else if decide (action = ON_LEAVE) then
    (action, {| h := h w; m := m w; s := s w; it := it w; ti_enter := false |})
  else if decide (action = OK) then
    (action, {| h := h w; m := m w; s := s w; it := (it w + 1) `mod` 3;
                ti_enter := ti_enter w |})
  else if decide (action = RIGHT) then
    if decide (it w = 0) then
      (action, {| h := (h w + 1) `mod` 24; m := m w; s := s w; it := it w;
                  ti_enter := ti_enter w |})
    else if decide (it w = 1) then
      (action, {| h := h w; m := (m w + 1) `mod` 60; s := s w; it := it w;
                  ti_enter := ti_enter w |})
    else
      (action, {| h := h w; m := m w; s := (s w + 1) `mod` 60; it := it w;
                  ti_enter := ti_enter w |})
  else (action, w).

(** *** NameItem, InputItem, Ok *)

Record NameItem := {
  ni_index : Z;
  get_name : Z → Z → list Z
}.

Definition NameItem_print (w : NameItem) (size : Z) : list Z :=
  _fit (get_name w size (ni_index w)) size Py.SPACE.

Record InputItem := {
  ii_name : list Z;
  ii_pin : Z
}.

Definition InputItem_print (w : InputItem) (size : Z) : list Z :=
  if decide (size < 4) then []
  else
    let base := _fit (ii_name w) size Py.SPACE in
    let base := Py.prefix base (Z.max 0 (size - 3)) in
    let base := _fit base (size - 3) Py.SPACE in
    base ++ [40] ++ [Py.SPACE] ++ [41].

Record Ok := {
  has_commit : bool;     (* commit is not None *)
  ok_index : Z;
  ok_enter : bool
}.

(** "Save" *)
Definition Ok_print (size : Z) : list Z := _fit [83; 97; 118; 101] size Py.SPACE.

Definition Ok_action (w : Ok) (action : Z) : Z * Ok * list effect :=
  if decide (action = ON_ENTER) then
    (action, {| has_commit := has_commit w; ok_index := ok_index w; ok_enter := true |}, [])
  else if decide (action = ON_LEAVE) then
    (action, {| has_commit := has_commit w; ok_index := ok_index w; ok_enter := false |}, [])
  else if decide (action = OK) then
    (BREAK, w, if has_commit w then [commit (ok_index w)] else [])
  else (action, w, []).

(** *** The interface of a line *)

(** [LineInh], the protocol of whatever a [Line] wraps. [submenu] tells
    whether the line exposes a menu; [submenu_action] and [submenu_render]
    are [menu_action] and [render] of the menu it exposes, with the line as
    it is afterwards. *)
Class LineInh (W : Type) := {
  print : W → Z → option (list Z);
  action : W → Z → option (Z * W * list effect);
  submenu : W → bool;
  grab : W → bool;
  submenu_action : W → Z → option (Z * W * list effect);
  submenu_render : W → Z → Z → option (list (list Z))
}.

(** [Line.print] *)
Definition Line_print `{LineInh W} (line : W) (size : Z) : option (list Z) :=
  text ← print line size; Some (_fit text size Py.SPACE).

(** The widgets of widgets.py. *)
Inductive Widget :=
| a_Space
| a_SwitchItem (w : SwitchItem)
| an_Edit (w : Edit)
| a_Switch (w : Switch)
| a_RangeItem (w : RangeItem)
| an_EnumItem (w : EnumItem)
| a_TimeItem (w : TimeItem)
| a_NameItem (w : NameItem)
| an_InputItem (w : InputItem)
| an_Ok (w : Ok).

Definition Widget_print (w : Widget) (size : Z) : option (list Z) :=
  match w with
  | a_Space => Some (Space_print size)
  | a_SwitchItem w => Some (SwitchItem_print w size)
  | an_Edit w => Edit_print w size
  | a_Switch w => Switch_print w size
  | a_RangeItem w => RangeItem_print w size
  | an_EnumItem w => EnumItem_print w size
  | a_TimeItem w => Some (TimeItem_print w size)
  | a_NameItem w => Some (NameItem_print w size)
  | an_InputItem w => Some (InputItem_print w size)
  | an_Ok w => Some (Ok_print size)
  end.

Definition Widget_action (w : Widget) (action : Z)
    : option (Z * Widget * list effect) :=
  match w with
  | a_Space => Some (NONE, w, [])
  | a_SwitchItem x =>
      let '(rv, x) := SwitchItem_action x action in Some (rv, a_SwitchItem x, [])
  | an_Edit x => '(rv, x) ← Edit_action x action; Some (rv, an_Edit x, [])
  | a_Switch x => '(rv, x) ← Switch_action x action; Some (rv, a_Switch x, [])
  | a_RangeItem x =>
      let '(rv, x) := RangeItem_action x action in Some (rv, a_RangeItem x, [])
  | an_EnumItem x => '(rv, x) ← EnumItem_action x action; Some (rv, an_EnumItem x, [])
  | a_TimeItem x =>
      let '(rv, x) := TimeItem_action x action in Some (rv, a_TimeItem x, [])
  | a_NameItem _ => Some (NONE, w, [])
  | an_InputItem _ => Some (NONE, w, [])
  | an_Ok x => let '(rv, x, log) := Ok_action x action in Some (rv, an_Ok x, log)
  end.

Definition Widget_grab (w : Widget) : bool :=
  match w with
  | a_Switch x => bool_decide (edit x ≠ None)
  | _ => false
  end.

(** The widgets that never grab the input and whose [action] cannot raise:
    all but [Edit], [Switch] and [EnumItem]. *)
Definition Widget_calm (w : Widget) : Prop :=
  match w with
  | an_Edit _ | a_Switch _ | an_EnumItem _ => False
  | _ => True
  end.

#[export]
Instance Widget_LineInh : LineInh Widget := {|
  print := Widget_print;
  action := Widget_action;
  submenu := λ _, false;
  grab := Widget_grab;
  submenu_action := λ _ _, None;
  submenu_render := λ _ _ _, None
|}.

(** *** Menu *)

(** A menu over lines of type [W]. [sub] is the index of the line whose
    menu is open: the object [self.sub] is the menu that line exposes.
    [has_event] tells whether [event] is not None. *)
Record Menu (W : Type) := {
  name : list Z;
  has_event : bool;
  lines : list W;
  child_it : Z;
  cur_line : Z;
  sub : option nat;
  _last_rows : Z
}.
Arguments name {W} _.
Arguments has_event {W} _.
Arguments lines {W} _.
Arguments child_it {W} _.
Arguments cur_line {W} _.
Arguments sub {W} _.
Arguments _last_rows {W} _.

Definition with_lines {W} (ls : list W) (self : Menu W) : Menu W :=
  {| name := name self; has_event := has_event self; lines := ls;
     child_it := child_it self; cur_line := cur_line self; sub := sub self;
     _last_rows := _last_rows self |}.

Definition with_child_it {W} (i : Z) (self : Menu W) : Menu W :=
  {| name := name self; has_event := has_event self; lines := lines self;
     child_it := i; cur_line := cur_line self; sub := sub self;
     _last_rows := _last_rows self |}.

Definition with_cur_line {W} (i : Z) (self : Menu W) : Menu W :=
  {| name := name self; has_event := has_event self; lines := lines self;
     child_it := child_it self; cur_line := i; sub := sub self;
     _last_rows := _last_rows self |}.

Definition with_sub {W} (o : option nat) (self : Menu W) : Menu W :=
  {| name := name self; has_event := has_event self; lines := lines self;
     child_it := child_it self; cur_line := cur_line self; sub := o;
     _last_rows := _last_rows self |}.

Definition _rows_hint {W} (self : Menu W) : Z := Z.max 1 (_last_rows self).

Definition set_rows_hint {W} (rows : Z) (self : Menu W) : Menu W :=
  {| name := name self; has_event := has_event self; lines := lines self;
     child_it := child_it self; cur_line := cur_line self; sub := sub self;
     _last_rows := Z.max 1 rows |}.

Definition add_line {W} (line : W) (self : Menu W) : Menu W :=
  with_lines (lines self ++ [line]) self.

(** [self.lines[k].action(a)] for the line at position [k]: the value it
    returns, the menu with the line as it is afterwards, the callbacks. *)
Definition act `{LineInh W} (k : nat) (a : Z) (self : Menu W)
    : option (Z * Menu W * list effect) :=
  line ← lines self !! k;
  '(rv, line, log) ← action line a;
  Some (rv, with_lines (<[k := line]> (lines self)) self, log).

(** [self.event(self, action, self.child_it)] when there is one. *)
Definition fire {W} (self : Menu W) (a : Z) : list effect :=
  if has_event self then [event (name self) a (child_it self)] else [].

Definition menu_action `{LineInh W} (self : Menu W) (a : Z)
    : option (Z * Menu W * list effect) :=
  match sub self with
  | Some j =>
      line ← lines self !! j;
      '(rv, line, log) ← submenu_action line a;
      let self := with_lines (<[j := line]> (lines self)) self in
      if decide (rv = BREAK) then Some (NONE, with_sub None self, log)
      else Some (a, self, log)
  | None =>
      if decide (lines self = []) then Some (NONE, self, [])
      else
        k ← Py.index (lines self) (child_it self);
        current ← lines self !! k;
        (* each branch: the value of an early return if any, the menu, the callbacks *)
        '(early, self, log) ←
          (if decide (a = NONE) then Some (None, self, [])
           else if decide (a = DOWN) then
             if grab current then Some (None, self, [])
             else
               '(_, self, log1) ← act k ON_LEAVE self;
               it ← Py.mod_ (child_it self + 1) (Z.of_nat (length (lines self)));
               let self := with_child_it it self in
               k' ← Py.index (lines self) (child_it self);
               '(_, self, log2) ← act k' ON_ENTER self;
               let self :=
                 if decide (cur_line self < 1000000
                            ∧ cur_line self < _rows_hint self - 1
                            ∧ cur_line self < Z.of_nat (length (lines self)) - 1)
                 then with_cur_line (cur_line self + 1) self else self in
               Some (None, self, log1 ++ log2)
           else if decide (a = UP) then
             if grab current then Some (None, self, [])
             else
               '(_, self, log1) ← act k ON_LEAVE self;
               let self :=
                 if decide (child_it self > 0) then with_child_it (child_it self - 1) self
                 else with_child_it (Z.of_nat (length (lines self)) - 1) self in
               k' ← Py.index (lines self) (child_it self);
               '(_, self, log2) ← act k' ON_ENTER self;
               let self :=
                 if decide (cur_line self > 0) then with_cur_line (cur_line self - 1) self
                 else self in
               Some (None, self, log1 ++ log2)
           else if decide (a = RIGHT ∨ a = LEFT ∨ a = ON_ENTER ∨ a = ON_LEAVE) then
             if submenu current then Some (None, self, [])
             else '(_, self, log) ← act k a self; Some (None, self, log)
           else if decide (a = OK) then
             if submenu current then
               let self := with_sub (Some k) self in
               '(_, self, log) ← act k ON_ENTER self;
               Some (None, self, log)
             else
               let self := with_sub None self in
               '(rv, self, log) ← act k a self;
               Some (Some rv, self, log)
           else
             if negb (submenu current) || grab current then
               '(_, self, log) ← act k a self; Some (None, self, log)
             else Some (None, with_sub None self, []));
        Some (match early with Some rv => rv | None => a end,
              self, log ++ fire self a)
  end.

(** The row [i] of [render]. *)
Definition render_row `{LineInh W} (self : Menu W) (cols i : Z) : option (list Z) :=
  let n := Z.of_nat (length (lines self)) in
  let prefix := [Py.SPACE; Py.SPACE] in
  let body := Py.ljust [] (Z.max 0 (cols - 2)) in
  '(prefix, body) ←
    (if decide (i < n) then
       idx ← Py.mod_ (child_it self + i + n - cur_line self) n;
       line ← Py.getitem (lines self) idx;
       body ← Line_print line (cols - 2);
       Some (if decide (i = cur_line self) then [62; Py.SPACE] else prefix, body)
     else Some (prefix, body));
  Some (_fit (prefix ++ body) cols Py.SPACE).

Definition render `{LineInh W} (self : Menu W) (cols rows : Z)
    : option (list (list Z)) :=
  if decide (cols ≤ 0 ∨ rows ≤ 0) then Some []
  else
    match sub self with
    | Some j => line ← lines self !! j; submenu_render line cols rows
    | None => mapM (render_row self cols) (Py.range 0 rows)
    end.

(** A menu is a line too: it prints its name, acts as [menu_action], and
    exposes itself as its submenu. *)
#[export]
Instance Menu_LineInh `{LineInh W} : LineInh (Menu W) := {|
  print := λ self _, Some (name self);
  action := menu_action;
  submenu := λ _, true;
  grab := λ _, false;
  submenu_action := menu_action;
  submenu_render := render
|}.

(** Lines of two kinds in one menu. *)
#[export]
Instance sum_LineInh `{LineInh A, LineInh B} : LineInh (A + B) := {|
  print := λ w size, match w with inl x => print x size | inr y => print y size end;
  action := λ w a,
    match w with
    | inl x => '(rv, x, log) ← action x a; Some (rv, inl x, log)
    | inr y => '(rv, y, log) ← action y a; Some (rv, inr y, log)
    end;
  submenu := λ w, match w with inl x => submenu x | inr y => submenu y end;
  grab := λ w, match w with inl x => grab x | inr y => grab y end;
  submenu_action := λ w a,
    match w with
    | inl x => '(rv, x, log) ← submenu_action x a; Some (rv, inl x, log)
    | inr y => '(rv, y, log) ← submenu_action y a; Some (rv, inr y, log)
    end;
  submenu_render := λ w cols rows,
    match w with
    | inl x => submenu_render x cols rows
    | inr y => submenu_render y cols rows
    end
|}.

End Menu.

(** * Facts about the Python operations *)

Section py_facts.
Context {A : Type}.
Implicit Types (l : list A) (i : Z) (x : A).

Lemma index_nonneg l i :
  0 ≤ i < Z.of_nat (length l) → Py.index l i = Some (Z.to_nat i).
Proof. intros H. unfold Py.index. by rewrite decide_True. Qed.

Lemma index_lt l i k : Py.index l i = Some k → (k < length l)%nat.
Proof.
  unfold Py.index. repeat case_decide; intros; simplify_eq; lia.
Qed.

Lemma getitem_nonneg l i :
  0 ≤ i → Py.getitem l i = l !! Z.to_nat i.
Proof.
  intros H. unfold Py.getitem, Py.index.
  destruct (decide (0 ≤ i < Z.of_nat (length l))); simpl; [done|].
  rewrite decide_False by lia. simpl.
  symmetry. apply lookup_ge_None. lia.
Qed.

Lemma setitem_nonneg l i x :
  0 ≤ i < Z.of_nat (length l) → Py.setitem l i x = Some (<[Z.to_nat i := x]> l).
Proof. intros H. unfold Py.setitem. by rewrite index_nonneg. Qed.

Lemma setitem_length l i x l' :
  Py.setitem l i x = Some l' → length l' = length l.
Proof.
  unfold Py.setitem. destruct (Py.index l i); simpl; [|done].
  intros [= <-]. apply length_insert.
Qed.

Lemma enumerate_cons x l :
  Py.enumerate (x :: l) = (0, x) :: zip (seqZ 1 (Z.of_nat (length l))) l.
Proof.
  unfold Py.enumerate. simpl length.
  rewrite seqZ_cons by lia. simpl. do 3 f_equal. lia.
Qed.

End py_facts.

(** A loop that stores [text] from position [start + a] on. *)
Lemma store_loop (text : list Z) : ∀ (start a : Z) (b : list Z),
  0 ≤ start + a →
  start + a + Z.of_nat (length text) ≤ Z.of_nat (length b) →
  ∃ b', Py.for_ (zip (seqZ a (Z.of_nat (length text))) text)
                (λ '(i, ch) b, Py.setitem b (start + i) ch) b = Some b'
        ∧ length b' = length b
        ∧ ∀ k : nat,
            b' !! k = if decide (start + a ≤ Z.of_nat k < start + a + Z.of_nat (length text))
                      then text !! Z.to_nat (Z.of_nat k - (start + a))
                      else b !! k.
Proof.
  induction text as [|ch text IH]; intros start a b H0 Hlen.
  - exists b. simpl. split_and!; [done..|].
    intros k. rewrite decide_False by (simpl; lia). done.
  - simpl length in *. rewrite seqZ_cons by lia. simpl.
    rewrite setitem_nonneg by lia. simpl.
    replace (Z.pred (Z.of_nat (S (length text)))) with (Z.of_nat (length text)) by lia.
    destruct (IH start (Z.succ a) (<[Z.to_nat (start + a) := ch]> b))
      as (b' & Hrun & Hlen' & Hget).
    { lia. } { rewrite length_insert. lia. }
    exists b'. split_and!; [done| by rewrite Hlen', length_insert |].
    intros k. rewrite Hget. clear Hget Hrun IH.
    destruct (decide (Z.of_nat k = start + a)) as [Hk|Hk].
    + rewrite decide_False by lia. rewrite decide_True by lia.
      replace (Z.to_nat (Z.of_nat k - (start + a))) with 0%nat by lia. simpl.
      replace k with (Z.to_nat (start + a)) by lia.
      apply list_lookup_insert_eq. lia.
    + rewrite list_lookup_insert_ne by lia.
      repeat case_decide; try lia; try done.
      replace (Z.to_nat (Z.of_nat k - (start + a)))
        with (S (Z.to_nat (Z.of_nat k - (start + Z.succ a)))) by lia.
      done.
Qed.

(** * The buffered screen *)

Section buffered_screen.
Import Lcds.

Lemma set_buf_id s : set_buf (_buf s) s = s.
Proof. by destruct s. Qed.

Lemma prefix_nonneg {A} (l : list A) n : 0 ≤ n → Py.prefix l n = take (Z.to_nat n) l.
Proof. intros. unfold Py.prefix. by rewrite decide_True. Qed.

(** One call: it succeeds on a buffer of the size of the geometry, changes
    the buffer only, and the buffer only on the cells [written]. *)
Lemma write_at_cells (s : LCDS) (col row : Z) (text : list Z) :
  Z.of_nat (length (_buf s)) = cols (_cfg s) * rows (_cfg s) →
  ∃ b', write_at col row text s = Some (set_buf b' s)
        ∧ length b' = length (_buf s)
        ∧ ∀ k : nat,
            b' !! k = if decide (written (_cfg s) col row text (Z.of_nat k))
                      then text !! Z.to_nat (Z.of_nat k - (row * cols (_cfg s) + Z.max 0 col))
                      else _buf s !! k.
Proof.
  intros Hsize. unfold write_at, written.
  remember (cols (_cfg s)) as C eqn:EC. remember (rows (_cfg s)) as R eqn:ER.
  destruct (decide (row < 0 ∨ row >= R)) as [Hr|Hr].
  { exists (_buf s). rewrite set_buf_id. split_and!; [done..|].
    intros k. rewrite decide_False; [done|]. lia. }
  assert (Hc : (if decide (col < 0) then 0 else col) = Z.max 0 col)
    by (case_decide; lia).
  rewrite Hc. clear Hc. remember (Z.max 0 col) as c eqn:Ec.
  destruct (decide (c >= C)) as [Hcc|Hcc].
  { exists (_buf s). rewrite set_buf_id. split_and!; [done..|].
    intros k. rewrite decide_False; [done|]. lia. }
  destruct (decide (text = [])) as [->|Hne].
  { exists (_buf s). rewrite set_buf_id. split_and!; [done..|].
    intros k. rewrite decide_False; [done|]. simpl. lia. }
  rewrite prefix_nonneg by lia.
  unfold Py.enumerate.
  assert (Hc0 : 0 ≤ c) by lia.
  assert (Hr' : 0 ≤ row ∧ row + 1 ≤ R) by lia.
  assert (HC : 0 < C) by lia.
  assert (Hrows : row * C + C ≤ C * R)
    by (transitivity (C * (row + 1)); [lia | apply Z.mul_le_mono_nonneg_l; lia]).
  assert (Hrow0 : 0 ≤ row * C) by (apply Z.mul_nonneg_nonneg; lia).
  destruct (store_loop (take (Z.to_nat (C - c)) text) (row * C + c) 0 (_buf s))
    as (b' & Hrun & Hlen & Hget).
  { lia. } { rewrite length_take. lia. }
  exists b'. rewrite Hrun. simpl. split_and!; [done..|].
  intros k. rewrite Hget. rewrite length_take.
  replace (row * C + c + 0) with (row * C + c) by lia.
  repeat case_decide; try lia; [|done].
  by rewrite lookup_take_lt by lia.
Qed.

Lemma written_same_row cfg col row text k :
  written cfg col row text k → k `div` cols cfg = row.
Proof.
  unfold written. intros [Hr Hk].
  assert (0 < cols cfg) by lia.
  symmetry. apply (Z.div_unique_pos k (cols cfg) row (k - row * cols cfg)); lia.
Qed.

(** C9. For any sequence of [write_at] calls on a buffer of the size of the
    geometry, all calls return, and a cell that lies in the written range
    of none of them keeps its character; the ranges are those of [written]:
    on the row named, from the column (0 for a negative one) to the end of
    the text or of the row, and empty for a row out of range. Nothing but
    the buffer changes. *)
Theorem write_at_frame (s : LCDS) (calls : list (Z * Z * list Z)) :
  Z.of_nat (length (_buf s)) = cols (_cfg s) * rows (_cfg s) →
  ∃ s', Py.for_ calls (λ '(col, row, text), write_at col row text) s = Some s'
        ∧ s' = set_buf (_buf s') s
        ∧ length (_buf s') = length (_buf s)
        ∧ ∀ k : nat,
            (∀ col row text, (col, row, text) ∈ calls →
               ¬ written (_cfg s) col row text (Z.of_nat k)) →
            _buf s' !! k = _buf s !! k.
Proof.
  revert s. induction calls as [|[[col row] text] calls IH]; intros s Hsize.
  - exists s. simpl. split_and!; [done|by rewrite set_buf_id|done..].
  - destruct (write_at_cells s col row text Hsize) as (b1 & Hw & Hl1 & Hg1).
    destruct (IH (set_buf b1 s)) as (s' & Hrun & Hs' & Hl' & Hg').
    { simpl. by rewrite Hl1. }
    exists s'. simpl. rewrite Hw. simpl. split_and!.
    + done.
    + rewrite Hs' at 1. done.
    + rewrite Hl'. done.
    + intros k Hk. rewrite Hg'.
      * simpl. rewrite Hg1. rewrite decide_False; [done|].
        apply Hk. left.
      * intros col' row' text' Hin. simpl. apply Hk. by right.
Qed.

(** A loop that stores [x] in the cells [a], [a+1], ... ([n] of them). *)
Lemma fill_loop (x : Z) (n : nat) : ∀ (a : Z) (b : list Z),
  0 ≤ a → a + Z.of_nat n ≤ Z.of_nat (length b) →
  ∃ b', Py.for_ (seqZ a (Z.of_nat n)) (λ i b, Py.setitem b i x) b = Some b'
        ∧ length b' = length b
        ∧ ∀ k : nat,
            b' !! k = if decide (a ≤ Z.of_nat k < a + Z.of_nat n) then Some x
                      else b !! k.
Proof.
  induction n as [|n IH]; intros a b Ha Hlen.
  - exists b. simpl. split_and!; [done..|].
    intros k. by rewrite decide_False by lia.
  - rewrite seqZ_cons by lia. simpl.
    rewrite setitem_nonneg by lia. simpl.
    replace (Z.pred (Z.of_nat (S n))) with (Z.of_nat n) by lia.
    destruct (IH (Z.succ a) (<[Z.to_nat a := x]> b)) as (b' & Hrun & Hl & Hg).
    { lia. } { rewrite length_insert. lia. }
    exists b'. split_and!; [done|by rewrite Hl, length_insert|].
    intros k. rewrite Hg.
    destruct (decide (Z.of_nat k = a)) as [Hk|Hk].
    + rewrite decide_False by lia. rewrite decide_True by lia.
      replace k with (Z.to_nat a) by lia.
      apply list_lookup_insert_eq. lia.
    + rewrite list_lookup_insert_ne by lia.
      repeat case_decide; try lia; done.
Qed.

Lemma clear_line_cells (s : LCDS) (row : Z) :
  1 ≤ cols (_cfg s) → 
  Z.of_nat (length (_buf s)) = cols (_cfg s) * rows (_cfg s) →
  0 ≤ row < rows (_cfg s) →
  ∃ b', clear_line row s = Some (set_buf b' s)
        ∧ length b' = length (_buf s)
        ∧ ∀ k : nat,
            b' !! k = if decide (row * cols (_cfg s) ≤ Z.of_nat k
                                 < row * cols (_cfg s) + cols (_cfg s))
                      then Some Py.SPACE else _buf s !! k.
Proof.
  intros HC Hsize Hrow. unfold clear_line, Py.range.
  replace (Z.max 0 (Z.min (rows (_cfg s) - 1) row)) with row by lia.
  remember (cols (_cfg s)) as C eqn:EC. remember (rows (_cfg s)) as R eqn:ER.
  assert (Hrows : row * C + C ≤ C * R)
    by (transitivity (C * (row + 1)); [lia | apply Z.mul_le_mono_nonneg_l; lia]).
  assert (Hrow0 : 0 ≤ row * C) by (apply Z.mul_nonneg_nonneg; lia).
  destruct (fill_loop Py.SPACE (Z.to_nat C) (row * C) (_buf s))
    as (b' & Hrun & Hl & Hg); [lia..|].
  exists b'.
  replace (row * C + C - row * C) with (Z.of_nat (Z.to_nat C)) by lia.
  rewrite Hrun. simpl. split_and!; [done..|].
  intros k. rewrite Hg. repeat case_decide; try lia; done.
Qed.

Lemma breaks_snoc pre ch :
  breaks (pre ++ [ch]) = breaks pre + (if decide (ch = Py.NEWLINE) then 1 else 0).
Proof.
  unfold breaks. rewrite filter_app, length_app.
  rewrite filter_cons, filter_nil. case_decide; simpl; lia.
Qed.

Lemma since_break_snoc pre ch :
  since_break (pre ++ [ch])
  = if decide (ch = Py.NEWLINE) then 0 else since_break pre + 1.
Proof.
  unfold since_break. rewrite reverse_snoc. simpl. case_decide; lia.
Qed.

Lemma puts_line_at_range cfg line0 pre :
  1 ≤ rows cfg → 0 ≤ puts_line_at cfg line0 pre < rows cfg.
Proof. intros. unfold puts_line_at. apply Z.mod_pos_bound. lia. Qed.

Lemma puts_col_at_range cfg pre :
  1 ≤ cols cfg → 0 ≤ puts_col_at cfg pre < cols cfg.
Proof. intros. unfold puts_col_at. apply Z.mod_pos_bound. lia. Qed.

Lemma puts_cell_range cfg line0 pre :
  1 ≤ cols cfg → 1 ≤ rows cfg →
  0 ≤ puts_cell cfg line0 pre < cols cfg * rows cfg.
Proof.
  intros HC HR. unfold puts_cell.
  pose proof (puts_line_at_range cfg line0 pre HR) as Hl.
  pose proof (puts_col_at_range cfg pre HC) as Hc.
  remember (puts_line_at cfg line0 pre) as L.
  remember (puts_col_at cfg pre) as K.
  remember (cols cfg) as C. remember (rows cfg) as R.
  assert (L * C + C ≤ C * R)
    by (transitivity (C * (L + 1)); [lia | apply Z.mul_le_mono_nonneg_l; lia]).
  assert (0 ≤ L * C) by (apply Z.mul_nonneg_nonneg; lia).
  lia.
Qed.

Lemma puts_line_at_snoc cfg line0 pre ch :
  1 ≤ rows cfg →
  puts_line_at cfg line0 (pre ++ [ch])
  = if decide (ch = Py.NEWLINE) then (puts_line_at cfg line0 pre + 1) `mod` rows cfg
    else puts_line_at cfg line0 pre.
Proof.
  intros HR. unfold puts_line_at. rewrite breaks_snoc.
  case_decide.
  - rewrite Z.add_mod_idemp_l by lia. f_equal. lia.
  - f_equal. lia.
Qed.

Lemma puts_col_at_snoc cfg pre ch :
  1 ≤ cols cfg →
  puts_col_at cfg (pre ++ [ch])
  = if decide (ch = Py.NEWLINE) then 0
    else (puts_col_at cfg pre + 1) `mod` cols cfg.
Proof.
  intros HC. unfold puts_col_at. rewrite since_break_snoc.
  case_decide.
  - apply Z.mod_0_l. lia.
  - by rewrite Z.add_mod_idemp_l by lia.
Qed.

Lemma puts_loop cfg line0 (post : list Z) : ∀ (pre : list Z) (b : list Z),
  1 ≤ cols cfg → 1 ≤ rows cfg →
  Z.of_nat (length b) = cols cfg * rows cfg →
  ∃ b', Py.for_ post (puts_body cfg)
                (b, puts_line_at cfg line0 pre, puts_col_at cfg pre)
        = Some (b', puts_line_at cfg line0 (pre ++ post),
                    puts_col_at cfg (pre ++ post))
    ∧ length b' = length b
    ∧ (∀ k : nat,
         (∀ p1 c p2, post = p1 ++ c :: p2 → c ≠ Py.NEWLINE →
            puts_cell cfg line0 (pre ++ p1) ≠ Z.of_nat k) →
         b' !! k = b !! k)
    ∧ (∀ p1 c p2, post = p1 ++ c :: p2 → c ≠ Py.NEWLINE →
         (∀ q1 c' q2, p2 = q1 ++ c' :: q2 → c' ≠ Py.NEWLINE →
            puts_cell cfg line0 (pre ++ p1 ++ c :: q1)
            ≠ puts_cell cfg line0 (pre ++ p1)) →
         b' !! Z.to_nat (puts_cell cfg line0 (pre ++ p1)) = Some c).
Proof.
  induction post as [|ch post IH]; intros pre b HC HR Hsize.
  - exists b. simpl. rewrite app_nil_r. split_and!; [done..| |].
    + done.
    + intros p1 c p2 Hnil. by destruct p1.
  - cbn [Py.for_].
    assert (Hstep :
      puts_body cfg ch (b, puts_line_at cfg line0 pre, puts_col_at cfg pre)
      = Some (if decide (ch = Py.NEWLINE) then b
              else <[Z.to_nat (puts_cell cfg line0 pre) := ch]> b,
              puts_line_at cfg line0 (pre ++ [ch]),
              puts_col_at cfg (pre ++ [ch]))).
    { rewrite puts_line_at_snoc, puts_col_at_snoc by done.
      unfold puts_body, Py.mod_.
      destruct (decide (ch = Py.NEWLINE)) as [Hnl|Hnl].
      - by rewrite decide_False by lia.
      - pose proof (puts_cell_range cfg line0 pre HC HR) as Hcell.
        unfold puts_cell in Hcell |- *.
        rewrite setitem_nonneg by lia. simpl.
        by rewrite decide_False by lia. }
    rewrite Hstep. cbn [mbind option_bind].
    set (b1 := if decide (ch = Py.NEWLINE) then b
               else <[Z.to_nat (puts_cell cfg line0 pre) := ch]> b).
    assert (Hl1 : length b1 = length b).
    { subst b1. case_decide; [done|]. apply length_insert. }
    destruct (IH (pre ++ [ch]) b1 HC HR) as (b' & Hrun & Hl & Hframe & Hlast).
    { by rewrite Hl1. }
    exists b'. rewrite Hrun. rewrite <- (assoc_L (++) pre [ch] post). simpl.
    split_and!.
    + done.
    + by rewrite Hl, Hl1.
    + intros k Hk. rewrite Hframe.
      * subst b1. case_decide as Hnl; [done|].
        apply list_lookup_insert_ne.
        specialize (Hk [] ch post eq_refl Hnl). rewrite app_nil_r in Hk.
        pose proof (puts_cell_range cfg line0 pre HC HR). lia.
      * intros p1 c p2 -> Hc. rewrite <- (assoc_L (++)). simpl.
        by apply (Hk (ch :: p1) c p2).
    + intros p1 c p2 Hsplit Hc Hlater.
      destruct p1 as [|c1 p1]; simpl in Hsplit; simplify_eq.
      * rewrite app_nil_r in *. rewrite Hframe.
        -- subst b1. rewrite decide_False by done.
           apply list_lookup_insert_eq.
           pose proof (puts_cell_range cfg line0 pre HC HR). lia.
        -- intros q1 c' q2 -> Hc'. rewrite <- (assoc_L (++)). simpl.
           specialize (Hlater q1 c' q2 eq_refl Hc'). simpl in Hlater.
           pose proof (puts_cell_range cfg line0 pre HC HR).
           pose proof (puts_cell_range cfg line0 (pre ++ c :: q1) HC HR).
           lia.
      * specialize (Hlast p1 c p2 eq_refl Hc).
        rewrite <- !(assoc_L (++)) in Hlast. simpl in Hlast.
        apply Hlast. intros q1 c' q2 -> Hc'.
        specialize (Hlater q1 c' q2 eq_refl Hc'). simpl in Hlater.
        rewrite <- (assoc_L (++)). done.
Qed.

Lemma puts_cell_start cfg line0 :
  1 ≤ cols cfg → 0 ≤ line0 < rows cfg →
  puts_cell cfg line0 [] = line0 * cols cfg.
Proof.
  intros HC HL. unfold puts_cell, puts_line_at, puts_col_at, breaks, since_break.
  simpl. rewrite ?Z.add_0_r, ?Z.mod_0_l, ?Z.mod_small by lia. lia.
Qed.

Lemma puts_col_after_break cfg pre :
  1 ≤ cols cfg → puts_col_at cfg (pre ++ [Py.NEWLINE]) = 0.
Proof. intros. rewrite puts_col_at_snoc by done. by rewrite decide_True. Qed.

(** [puts] cell by cell: where each character of the text lands, and what
    the cells hold on which none lands. *)
Lemma puts_cells (s : LCDS) (text : list Z) :
  screen_ok s →
  puts [] s = Some s
  ∧ (text ≠ [] →
     ∃ s', puts text s = Some s'
       ∧ s' = set_puts_line (puts_line_at (_cfg s) (_puts_line s) text)
                            (set_buf (_buf s') s)
       ∧ length (_buf s') = length (_buf s)
       ∧ puts_cell (_cfg s) (_puts_line s) [] = _puts_line s * cols (_cfg s)
       ∧ (∀ pre ch post,
            text = pre ++ ch :: post → ch ≠ Py.NEWLINE →
            (∀ q c r, post = q ++ c :: r → c ≠ Py.NEWLINE →
               puts_cell (_cfg s) (_puts_line s) (pre ++ ch :: q)
               ≠ puts_cell (_cfg s) (_puts_line s) pre) →
            _buf s' !! Z.to_nat (puts_cell (_cfg s) (_puts_line s) pre) = Some ch)
       ∧ (∀ k : nat,
            (∀ pre ch post,
               text = pre ++ ch :: post → ch ≠ Py.NEWLINE →
               puts_cell (_cfg s) (_puts_line s) pre ≠ Z.of_nat k) →
            _buf s' !! k
            = if decide (_puts_line s * cols (_cfg s) ≤ Z.of_nat k
                         < _puts_line s * cols (_cfg s) + cols (_cfg s))
              then Some Py.SPACE else _buf s !! k)).
Proof.
  intros (HC & HR & Hsize & Hshadow & Hline). split; [done|].
  intros Hne. unfold puts. rewrite decide_False by done.
  destruct (clear_line_cells s (_puts_line s) HC Hsize Hline)
    as (b0 & Hclear & Hl0 & Hg0).
  rewrite Hclear. cbn [mbind option_bind].
  change (_cfg (set_buf b0 s)) with (_cfg s).
  change (_buf (set_buf b0 s)) with b0.
  assert (Hstart : (b0, _puts_line s, 0)
                   = (b0, puts_line_at (_cfg s) (_puts_line s) [],
                          puts_col_at (_cfg s) [])).
  { unfold puts_line_at, puts_col_at, breaks, since_break. simpl.
    by rewrite ?Z.add_0_r, ?Z.mod_0_l, ?Z.mod_small by lia. }
  rewrite Hstart.
  destruct (puts_loop (_cfg s) (_puts_line s) text [] b0 HC HR)
    as (b' & Hrun & Hl & Hframe & Hlast).
  { by rewrite Hl0. }
  rewrite Hrun. cbn [mbind option_bind]. simpl app.
  eexists. split; [done|]. simpl. split_and!.
  - done.
  - by rewrite Hl, Hl0.
  - by apply puts_cell_start.
  - intros pre ch post -> Hch Hlater. by apply (Hlast pre ch post).
  - intros k Hk. rewrite Hframe, Hg0; [done|].
    intros p1 c p2 -> Hc. by apply (Hk p1 c p2).
Qed.

(** C4, as the code has it. With an empty text [puts] returns at once and
    changes nothing. With any other text, on a screen of at least one cell
    each way: the call returns; only the buffer and the remembered line
    change; the remembered line becomes the entry line moved on by the
    line breaks of the text; the character that follows a part [pre] of
    the text lands on the cell [puts_cell] of [pre] (row: entry line plus
    the breaks before, wrapping; column: characters since the last break,
    wrapping within the row; column 0 at the start), and stays there
    unless a later character of the same call lands on the same cell; a
    cell on which no character lands is blank when it lies on the entry
    line, and keeps its character on every other row. *)
Theorem puts_line_oriented (s : LCDS) (text : list Z) :
  screen_ok s →
  puts [] s = Some s
  ∧ (text ≠ [] →
     ∃ s', puts text s = Some s'
       ∧ s' = set_puts_line (puts_line_at (_cfg s) (_puts_line s) text)
                            (set_buf (_buf s') s)
       ∧ length (_buf s') = length (_buf s)
       ∧ puts_cell (_cfg s) (_puts_line s) [] = _puts_line s * cols (_cfg s)
       ∧ (∀ pre ch post,
            text = pre ++ ch :: post → ch ≠ Py.NEWLINE →
            (∀ q c r, post = q ++ c :: r → c ≠ Py.NEWLINE →
               puts_cell (_cfg s) (_puts_line s) (pre ++ ch :: q)
               ≠ puts_cell (_cfg s) (_puts_line s) pre) →
            _buf s' !! Z.to_nat (puts_cell (_cfg s) (_puts_line s) pre) = Some ch)
       ∧ (∀ k : nat,
            (∀ pre ch post,
               text = pre ++ ch :: post → ch ≠ Py.NEWLINE →
               puts_cell (_cfg s) (_puts_line s) pre ≠ Z.of_nat k) →
            _buf s' !! k
            = if decide (_puts_line s * cols (_cfg s) ≤ Z.of_nat k
                         < _puts_line s * cols (_cfg s) + cols (_cfg s))
              then Some Py.SPACE else _buf s !! k)).
Proof. exact (puts_cells s text). Qed.

(** C4 does not hold for the empty text: on a 16x2 screen whose line 0
    holds an X, [puts] of the empty string leaves the X in place
    (the entry line is 0 and is not cleared). *)
Lemma puts_empty_clears_nothing :
  (s0 ← __init__ {| cols := 16; rows := 2; use_dynamic_chars := true |};
   s1 ← write_at 0 0 [88] s0;
   s2 ← puts [] s1;
   Some (_puts_line s1, _buf s2 !! 0%nat))
  = Some (0, Some 88).
Proof. vm_compute. reflexivity. Qed.

(** ** Bits of the used-slot mask *)

Lemma bit_nonneg v : 0 ≤ v → bit v = Some (2 ^ v).
Proof.
  intros. unfold bit. rewrite decide_False by lia. by rewrite Z.shiftl_1_l.
Qed.

Lemma testbit_pow2 v k : 0 ≤ v → Z.testbit (2 ^ v) k = bool_decide (k = v).
Proof.
  intros Hv. rewrite Z.pow2_bits_eqb by done.
  case_bool_decide; lia.
Qed.

Lemma land_pow2_zero m v :
  0 ≤ v → Z.land m (2 ^ v) = 0 ↔ Z.testbit m v = false.
Proof.
  intros Hv. split.
  - intros H0. apply (f_equal (λ x, Z.testbit x v)) in H0.
    rewrite Z.land_spec, testbit_pow2, bool_decide_true in H0 by done.
    rewrite Z.bits_0 in H0. by rewrite andb_true_r in H0.
  - intros Hb. apply Z.bits_inj'. intros k Hk.
    rewrite Z.land_spec, testbit_pow2, Z.bits_0 by done.
    case_bool_decide; subst; [by rewrite Hb|by rewrite andb_false_r].
Qed.

Lemma testbit_set m v k :
  0 ≤ v → Z.testbit (Z.lor m (2 ^ v)) k = Z.testbit m k || bool_decide (k = v).
Proof. intros. by rewrite Z.lor_spec, testbit_pow2. Qed.

Lemma testbit_unset m v k :
  0 ≤ v →
  Z.testbit (Z.land m (Z.lnot (2 ^ v))) k = Z.testbit m k && negb (bool_decide (k = v)).
Proof.
  intros Hv. destruct (decide (0 ≤ k)) as [Hk|Hk].
  - by rewrite Z.land_spec, Z.lnot_spec, testbit_pow2.
  - rewrite !Z.testbit_neg_r by lia. done.
Qed.

Lemma testbit_255 k : Z.testbit 0xFF k = bool_decide (0 ≤ k < 8).
Proof.
  change 0xFF with (Z.ones 8).
  destruct (decide (0 ≤ k)) as [Hk|Hk].
  - rewrite Z.testbit_ones_nonneg by lia.
    case_bool_decide; lia.
  - rewrite Z.testbit_neg_r by lia. case_bool_decide; lia.
Qed.

(** A mask within the eight slots that is not full has a clear bit. *)
Lemma mask_free_slot m :
  (∀ k, Z.testbit m k = true → 0 ≤ k < 8) → m ≠ 0xFF →
  ∃ v, 0 ≤ v < 8 ∧ Z.testbit m v = false.
Proof.
  intros Hrange Hne.
  destruct (decide (Forall (λ v, Z.testbit m v = true) (seqZ 0 8))) as [Hall|Hex].
  - exfalso. apply Hne. apply Z.bits_inj'. intros k Hk.
    rewrite testbit_255. case_bool_decide as Hk8.
    + rewrite Forall_forall in Hall. apply Hall.
      apply elem_of_seqZ. lia.
    + destruct (Z.testbit m k) eqn:Hb; [|done].
      apply Hrange in Hb. lia.
  - apply not_Forall_Exists in Hex; [|apply _].
    apply Exists_exists in Hex as (v & Hin & Hv).
    apply elem_of_seqZ in Hin. exists v. split; [lia|].
    by apply not_true_is_false.
Qed.

(** ** The glyph cache, step by step *)

Lemma set_dyn_id s :
  set_dyn (_dyn_char_to_slot s) (_dyn_slot_to_char s) (_dyn_used_mask s)
          (_dyn_rotate_index s) s = s.
Proof. by destruct s. Qed.

Lemma refreshed_id s :
  refreshed (_lcd s) (_shadow s) (_dyn_char_to_slot s) (_dyn_slot_to_char s)
            (_dyn_used_mask s) (_dyn_rotate_index s) s = s.
Proof. by destruct s. Qed.

Lemma set_lcd_nil s : set_lcd (λ l, l ++ []) s = s.
Proof. destruct s. unfold set_lcd. simpl. by rewrite app_nil_r. Qed.

(** The first element of a list with a decidable property. *)
Lemma first_with {A} (P : A → Prop) `{∀ x, Decision (P x)} (l : list A) :
  Exists P l →
  ∃ pre v post, l = pre ++ v :: post ∧ Forall (λ x, ¬ P x) pre ∧ P v.
Proof.
  induction l as [|x l IH]; intros Hex; [by apply Exists_nil in Hex|].
  destruct (decide (P x)) as [Hx|Hx].
  - exists [], x, l. by split_and!.
  - apply Exists_cons in Hex as [?|Hex]; [done|].
    destruct (IH Hex) as (pre & v & post & -> & Hpre & Hv).
    exists (x :: pre), v, post. split_and!; [done| |done].
    by constructor.
Qed.

(** Aging: nothing when the mask is not full; else the bit of the rotation
    index goes and the index moves on. *)
Lemma age_spec s :
  0 ≤ _dyn_rotate_index s →
  _age_dynamic_mask_if_full s
  = Some (if decide (_dyn_used_mask s = 0xFF)
          then set_dyn (_dyn_char_to_slot s) (_dyn_slot_to_char s)
                 (Z.land (_dyn_used_mask s) (Z.lnot (2 ^ _dyn_rotate_index s)))
                 ((_dyn_rotate_index s + 1) `mod` 8) s
          else s).
Proof.
  intros Hrot. unfold _age_dynamic_mask_if_full.
  case_decide; [|done]. by rewrite bit_nonneg.
Qed.

Lemma age_ok s :
  cache_ok s →
  ∃ mask rot,
    _age_dynamic_mask_if_full s
    = Some (refreshed (_lcd s) (_shadow s) (_dyn_char_to_slot s)
                      (_dyn_slot_to_char s) mask rot s)
    ∧ cache_ok (refreshed (_lcd s) (_shadow s) (_dyn_char_to_slot s)
                          (_dyn_slot_to_char s) mask rot s)
    ∧ mask ≠ 0xFF.
Proof.
  intros Hok. pose proof Hok as (Hlen & Hrot & Hmirror & Hbits).
  rewrite age_spec by lia.
  case_decide as Hfull.
  - eexists _, _. split; [reflexivity|]. split.
    + unfold cache_ok, maps_mirror in *.
      split_and!; simpl; [done|apply Z.mod_pos_bound; lia..|done|].
      intros slot. rewrite testbit_unset by lia.
      intros [Hb _]%andb_true_iff. by apply Hbits.
    + intros Heq.
      apply (f_equal (λ m, Z.testbit m (_dyn_rotate_index s))) in Heq.
      rewrite testbit_unset, testbit_255 in Heq by lia.
      rewrite (bool_decide_true (_ = _)), (bool_decide_true (_ ∧ _)) in Heq by lia.
      by rewrite andb_false_r in Heq.
  - exists (_dyn_used_mask s), (_dyn_rotate_index s).
    rewrite refreshed_id. by split_and!.
Qed.

(** The scan gives the first slot whose bit is clear. *)
Lemma alloc_scan_first (pre post : list Z) (v ch : Z) (s : LCDS) dyn :
  Forall (λ x, 0 ≤ x ∧ Z.testbit (_dyn_used_mask s) x = true) pre →
  0 ≤ v < Z.of_nat (length (_dyn_slot_to_char s)) →
  Z.testbit (_dyn_used_mask s) v = false →
  _dyn_charset s !! ch = Some dyn →
  alloc_scan (pre ++ v :: post) ch s
  = Some (Some (v, true),
          set_lcd (λ l, l ++ [create_char v (pattern dyn)]) (give_slot v ch s)).
Proof.
  intros Hpre Hv Hfree Hdyn.
  induction Hpre as [|x pre [Hx Hbit] _ IH]; simpl.
  - rewrite bit_nonneg by lia. simpl.
    rewrite decide_True by (apply land_pow2_zero; [lia|done]).
    rewrite getitem_nonneg by lia.
    destruct (_dyn_slot_to_char s !! Z.to_nat v) as [old|] eqn:Hold; simpl.
    2:{ apply lookup_ge_None in Hold. lia. }
    rewrite setitem_nonneg by lia. simpl.
    rewrite Hdyn. unfold give_slot. rewrite Hold. simpl. done.
  - rewrite bit_nonneg by lia. simpl.
    rewrite decide_False; [done|].
    rewrite land_pow2_zero by lia. by rewrite Hbit.
Qed.

(** Giving away a slot whose bit is clear, to a character not yet mapped,
    keeps the cache in order. *)
Lemma give_slot_ok (v ch : Z) (s : LCDS) :
  cache_ok s → 0 ≤ v < 8 →
  _dyn_char_to_slot s !! ch = None →
  cache_ok (give_slot v ch s).
Proof.
  intros (Hlen & Hrot & Hmirror & Hbits) Hv Hnew.
  unfold give_slot, cache_ok, maps_mirror in *.
  assert (Hnoslot : ∀ sl, 0 ≤ sl < 8 →
            _dyn_slot_to_char s !! Z.to_nat sl ≠ Some (Some ch)).
  { intros sl Hsl Hch. specialize (Hmirror ch sl).
    destruct Hmirror as [_ Hm]. rewrite Hm in Hnew; done. }
  destruct (_dyn_slot_to_char s !! Z.to_nat v) as [old|] eqn:Hold.
  2:{ apply lookup_ge_None in Hold. lia. }
  refine (conj _ (conj _ (conj _ _))); simpl.
  - by rewrite length_insert.
  - done.
  - intros c sl. simpl.
    destruct (decide (c = ch)) as [->|Hc].
    + rewrite (lookup_insert_eq _ ch). split.
      * intros [= <-]. split; [done|].
        apply list_lookup_insert_eq. lia.
      * intros [Hsl Hs2c]. destruct (decide (sl = v)) as [->|Hne]; [done|].
        rewrite list_lookup_insert_ne in Hs2c by lia.
        by apply Hnoslot in Hs2c.
    + rewrite lookup_insert_ne by done.
      destruct (decide (sl = v)) as [->|Hne].
      * rewrite list_lookup_insert_eq by lia. split.
        -- intros Hl. exfalso.
           assert (Hc2s : _dyn_char_to_slot s !! c = Some v).
           { destruct old as [o|]; simpl in Hl; [|done].
             apply lookup_delete_Some in Hl as [_ ?]. done. }
           apply Hmirror in Hc2s as [_ Hc2s]. rewrite Hold in Hc2s.
           simplify_eq. simpl in Hl. by rewrite lookup_delete_eq in Hl.
        -- intros [_ ?]. simplify_eq.
      * split.
        -- intros Hl.
           assert (Hc2s : _dyn_char_to_slot s !! c = Some sl).
           { destruct old as [o|]; simpl in Hl; [|done].
             apply lookup_delete_Some in Hl as [_ ?]. done. }
           apply Hmirror in Hc2s as [Hsl Hc2s]. split; [done|].
           by rewrite list_lookup_insert_ne by lia.
        -- intros [Hsl Hl]. rewrite list_lookup_insert_ne in Hl by lia.
           assert (Hc2s : _dyn_char_to_slot s !! c = Some sl)
             by (by apply Hmirror).
           destruct old as [o|]; simpl; [|done].
           rewrite lookup_delete_ne; [done|].
           intros ->.
           assert (Hv' : _dyn_char_to_slot s !! c = Some v)
             by (by apply Hmirror).
           congruence.
  - intros slot. rewrite testbit_set by lia.
    intros [Hb|Hb%bool_decide_eq_true]%orb_true_iff.
    + destruct (Hbits slot Hb) as [Hr [c Hc]]. split; [done|].
      destruct (decide (slot = v)) as [->|Hne].
      * exists ch. apply list_lookup_insert_eq. lia.
      * exists c. by rewrite list_lookup_insert_ne by lia.
    + subst. split; [done|]. exists ch. apply list_lookup_insert_eq. lia.
Qed.

Lemma cache_ok_set_lcd f s : cache_ok (set_lcd f s) ↔ cache_ok s.
Proof. done. Qed.

Lemma cache_ok_set_shadow b s : cache_ok (set_shadow b s) ↔ cache_ok s.
Proof. done. Qed.

Lemma cache_ok_set_buf b s : cache_ok (set_buf b s) ↔ cache_ok s.
Proof. done. Qed.

Lemma cache_ok_set_puts_line l s : cache_ok (set_puts_line l s) ↔ cache_ok s.
Proof. done. Qed.

(** The first slot with a clear bit, for a mask that is not full. *)
Lemma first_free_slot (mask : Z) :
  (∀ k, Z.testbit mask k = true → 0 ≤ k < 8) → mask ≠ 0xFF →
  ∃ pre v post,
    seqZ 0 8 = pre ++ v :: post
    ∧ Forall (λ x, 0 ≤ x ∧ Z.testbit mask x = true) pre
    ∧ 0 ≤ v < 8 ∧ Z.testbit mask v = false.
Proof.
  intros Hrange Hne.
  destruct (mask_free_slot mask Hrange Hne) as (v0 & Hv0 & Hfree0).
  destruct (first_with (λ v, Z.testbit mask v = false) (seqZ 0 8))
    as (pre & v & post & Hsplit & Hpre & Hv).
  { apply Exists_exists. exists v0. split; [|done]. apply elem_of_seqZ. lia. }
  exists pre, v, post. split_and!; [done| | | |done].
  - apply Forall_forall. intros x Hx. split.
    + assert (x ∈ seqZ 0 8) as Hin
        by (rewrite Hsplit; apply elem_of_app; by left).
      apply elem_of_seqZ in Hin. lia.
    + rewrite Forall_forall in Hpre. apply Hpre in Hx.
      by destruct (Z.testbit mask x).
  - assert (v ∈ seqZ 0 8) as Hin
      by (rewrite Hsplit; apply elem_of_app; right; left).
    apply elem_of_seqZ in Hin. lia.
  - assert (v ∈ seqZ 0 8) as Hin
      by (rewrite Hsplit; apply elem_of_app; right; left).
    apply elem_of_seqZ in Hin. lia.
Qed.

Lemma encode_plain_single ch :
  ∃ code, encode_plain [ch] = Some (code, false).
Proof. unfold encode_plain. case_decide; eauto. Qed.

(** Encoding a character, the mask not full: it returns, keeps the cache in
    order, and touches nothing but the cache and the driver. *)
Lemma encode_ok (ch : Z) (s : LCDS) :
  cache_ok s → _dyn_used_mask s ≠ 0xFF →
  ∃ code reset c2s s2c mask calls,
    _encode_for_lcd ch s
    = Some ((code, reset),
            refreshed (_lcd s ++ calls) (_shadow s) c2s s2c mask
                      (_dyn_rotate_index s) s)
    ∧ cache_ok (refreshed (_lcd s ++ calls) (_shadow s) c2s s2c mask
                          (_dyn_rotate_index s) s).
Proof.
  intros Hok Hnotfull. pose proof Hok as (Hlen & Hrot & Hmirror & Hbits).
  assert (Hsame : ∀ r : Z * bool,
    ∃ code reset c2s s2c mask calls,
      Some (r, s) = Some ((code, reset),
              refreshed (_lcd s ++ calls) (_shadow s) c2s s2c mask
                        (_dyn_rotate_index s) s)
      ∧ cache_ok (refreshed (_lcd s ++ calls) (_shadow s) c2s s2c mask
                            (_dyn_rotate_index s) s)).
  { intros [code reset].
    exists code, reset, (_dyn_char_to_slot s), (_dyn_slot_to_char s),
           (_dyn_used_mask s), [].
    by rewrite app_nil_r, refreshed_id. }
  unfold _encode_for_lcd.
  destruct (if use_dynamic_chars (_cfg s) then _dyn_charset s !! ch else None)
    as [dyn|] eqn:Hdyn.
  2:{ destruct (encode_plain_single ch) as [code ->]. simpl. apply Hsame. }
  assert (Hcat : _dyn_charset s !! ch = Some dyn).
  { by destruct (use_dynamic_chars (_cfg s)). }
  unfold _alloc_dynamic_slot.
  destruct (_dyn_char_to_slot s !! ch) as [existing|] eqn:Hmapped.
  { simpl. apply Hsame. }
  destruct (first_free_slot (_dyn_used_mask s)) as (pre & v & post & Hsplit & Hpre & Hv & Hfree).
  { intros k Hk. by apply Hbits. } { done. }
  unfold Py.range. replace (8 - 0) with 8 by lia. rewrite Hsplit.
  rewrite (alloc_scan_first pre post v ch s dyn) by (done || lia).
  simpl.
  eexists v, true, _, _, _, _. split; [reflexivity|].
  by apply (give_slot_ok v ch s).
Qed.

(** One turn of the loop of [flush]: it returns; it touches the driver, the
    shadow and the cache only; the shadow cell now holds the character; the
    cache stays in order; and a cell whose shadow agrees changes nothing. *)
Lemma flush_body_ok (i ch last : Z) (s : LCDS) :
  cache_ok s → 1 ≤ cols (_cfg s) →
  0 ≤ i < Z.of_nat (length (_shadow s)) →
  ∃ calls c2s s2c mask rot last',
    flush_body (i, ch) (s, last)
    = Some (refreshed (_lcd s ++ calls) (<[Z.to_nat i := ch]> (_shadow s))
                      c2s s2c mask rot s, last')
    ∧ cache_ok (refreshed (_lcd s ++ calls) (<[Z.to_nat i := ch]> (_shadow s))
                          c2s s2c mask rot s)
    ∧ (_shadow s !! Z.to_nat i = Some ch →
       calls = [] ∧ last' = last
       ∧ refreshed (_lcd s ++ calls) (<[Z.to_nat i := ch]> (_shadow s))
                   c2s s2c mask rot s = s).
Proof.
  intros Hok HC Hi. unfold flush_body.
  rewrite getitem_nonneg by lia.
  destruct (_shadow s !! Z.to_nat i) as [sh|] eqn:Hsh.
  2:{ apply lookup_ge_None in Hsh. lia. }
  simpl. destruct (decide (sh = ch)) as [->|Hne].
  { exists [], (_dyn_char_to_slot s), (_dyn_slot_to_char s),
           (_dyn_used_mask s), (_dyn_rotate_index s), last.
    rewrite app_nil_r, list_insert_id by done. rewrite refreshed_id.
    by split_and!. }
  destruct (age_ok s Hok) as (mask1 & rot1 & Hage & Hok1 & Hnotfull).
  rewrite Hage. simpl.
  rewrite setitem_nonneg by lia. simpl.
  match goal with |- context [_encode_for_lcd ch ?x] => set (s2 := x) end.
  destruct (encode_ok ch s2) as (code & reset & c2s & s2c & mask & calls & Henc & Hok3);
    [done..|].
  rewrite Henc. simpl.
  assert (Hdiv : ∀ a, Py.floordiv a (cols (_cfg s)) = Some (a `div` cols (_cfg s)))
    by (intros a; unfold Py.floordiv; by rewrite decide_False by lia).
  assert (Hmod : ∀ a, Py.mod_ a (cols (_cfg s)) = Some (a `mod` cols (_cfg s)))
    by (intros a; unfold Py.mod_; by rewrite decide_False by lia).
  repeat rewrite Hdiv. repeat rewrite Hmod. simpl.
  match goal with |- context [mbind _ ?x] => set (need := x) end.
  assert (Hneed : ∃ b : bool, need = Some b).
  { subst need. destruct reset; [by eexists|]. case_decide; by eexists. }
  destruct Hneed as [b Hb]. rewrite Hb. simpl.
  eexists (calls ++ (if b then [set_cursor (i `mod` cols (_cfg s)) (i `div` cols (_cfg s))] else [])
                 ++ [write_char code]),
          c2s, s2c, mask, rot1, i.
  split_and!.
  - destruct b; simpl; do 2 f_equal; unfold refreshed, set_lcd; simpl;
      f_equal; by rewrite <- ?(assoc_L (++)).
  - done.
  - intros ?. simplify_eq.
Qed.

(** The loop of [flush] over the cells from position [length pre] on. *)
Lemma flush_loop (suffix : list Z) : ∀ (pre : list Z) (s : LCDS) (last : Z),
  cache_ok s → 1 ≤ cols (_cfg s) →
  length (_shadow s) = (length pre + length suffix)%nat →
  ∃ calls c2s s2c mask rot last',
    Py.for_ (zip (seqZ (Z.of_nat (length pre)) (Z.of_nat (length suffix))) suffix)
            flush_body (s, last)
    = Some (refreshed (_lcd s ++ calls)
                      (take (length pre) (_shadow s) ++ suffix)
                      c2s s2c mask rot s, last')
    ∧ cache_ok (refreshed (_lcd s ++ calls)
                          (take (length pre) (_shadow s) ++ suffix)
                          c2s s2c mask rot s).
Proof.
  induction suffix as [|ch suffix IH]; intros pre s last Hok HC Hlen.
  - exists [], (_dyn_char_to_slot s), (_dyn_slot_to_char s),
           (_dyn_used_mask s), (_dyn_rotate_index s), last.
    simpl in *. rewrite !app_nil_r, take_ge by lia.
    by rewrite refreshed_id.
  - simpl length in *. rewrite seqZ_cons by lia. cbn [zip zip_with Py.for_].
    destruct (flush_body_ok (Z.of_nat (length pre)) ch last s Hok HC)
      as (calls1 & c1 & r1 & m1 & rot1 & last1 & Hbody & Hok1 & _); [lia|].
    rewrite Hbody. cbn [mbind option_bind].
    rewrite Nat2Z.id in *.
    set (s1 := refreshed (_lcd s ++ calls1) (<[length pre := ch]> (_shadow s))
                         c1 r1 m1 rot1 s) in *.
    destruct (IH (pre ++ [ch]) s1 last1 Hok1) as
      (calls2 & c2 & r2 & m2 & rot2 & last2 & Hrun & Hok2).
    { done. }
    { subst s1. simpl. rewrite length_insert, length_app. simpl. lia. }
    rewrite length_app in Hrun, Hok2. simpl length in Hrun, Hok2.
    replace (Z.succ (Z.of_nat (length pre)))
      with (Z.of_nat (length pre + 1)) by lia.
    replace (Z.pred (Z.of_nat (S (length suffix))))
      with (Z.of_nat (length suffix)) by lia.
    rewrite Hrun.
    assert (Hshadow : take (length pre + 1) (_shadow s1) ++ suffix
                      = take (length pre) (_shadow s) ++ ch :: suffix).
    { subst s1. simpl.
      replace (length pre + 1)%nat with (S (length pre)) by lia.
      rewrite (take_S_r _ _ ch) by (apply list_lookup_insert_eq; lia).
      rewrite take_insert_ge by lia.
      by rewrite <- (assoc_L (++)). }
    exists (calls1 ++ calls2), c2, r2, m2, rot2, last2.
    unfold refreshed in *. rewrite Hshadow in *. subst s1. simpl in *.
    rewrite <- (assoc_L (++)) in *. done.
Qed.

(** A refresh of a buffer that equals its shadow does nothing at all. *)
Lemma flush_loop_same (suffix : list Z) : ∀ (pre : list Z) (s : LCDS) (last : Z),
  _shadow s = pre ++ suffix →
  Py.for_ (zip (seqZ (Z.of_nat (length pre)) (Z.of_nat (length suffix))) suffix)
          flush_body (s, last)
  = Some (s, last).
Proof.
  induction suffix as [|ch suffix IH]; intros pre s last Hsh; [done|].
  simpl length. rewrite seqZ_cons by lia. cbn [zip zip_with Py.for_].
  assert (Hbody : flush_body (Z.of_nat (length pre), ch) (s, last) = Some (s, last)).
  { unfold flush_body. rewrite getitem_nonneg by lia.
    rewrite Nat2Z.id, Hsh, lookup_app_r, Nat.sub_diag by lia. simpl.
    by rewrite decide_True. }
  rewrite Hbody. cbn [mbind option_bind].
  replace (Z.succ (Z.of_nat (length pre)))
    with (Z.of_nat (length (pre ++ [ch]))) by (rewrite length_app; simpl; lia).
  replace (Z.pred (Z.of_nat (S (length suffix))))
    with (Z.of_nat (length suffix)) by lia.
  apply IH. by rewrite <- (assoc_L (++)).
Qed.

Lemma flush_same (s : LCDS) : _shadow s = _buf s → flush s = Some s.
Proof.
  intros Hsh. unfold flush, Py.enumerate.
  by rewrite (flush_loop_same (_buf s) [] s).
Qed.

(** What one refresh does, as a whole. *)
Lemma flush_ok (s : LCDS) :
  screen_ok s → cache_ok s →
  ∃ calls c2s s2c mask rot,
    flush s = Some (refreshed (_lcd s ++ calls) (_buf s) c2s s2c mask rot s)
    ∧ cache_ok (refreshed (_lcd s ++ calls) (_buf s) c2s s2c mask rot s).
Proof.
  intros (HC & HR & Hsize & Hshadow & Hline) Hok.
  destruct (flush_loop (_buf s) [] s (-10000) Hok HC)
    as (calls & c2s & s2c & mask & rot & last' & Hrun & Hok').
  { simpl. lia. }
  exists calls, c2s, s2c, mask, rot.
  unfold flush, Py.enumerate.
  change (Z.of_nat (length (@nil Z))) with 0 in Hrun.
  change (length (@nil Z)) with 0%nat in Hrun, Hok'.
  rewrite take_0 in Hrun, Hok'. rewrite Hrun. done.
Qed.

(** ** Every operation keeps the screen in order *)

Lemma default_charset_made : is_Some _default_dynamic_charset.
Proof. vm_compute. eauto. Qed.

Lemma empty_slots (k : nat) (ch : Z) :
  replicate 8 (@None Z) !! k ≠ Some (Some ch).
Proof. rewrite lookup_replicate. by intros [? _]. Qed.

Lemma init_ok (config : LCDSConfig) :
  1 ≤ cols config → 1 ≤ rows config →
  ∃ s0, __init__ config = Some s0 ∧ screen_ok s0 ∧ cache_ok s0
        ∧ _cfg s0 = config ∧ _lcd s0 = []
        ∧ _dyn_char_to_slot s0 = ∅ ∧ _dyn_slot_to_char s0 = replicate 8 None
        ∧ _dyn_used_mask s0 = 0 ∧ _dyn_rotate_index s0 = 0
        ∧ _default_dynamic_charset = Some (_dyn_charset s0).
Proof.
  intros HC HR. unfold __init__.
  destruct default_charset_made as [charset ->]. simpl.
  eexists. split; [done|].
  assert (0 < cols config * rows config) by (apply Z.mul_pos_pos; lia).
  split_and!; try done.
  - unfold screen_ok. simpl. rewrite !length_replicate. split_and!; lia.
  - unfold cache_ok, maps_mirror. simpl. split_and!; try done.
    + intros ch slot. rewrite lookup_empty. split; [done|].
      intros [_ Hl]. destruct (empty_slots _ _ Hl).
    + intros slot. by rewrite Z.bits_0.
Qed.

Lemma reset_ok (s : LCDS) : cache_ok (reset_dynamic_chars s).
Proof.
  unfold cache_ok, maps_mirror. simpl. split_and!; try done.
  - intros ch slot. rewrite lookup_empty. split; [done|].
    intros [_ Hl]. destruct (empty_slots _ _ Hl).
  - intros slot. by rewrite Z.bits_0.
Qed.

Lemma clear_ok (s : LCDS) :
  ∃ b', clear s = Some (set_buf b' s) ∧ length b' = length (_buf s).
Proof.
  unfold clear, Py.range. rewrite Z.sub_0_r.
  destruct (fill_loop Py.SPACE (length (_buf s)) 0 (_buf s)) as (b' & Hrun & Hl & _);
    [lia..|].
  exists b'. by rewrite Hrun.
Qed.

Lemma clear_line_ok (s : LCDS) (row : Z) :
  1 ≤ cols (_cfg s) → 1 ≤ rows (_cfg s) →
  Z.of_nat (length (_buf s)) = cols (_cfg s) * rows (_cfg s) →
  ∃ b', clear_line row s = Some (set_buf b' s) ∧ length b' = length (_buf s).
Proof.
  intros HC HR Hsize.
  destruct (clear_line_cells s (Z.max 0 (Z.min (rows (_cfg s) - 1) row)) HC Hsize)
    as (b' & Hrun & Hl & _); [lia|].
  exists b'. split; [|done]. rewrite <- Hrun. unfold clear_line.
  by replace (Z.max 0 (Z.min (rows (_cfg s) - 1)
                (Z.max 0 (Z.min (rows (_cfg s) - 1) row))))
    with (Z.max 0 (Z.min (rows (_cfg s) - 1) row)) by lia.
Qed.

Lemma run_op_ok (o : screen_op) (s : LCDS) :
  screen_ok s → cache_ok s →
  ∃ s', run_op o s = Some s' ∧ screen_ok s' ∧ cache_ok s'
        ∧ _cfg s' = _cfg s ∧ _dyn_charset s' = _dyn_charset s.
Proof.
  intros Hscreen Hok. pose proof Hscreen as (HC & HR & Hsize & Hshadow & Hline).
  destruct o as [|row|col row text|text| |]; simpl.
  - destruct (clear_ok s) as (b' & -> & Hl). eexists. split; [done|].
    split_and!; try done. unfold screen_ok. simpl. rewrite Hl. split_and!; (done || lia).
  - destruct (clear_line_ok s row HC HR Hsize) as (b' & -> & Hl).
    eexists. split; [done|].
    split_and!; try done. unfold screen_ok. simpl. rewrite Hl. split_and!; (done || lia).
  - destruct (write_at_cells s col row text Hsize) as (b' & -> & Hl & _).
    eexists. split; [done|].
    split_and!; try done. unfold screen_ok. simpl. rewrite Hl. split_and!; (done || lia).
  - destruct (decide (text = [])) as [->|Hne].
    { exists s. by split_and!. }
    destruct (proj2 (puts_cells s text Hscreen) Hne)
      as (s' & -> & Hs' & Hl & _).
    eexists. split; [done|]. rewrite Hs'.
    split_and!; try done. unfold screen_ok. simpl. rewrite Hl.
    split_and!; try done; by apply puts_line_at_range.
  - eexists. split; [done|]. split_and!; try done. apply reset_ok.
  - destruct (flush_ok s Hscreen Hok) as (calls & c2s & s2c & mask & rot & -> & Hok').
    eexists. split; [done|].
    split_and!; try done; unfold screen_ok; simpl; split_and!; (done || lia).
Qed.

Lemma run_ops_ok (ops : list screen_op) : ∀ s : LCDS,
  screen_ok s → cache_ok s →
  ∃ s', Py.for_ ops run_op s = Some s' ∧ screen_ok s' ∧ cache_ok s'
        ∧ _cfg s' = _cfg s ∧ _dyn_charset s' = _dyn_charset s.
Proof.
  induction ops as [|o ops IH]; intros s Hscreen Hok.
  - exists s. by split_and!.
  - destruct (run_op_ok o s Hscreen Hok) as (s1 & Hrun & Hscreen1 & Hok1 & Hcfg1 & Hcs1).
    destruct (IH s1 Hscreen1 Hok1) as (s' & Hrun' & ? & ? & Hcfg' & Hcs').
    exists s'. simpl. rewrite Hrun. simpl.
    split_and!; [done..|congruence|congruence].
Qed.

(** ** Counting the slots *)

(** The slots of the mapped characters: each once, and among the eight. *)
Lemma mapped_slots (s : LCDS) :
  maps_mirror s →
  NoDup ((map_to_list (_dyn_char_to_slot s)).*2)
  ∧ ∀ slot, slot ∈ (map_to_list (_dyn_char_to_slot s)).*2 → slot ∈ seqZ 0 8.
Proof.
  intros Hmirror. split.
  - apply NoDup_fmap_2_strong; [|apply NoDup_map_to_list].
    intros [c1 sl1] [c2 sl2] H1%elem_of_map_to_list H2%elem_of_map_to_list.
    simpl. intros <-.
    apply Hmirror in H1 as [_ H1]. apply Hmirror in H2 as [_ H2].
    congruence.
  - intros slot ([c sl] & -> & Hin%elem_of_map_to_list)%list_elem_of_fmap.
    simpl. apply Hmirror in Hin as [Hr _]. apply elem_of_seqZ. lia.
Qed.

(** ** The three ways of [_encode_for_lcd] *)

Lemma encode_not_dynamic (ch : Z) (s : LCDS) :
  (if use_dynamic_chars (_cfg s) then _dyn_charset s !! ch else None) = None →
  ∃ code, _encode_for_lcd ch s = Some ((code, false), s).
Proof.
  intros Hno. unfold _encode_for_lcd. rewrite Hno.
  destruct (encode_plain_single ch) as [code ->]. by exists code.
Qed.

Lemma encode_mapped (ch slot : Z) (s : LCDS) dyn :
  use_dynamic_chars (_cfg s) = true →
  _dyn_charset s !! ch = Some dyn →
  _dyn_char_to_slot s !! ch = Some slot →
  _encode_for_lcd ch s = Some ((slot, false), s).
Proof.
  intros Hdynamic Hcat Hmapped. unfold _encode_for_lcd, _alloc_dynamic_slot.
  by rewrite Hdynamic, Hcat, Hmapped.
Qed.

Lemma encode_new (pre post : list Z) (v ch : Z) (s : LCDS) dyn :
  use_dynamic_chars (_cfg s) = true →
  _dyn_charset s !! ch = Some dyn →
  _dyn_char_to_slot s !! ch = None →
  seqZ 0 8 = pre ++ v :: post →
  Forall (λ x, 0 ≤ x ∧ Z.testbit (_dyn_used_mask s) x = true) pre →
  0 ≤ v < Z.of_nat (length (_dyn_slot_to_char s)) →
  Z.testbit (_dyn_used_mask s) v = false →
  _encode_for_lcd ch s
  = Some ((v, true),
          set_lcd (λ l, l ++ [create_char v (pattern dyn)]) (give_slot v ch s)).
Proof.
  intros Hdynamic Hcat Hnew Hsplit Hpre Hv Hfree.
  unfold _encode_for_lcd, _alloc_dynamic_slot.
  rewrite Hdynamic, Hcat, Hnew. unfold Py.range.
  replace (8 - 0) with 8 by lia. rewrite Hsplit.
  by rewrite (alloc_scan_first pre post v ch s dyn).
Qed.


(** ** The order of first occurrence *)


(** ** Masks of the first slots *)





(** ** The first fill of the cache *)












Lemma init_filled (config : LCDSConfig) (s0 : LCDS) :
  1 ≤ cols config → 1 ≤ rows config → __init__ config = Some s0 →
  screen_ok s0 ∧ cache_ok s0 ∧ filled [] s0 ∧ _cfg s0 = config.
Proof.
  intros HC HR Hinit.
  destruct (init_ok config HC HR)
    as (s0' & Hinit' & Hscreen & Hok & Hcfg & _ & _ & Hs2c & Hmask & Hrot & _).
  rewrite Hinit in Hinit'. injection Hinit' as <-.
  split_and!; [done..| |done].
  split; [by rewrite Hs2c|]. left. by rewrite Hmask, Hrot.
Qed.

(** ** The theorems of the screen at work on a 16x2 display *)

(** A 16x2 screen after [puts] of two letters is in order. *)
Lemma greeted_screen :
  ∃ s0 s,
    __init__ {| cols := 16; rows := 2; use_dynamic_chars := true |} = Some s0
    ∧ Py.for_ [op_puts [72; 105]] run_op s0 = Some s
    ∧ screen_ok s ∧ cache_ok s.
Proof.
  destruct (init_ok {| cols := 16; rows := 2; use_dynamic_chars := true |})
    as (s0 & Hinit & Hscreen & Hok & _); [simpl; lia..|].
  destruct (run_ops_ok [op_puts [72; 105]] s0 Hscreen Hok)
    as (s & Hrun & Hscreen' & Hok' & _).
  by exists s0, s.
Qed.

(** [write_at_frame] on a 16x2 screen, for two texts, one on each row. *)
Lemma write_at_frame_witness :
  ∃ s,
    __init__ {| cols := 16; rows := 2; use_dynamic_chars := true |} = Some s
    ∧ Z.of_nat (length (_buf s)) = cols (_cfg s) * rows (_cfg s)
    ∧ ∃ s', Py.for_ [(3, 0, [72; 105]); (0, 1, [79; 75])]
                    (λ '(col, row, text), write_at col row text) s = Some s'
        ∧ s' = set_buf (_buf s') s
        ∧ length (_buf s') = length (_buf s)
        ∧ ∀ k : nat,
            (∀ col row text,
               (col, row, text) ∈ [(3, 0, [72; 105]); (0, 1, [79; 75])] →
               ¬ written (_cfg s) col row text (Z.of_nat k)) →
            _buf s' !! k = _buf s !! k.
Proof.
  destruct (init_ok {| cols := 16; rows := 2; use_dynamic_chars := true |})
    as (s & Hinit & (_ & _ & Hsize & _) & _); [simpl; lia..|].
  exists s. split; [exact Hinit|]. split; [exact Hsize|].
  exact (write_at_frame s [(3, 0, [72; 105]); (0, 1, [79; 75])] Hsize).
Defined.

(** [puts_line_oriented] on a 16x2 screen that has two letters already. *)
Lemma puts_line_oriented_witness :
  ∃ s0 s,
    __init__ {| cols := 16; rows := 2; use_dynamic_chars := true |} = Some s0
    ∧ Py.for_ [op_puts [72; 105]] run_op s0 = Some s
    ∧ screen_ok s
    ∧ puts [] s = Some s
    ∧ ∃ s', puts [79; 10; 75] s = Some s'
        ∧ _puts_line s' = puts_line_at (_cfg s) (_puts_line s) [79; 10; 75]
        ∧ length (_buf s') = length (_buf s).
Proof.
  destruct greeted_screen as (s0 & s & Hinit & Hrun & Hscreen & _).
  exists s0, s. split; [exact Hinit|]. split; [exact Hrun|]. split; [exact Hscreen|].
  destruct (puts_line_oriented s [79; 10; 75] Hscreen) as [Hempty Hputs].
  split; [exact Hempty|].
  destruct Hputs as (s' & Hrun' & Hs' & Hlen & _); [done|].
  exists s'. split; [exact Hrun'|]. split; [|exact Hlen].
  by rewrite Hs'.
Defined.

End buffered_screen.

(** * The driver *)

(** * The protocol driver *)

Lemma bit_mask_Some (bit : Z) :
  is_Some (Pins.bit_mask bit) ↔ 0 ≤ bit ≤ 7.
Proof.
  unfold Pins.bit_mask. case_decide as H.
  - split; [by intros [? ?]|done].
  - split; [intros _; lia|by eexists].
Qed.

(** C8, as the code has it. Constructing the driver returns exactly when
    each of the eight signal positions of the mapping (RS, RW, E, BL,
    D4..D7) is in 0..7, and raises otherwise; a driver it returns has
    written nothing to the bus (its device holds what it held before).
    Nothing is said of positions that coincide. *)
Theorem driver_init_checks_range (i2c : list (Z * list Z))
    (mapping : Pins.PinMapping) (config : Lcdx.HD44780Config) :
  (is_Some (Lcdx.__init__ i2c mapping config)
   ↔ Forall (λ bit, 0 ≤ bit ≤ 7) (Lcdx.signals mapping))
  ∧ (∀ d, Lcdx.__init__ i2c mapping config = Some d →
          Lcdx._i2c d = i2c ∧ Lcdx._mapping d = mapping ∧ Lcdx._cfg d = config
          ∧ Lcdx._it d = 0).
Proof.
  unfold Lcdx.__init__, Lcdx.signals. split.
  - rewrite !Forall_cons, Forall_nil. rewrite <- !bit_mask_Some.
    destruct (Pins.bit_mask (Pins.rs mapping)); simpl;
      [|split; [by intros [? ?]|by intros [[? ?] _]]].
    destruct (Pins.bit_mask (Pins.rw mapping)); simpl;
      [|split; [by intros [? ?]|by intros (_ & [? ?] & _)]].
    destruct (Pins.bit_mask (Pins.e mapping)); simpl;
      [|split; [by intros [? ?]|by intros (_ & _ & [? ?] & _)]].
    destruct (Pins.bit_mask (Pins.bl mapping)); simpl;
      [|split; [by intros [? ?]|by intros (_ & _ & _ & [? ?] & _)]].
    destruct (Pins.bit_mask (Pins.d4 mapping)); simpl;
      [|split; [by intros [? ?]|by intros (_ & _ & _ & _ & [? ?] & _)]].
    destruct (Pins.bit_mask (Pins.d5 mapping)); simpl;
      [|split; [by intros [? ?]|by intros (_ & _ & _ & _ & _ & [? ?] & _)]].
    destruct (Pins.bit_mask (Pins.d6 mapping)); simpl;
      [|split; [by intros [? ?]|by intros (_ & _ & _ & _ & _ & _ & [? ?] & _)]].
    destruct (Pins.bit_mask (Pins.d7 mapping)); simpl;
      [|split; [by intros [? ?]|by intros (_ & _ & _ & _ & _ & _ & _ & [? ?] & _)]].
    split; [intros _; by repeat split|by eexists].
  - intros d Hd.
    destruct (Pins.bit_mask (Pins.rs mapping)); simpl in Hd; [|done].
    destruct (Pins.bit_mask (Pins.rw mapping)); simpl in Hd; [|done].
    destruct (Pins.bit_mask (Pins.e mapping)); simpl in Hd; [|done].
    destruct (Pins.bit_mask (Pins.bl mapping)); simpl in Hd; [|done].
    destruct (Pins.bit_mask (Pins.d4 mapping)); simpl in Hd; [|done].
    destruct (Pins.bit_mask (Pins.d5 mapping)); simpl in Hd; [|done].
    destruct (Pins.bit_mask (Pins.d6 mapping)); simpl in Hd; [|done].
    destruct (Pins.bit_mask (Pins.d7 mapping)); simpl in Hd; [|done].
    by simplify_eq.
Qed.

(** C8 does not hold for distinctness: nothing checks that the positions are
    distinct. A mapping with all eight signals on bit 0 is accepted. *)
Lemma pins_not_checked_distinct :
  ∃ d, Lcdx.__init__ []
         {| Pins.rs := 0; Pins.rw := 0; Pins.e := 0; Pins.bl := 0;
            Pins.d4 := 0; Pins.d5 := 0; Pins.d6 := 0; Pins.d7 := 0;
            Pins.bl_active_high := true |}
         Lcdx.default_config = Some d
       ∧ ¬ NoDup (Lcdx.signals (Lcdx._mapping d)).
Proof.
  eexists. split; [reflexivity|]. simpl.
  intros Hnd. apply NoDup_cons in Hnd as [Hnotin _]. apply Hnotin. left.
Qed.

Section driver_cursor.
Import Lcdx.

(** ** The software cursor *)

(** Commands and data go to the bus only. *)
Lemma command_frame (cmd : Z) (d : HD44780_PCF8574) :
  _cfg (command cmd d) = _cfg d ∧ _row_offsets (command cmd d) = _row_offsets d
  ∧ _it (command cmd d) = _it d.
Proof. done. Qed.

Lemma write_char_frame (ch : Z) (d : HD44780_PCF8574) :
  _cfg (write_char ch d) = _cfg d ∧ _row_offsets (write_char ch d) = _row_offsets d
  ∧ _it (write_char ch d) = _it d.
Proof. done. Qed.

Lemma init_frame (d : HD44780_PCF8574) :
  _cfg (init d) = _cfg d ∧ _row_offsets (init d) = _row_offsets d
  ∧ _it (init d) = 0.
Proof.
  unfold init, set_backlight, _apply_backlight_to_state. simpl.
  by destruct (Pins.bl_active_high (_mapping d)).
Qed.

Lemma write_char_ok (ch : Z) (d : HD44780_PCF8574) :
  cursor_ok d → cursor_ok (write_char ch d).
Proof. done. Qed.

Lemma cell_in_range (C R row col : Z) :
  0 ≤ row < R → 0 ≤ col < C → 0 ≤ row * C + col < C * R.
Proof.
  intros Hr Hc.
  assert (row * C + C ≤ C * R)
    by (transitivity (C * (row + 1)); [lia | apply Z.mul_le_mono_nonneg_l; lia]).
  assert (0 ≤ row * C) by (apply Z.mul_nonneg_nonneg; lia).
  lia.
Qed.

Lemma cursor_split (C R it : Z) :
  1 ≤ C → 0 ≤ it < C * R →
  0 ≤ it `mod` C < C ∧ 0 ≤ it `div` C < R
  ∧ it `div` C * C + it `mod` C = it.
Proof.
  intros HC Hit. split_and!.
  - apply Z.mod_pos_bound. lia.
  - apply Z.mod_pos_bound. lia.
  - apply Z.div_pos; lia.
  - apply Z.div_lt_upper_bound; lia.
  - pose proof (Z.div_mod it C). lia.
Qed.

Lemma set_cursor_ok (col row : Z) (d : HD44780_PCF8574) :
  cursor_ok d →
  ∃ d', set_cursor col row d = Some d' ∧ cursor_ok d'
        ∧ _cfg d' = _cfg d
        ∧ (0 ≤ row < rows (_cfg d) → 0 ≤ col < cols (_cfg d) →
           _it d' = row * cols (_cfg d) + col).
Proof.
  intros (HC & HR & Hoff & Hit). unfold set_cursor.
  set (row1 := if decide (row < 0) then 0 else row).
  set (col1 := if decide (col < 0) then 0 else col).
  set (row2 := if decide (row1 >= rows (_cfg d)) then rows (_cfg d) - 1 else row1).
  set (col2 := if decide (col1 >= cols (_cfg d)) then cols (_cfg d) - 1 else col1).
  assert (Hrow : 0 ≤ row2 < rows (_cfg d))
    by (subst row2 row1; repeat case_decide; lia).
  assert (Hcol : 0 ≤ col2 < cols (_cfg d))
    by (subst col2 col1; repeat case_decide; lia).
  rewrite getitem_nonneg by lia.
  destruct (_row_offsets d !! Z.to_nat row2) as [off|] eqn:Hoff'.
  2:{ apply lookup_ge_None in Hoff'. lia. }
  simpl. eexists. split; [done|]. split_and!.
  - pose proof (cell_in_range _ _ _ _ Hrow Hcol).
    unfold cursor_ok. simpl. split_and!; (done || lia).
  - done.
  - intros Hr Hc. simpl. subst row2 row1 col2 col1. repeat case_decide; lia.
Qed.

Lemma curright_ok (d : HD44780_PCF8574) :
  cursor_ok d → ∃ d', curright d = Some d' ∧ cursor_ok d' ∧ _cfg d' = _cfg d.
Proof.
  intros Hok. pose proof Hok as (HC & HR & Hoff & Hit). unfold curright.
  assert (0 < cols (_cfg d) * rows (_cfg d)) by (apply Z.mul_pos_pos; lia).
  rewrite decide_False by lia. cbv zeta.
  match goal with |- context [Py.mod_ (_it ?x) _] => set (d1 := x) end.
  assert (Hcfg1 : _cfg d1 = _cfg d) by (subst d1; by case_decide).
  assert (Hok1 : cursor_ok d1).
  { subst d1. case_decide as Hge; simpl in Hge; unfold cursor_ok; simpl;
      split_and!; (done || lia). }
  clearbody d1. rewrite Hcfg1. unfold Py.mod_, Py.floordiv.
  rewrite !decide_False by lia. simpl.
  case_decide.
  - destruct (set_cursor_ok 0 (_it d1 `div` cols (_cfg d)) d1 Hok1)
      as (d' & Hd' & Hok' & Hcfg' & _).
    exists d'. split_and!; [done..|congruence].
  - exists d1. by split_and!.
Qed.

Lemma curleft_ok (d : HD44780_PCF8574) :
  cursor_ok d → ∃ d', curleft d = Some d' ∧ cursor_ok d' ∧ _cfg d' = _cfg d.
Proof.
  intros Hok. pose proof Hok as (HC & HR & Hoff & Hit). unfold curleft.
  assert (0 < cols (_cfg d) * rows (_cfg d)) by (apply Z.mul_pos_pos; lia).
  rewrite decide_False by lia. cbv zeta.
  match goal with |- context [Py.mod_ (_it ?x) _] => set (d1 := x) end.
  assert (Hcfg1 : _cfg d1 = _cfg d) by (subst d1; by case_decide).
  assert (Hok1 : cursor_ok d1).
  { subst d1. case_decide as Hge; simpl in Hge; unfold cursor_ok; simpl;
      split_and!; (done || lia). }
  clearbody d1. rewrite Hcfg1. unfold Py.mod_, Py.floordiv.
  rewrite !decide_False by lia. simpl.
  destruct (set_cursor_ok (_it d1 `mod` cols (_cfg d)) (_it d1 `div` cols (_cfg d))
              d1 Hok1) as (d' & Hd' & Hok' & Hcfg' & _).
  exists d'. split_and!; [done..|congruence].
Qed.

Lemma data_it_ok (value : Z) (d : HD44780_PCF8574) :
  cursor_ok d → ∃ d', data_it value d = Some d' ∧ cursor_ok d' ∧ _cfg d' = _cfg d.
Proof.
  intros Hok. unfold data_it.
  destruct (curright_ok (write_char value d)) as (d' & Hd' & Hok' & Hcfg'); [done|].
  exists d'. by split_and!.
Qed.

Lemma data_its_ok (bytes : list Z) : ∀ d : HD44780_PCF8574,
  cursor_ok d →
  ∃ d', Py.for_ bytes data_it d = Some d' ∧ cursor_ok d' ∧ _cfg d' = _cfg d.
Proof.
  induction bytes as [|b bytes IH]; intros d Hok.
  - exists d. by split_and!.
  - destruct (data_it_ok b d Hok) as (d1 & Hd1 & Hok1 & Hcfg1).
    destruct (IH d1 Hok1) as (d' & Hd' & Hok' & Hcfg').
    exists d'. simpl. rewrite Hd1. simpl. split_and!; [done..|congruence].
Qed.

Lemma driver_op_ok (o : driver_op) (d : HD44780_PCF8574) :
  cursor_ok d → ∃ d', run_op o d = Some d' ∧ cursor_ok d' ∧ _cfg d' = _cfg d.
Proof.
  intros Hok. pose proof Hok as (HC & HR & Hoff & Hit).
  assert (Hsize : 0 < cols (_cfg d) * rows (_cfg d)) by (apply Z.mul_pos_pos; lia).
  assert (Hzero : ∀ d', _cfg d' = _cfg d → _row_offsets d' = _row_offsets d →
                         _it d' = 0 → cursor_ok d' ∧ _cfg d' = _cfg d).
  { intros d' Hc Ho Hi. unfold cursor_ok. rewrite Hc, Ho, Hi.
    split_and!; (done || lia). }
  destruct o as [| | |col row|x y| | | | | | |value|text|]; cbn [run_op].
  - eexists. split; [reflexivity|].
    destruct (init_frame d) as (? & ? & ?). by apply Hzero.
  - eexists. split; [reflexivity|]. by apply Hzero.
  - eexists. split; [reflexivity|]. by apply Hzero.
  - destruct (set_cursor_ok col row d Hok) as (d' & ? & ? & ? & _). by exists d'.
  - unfold gotoxy. repeat case_decide; try (by exists d).
    destruct (set_cursor_ok x y d Hok) as (d' & ? & ? & ? & _). by exists d'.
  - eexists. split; [reflexivity|]. by apply Hzero.
  - unfold line2. case_decide; [by exists d|].
    eexists. split; [done|]. split; [|done].
    unfold cursor_ok. simpl. split_and!; try (done || lia).
    assert (cols (_cfg d) * 2 ≤ cols (_cfg d) * rows (_cfg d))
      by (apply Z.mul_le_mono_nonneg_l; lia).
    lia.
  - unfold up, Py.mod_, Py.floordiv. rewrite !decide_False by lia. simpl.
    case_decide; [by exists d|].
    destruct (set_cursor_ok (_it d `mod` cols (_cfg d))
                (_it d `div` cols (_cfg d) - 1) d Hok) as (d' & ? & ? & ? & _).
    by exists d'.
  - unfold down, Py.mod_, Py.floordiv. rewrite !decide_False by lia. simpl.
    case_decide; [by exists d|].
    destruct (set_cursor_ok (_it d `mod` cols (_cfg d))
                (_it d `div` cols (_cfg d) + 1) d Hok) as (d' & ? & ? & ? & _).
    by exists d'.
  - by apply curleft_ok.
  - by apply curright_ok.
  - by apply data_it_ok.
  - unfold str. case_decide; [by exists d|]. by apply data_its_ok.
  - unfold back.
    destruct (curleft_ok d Hok) as (d1 & -> & Hok1 & Hcfg1). simpl.
    destruct (curleft_ok (write_char Py.SPACE d1)) as (d' & ? & ? & Hcfg'); [done|].
    exists d'. split_and!; [done..|]. by rewrite Hcfg'.
Qed.

(** C10. A driver constructed on a geometry of at least one column and of
    one to four rows: every sequence of its cursor and writing operations
    ([init], [clear], [home], [set_cursor], [gotoxy], [line1], [line2],
    [up], [down], [curleft], [curright], [data_it], [str], [back], with any
    arguments) returns, and leaves the linear software cursor [_it] in
    [0, cols*rows). *)
Theorem cursor_stays_on_screen (i2c : list (Z * list Z)) (mapping : Pins.PinMapping)
    (config : HD44780Config) (d : HD44780_PCF8574) (ops : list driver_op) :
  __init__ i2c mapping config = Some d →
  1 ≤ cols config → 1 ≤ rows config ≤ 4 →
  ∃ d', Py.for_ ops run_op d = Some d'
        ∧ 0 ≤ _it d' < cols config * rows config.
Proof.
  intros Hinit HC HR.
  assert (Hok : cursor_ok d ∧ _cfg d = config).
  { unfold __init__ in Hinit.
    repeat (match type of Hinit with
            | context [Pins.bit_mask ?b] =>
                destruct (Pins.bit_mask b); simpl in Hinit; [|done]
            end).
    simplify_eq. unfold cursor_ok. simpl.
    assert (0 < cols config * rows config) by (apply Z.mul_pos_pos; lia).
    split_and!; (done || lia). }
  destruct Hok as [Hok Hcfg]. clear Hinit. revert d Hok Hcfg.
  induction ops as [|o ops IH]; intros d Hok Hcfg.
  - exists d. split; [done|]. destruct Hok as (_ & _ & _ & Hit). by rewrite <- Hcfg.
  - destruct (driver_op_ok o d Hok) as (d1 & Hd1 & Hok1 & Hcfg1).
    destruct (IH d1 Hok1) as (d' & Hd' & Hit'); [congruence|].
    exists d'. simpl. rewrite Hd1. simpl. done.
Qed.

(** [cursor_stays_on_screen] on the default 16x2 display, wired as
    variant A: initialisation, a text of two letters, a move down, a move
    right and a backspace. *)
Lemma cursor_stays_on_screen_witness :
  ∃ d,
    __init__ [] Pins.VARIANT_A default_config = Some d
    ∧ 1 ≤ cols default_config
    ∧ 1 ≤ rows default_config ≤ 4
    ∧ ∃ d', Py.for_ [op_init; op_str [72; 105]; op_down; op_curright; op_back]
                    run_op d = Some d'
        ∧ 0 ≤ _it d' < cols default_config * rows default_config.
Proof.
  destruct (__init__ [] Pins.VARIANT_A default_config) as [d|] eqn:Hinit;
    [|by vm_compute in Hinit].
  assert (HC : 1 ≤ cols default_config) by (simpl; lia).
  assert (HR : 1 ≤ rows default_config ≤ 4) by (simpl; lia).
  exists d. split; [reflexivity|]. split; [exact HC|]. split; [exact HR|].
  exact (cursor_stays_on_screen [] Pins.VARIANT_A default_config d
           [op_init; op_str [72; 105]; op_down; op_curright; op_back] Hinit HC HR).
Defined.

End driver_cursor.

(** * The buffered screen on its driver *)

Section screen_on_driver.
Import Lcds.

(** ** One changed cell of a refresh, in full *)

Lemma aged_frame (s : LCDS) :
  _lcd (aged s) = _lcd s ∧ _cfg (aged s) = _cfg s ∧ _buf (aged s) = _buf s
  ∧ _shadow (aged s) = _shadow s ∧ _puts_line (aged s) = _puts_line s
  ∧ _dyn_charset (aged s) = _dyn_charset s
  ∧ _dyn_char_to_slot (aged s) = _dyn_char_to_slot s
  ∧ _dyn_slot_to_char (aged s) = _dyn_slot_to_char s.
Proof. unfold aged. by case_decide. Qed.

Lemma age_aged (s : LCDS) :
  cache_ok s → _age_dynamic_mask_if_full s = Some (aged s).
Proof. intros (_ & Hrot & _). apply age_spec. lia. Qed.

Lemma aged_ok (s : LCDS) :
  cache_ok s → cache_ok (aged s) ∧ _dyn_used_mask (aged s) ≠ 0xFF.
Proof.
  intros Hok. destruct (age_ok s Hok) as (mask & rot & Hage & Hok' & Hne).
  rewrite (age_aged s Hok) in Hage. injection Hage as ->. done.
Qed.

(** The turn of the loop of [flush] on a changed cell, once the mask is
    aged and the character encoded: the cursor is set or not, and the code
    written. *)
Lemma flush_body_turn (i ch last sh code : Z) (reset : bool) (s s2 : LCDS) :
  cache_ok s →
  0 ≤ i → _shadow s !! Z.to_nat i = Some sh → sh ≠ ch →
  _encode_for_lcd ch (set_shadow (<[Z.to_nat i := ch]> (_shadow s)) (aged s))
  = Some ((code, reset), s2) →
  1 ≤ cols (_cfg s2) →
  ∃ cur,
    flush_body (i, ch) (s, last)
    = Some (set_lcd (λ l, l ++ cur ++ [write_char code]) s2, i)
    ∧ (cur = []
       ∨ cur = [set_cursor (i `mod` cols (_cfg s2)) (i `div` cols (_cfg s2))]).
Proof.
  intros Hok Hi Hsh Hne Henc HC. unfold flush_body.
  rewrite getitem_nonneg, Hsh by lia. simpl.
  rewrite decide_False by done. rewrite (age_aged s Hok). simpl.
  apply lookup_lt_Some in Hsh as Hlt.
  destruct (aged_frame s) as (_ & _ & _ & Hsh1 & _).
  rewrite Hsh1, setitem_nonneg by lia. simpl. rewrite Henc. simpl.
  assert (Hdiv : ∀ a, Py.floordiv a (cols (_cfg s2)) = Some (a `div` cols (_cfg s2)))
    by (intros a; unfold Py.floordiv; by rewrite decide_False by lia).
  assert (Hmod : ∀ a, Py.mod_ a (cols (_cfg s2)) = Some (a `mod` cols (_cfg s2)))
    by (intros a; unfold Py.mod_; by rewrite decide_False by lia).
  repeat rewrite Hdiv. repeat rewrite Hmod. simpl.
  assert (Hset : ∃ cur,
            Some (set_lcd (λ l, l ++ [write_char code])
                    (set_lcd (λ l, l ++ [set_cursor (i `mod` cols (_cfg s2))
                                                    (i `div` cols (_cfg s2))]) s2), i)
            = Some (set_lcd (λ l, l ++ cur ++ [write_char code]) s2, i)
            ∧ (cur = []
               ∨ cur = [set_cursor (i `mod` cols (_cfg s2)) (i `div` cols (_cfg s2))])).
  { eexists. split; [|by right]. do 2 f_equal.
    unfold set_lcd. simpl. f_equal. by rewrite <- (assoc_L (++)). }
  destruct reset; simpl; [exact Hset|].
  case_decide; simpl; [exact Hset|].
  case_bool_decide; simpl; [exact Hset|].
  exists []. split; [done|by left].
Qed.

(** What the turn of the loop of [flush] does on a changed cell: the mask
    is aged; then either no slot is given (the character is not one of the
    catalog in use, or it is mapped already) and the code is written, the
    cursor set before when needed; or the character takes a slot [v] whose
    bit is clear, the driver programs the glyph, sets the cursor and
    writes [v]. *)
Lemma cell_turn (i ch last : Z) (s s' : LCDS) (last' : Z) :
  cache_ok s → 1 ≤ cols (_cfg s) → 0 ≤ i →
  Py.getitem (_shadow s) i ≠ Some ch →
  flush_body (i, ch) (s, last) = Some (s', last') →
  ∃ code cur,
    (cur = []
     ∨ cur = [set_cursor (i `mod` cols (_cfg s)) (i `div` cols (_cfg s))])
    ∧ ((s' = set_lcd (λ l, l ++ cur ++ [write_char code])
               (set_shadow (<[Z.to_nat i := ch]> (_shadow s)) (aged s))
        ∧ (use_dynamic_chars (_cfg s) = true →
           is_Some (_dyn_charset s !! ch) →
           is_Some (_dyn_char_to_slot s !! ch)))
       ∨ (∃ v dyn,
            0 ≤ v < 8
            ∧ use_dynamic_chars (_cfg s) = true
            ∧ _dyn_charset s !! ch = Some dyn
            ∧ _dyn_char_to_slot s !! ch = None
            ∧ Z.testbit (_dyn_used_mask (aged s)) v = false
            ∧ s' = set_lcd (λ l, l ++ [create_char v (pattern dyn)]
                                   ++ cur ++ [write_char code])
                     (set_shadow (<[Z.to_nat i := ch]> (_shadow s))
                                 (give_slot v ch (aged s))))).
Proof.
  intros Hok HC Hi Hchanged Hbody.
  rewrite getitem_nonneg in Hchanged by done.
  destruct (_shadow s !! Z.to_nat i) as [sh|] eqn:Hsh.
  2:{ unfold flush_body in Hbody. rewrite getitem_nonneg, Hsh in Hbody by done.
      done. }
  assert (Hne : sh ≠ ch) by congruence.
  destruct (aged_frame s) as (Hlcd1 & Hcfg1 & Hbuf1 & Hsh1 & Hline1 & Hcs1 & Hc2s1 & Hs2c1).
  destruct (aged_ok s Hok) as [Hok1 Hfull1].
  set (x := set_shadow (<[Z.to_nat i := ch]> (_shadow s)) (aged s)).
  assert (Hfinish : ∀ code reset s2,
            _encode_for_lcd ch x = Some ((code, reset), s2) →
            _cfg s2 = _cfg s →
            ∃ cur, s' = set_lcd (λ l, l ++ cur ++ [write_char code]) s2
                   ∧ (cur = []
                      ∨ cur = [set_cursor (i `mod` cols (_cfg s))
                                          (i `div` cols (_cfg s))])).
  { intros code reset s2 Henc Hcfg.
    destruct (flush_body_turn i ch last sh code reset s s2 Hok Hi Hsh Hne Henc)
      as (cur & Hrun & Hcur); [by rewrite Hcfg|].
    rewrite Hrun in Hbody. exists cur. rewrite Hcfg in Hcur. by simplify_eq. }
  destruct (use_dynamic_chars (_cfg s)) eqn:Hdynamic.
  2:{ destruct (encode_not_dynamic ch x) as [code Henc].
      { simpl. by rewrite Hcfg1, Hdynamic. }
      destruct (Hfinish code false x Henc) as (cur & -> & Hcur); [by simpl|].
      exists code, cur. split; [done|]. left. by split. }
  destruct (_dyn_charset s !! ch) as [dyn|] eqn:Hcat.
  2:{ destruct (encode_not_dynamic ch x) as [code Henc].
      { simpl. by rewrite Hcfg1, Hdynamic, Hcs1, Hcat. }
      destruct (Hfinish code false x Henc) as (cur & -> & Hcur); [by simpl|].
      exists code, cur. split; [done|]. left. split; [done|].
      intros _ [? ?]. done. }
  destruct (_dyn_char_to_slot s !! ch) as [slot|] eqn:Hmap.
  { destruct (Hfinish slot false x) as (cur & -> & Hcur); [|by simpl|].
    { apply (encode_mapped ch slot x dyn); simpl.
      - by rewrite Hcfg1.
      - by rewrite Hcs1.
      - by rewrite Hc2s1. }
    exists slot, cur. split; [done|]. left. split; [done|]. by eexists. }
  pose proof Hok1 as (Hlen1 & Hrot1 & Hmirror1 & Hbits1).
  destruct (first_free_slot (_dyn_used_mask (aged s))) as
    (pre & v & post & Hsplit & Hpre & Hv & Hfree); [|done|].
  { intros k Hk. by destruct (Hbits1 k Hk). }
  destruct (Hfinish v true
              (set_lcd (λ l, l ++ [create_char v (pattern dyn)]) (give_slot v ch x)))
    as (cur & -> & Hcur); [|by simpl|].
  { apply (encode_new pre post); simpl; try done.
    - by rewrite Hcfg1.
    - by rewrite Hcs1.
    - by rewrite Hc2s1.
    - rewrite Hlen1. lia. }
  exists v, cur. split; [done|]. right. exists v, dyn.
  split_and!; [lia|lia|done..|].
  unfold set_lcd, give_slot, set_shadow, set_dyn. simpl. f_equal.
  by rewrite <- (assoc_L (++)).
Qed.

(** The calls of a changed cell are calls the driver takes. *)
Lemma cell_calls (i ch last : Z) (s s' : LCDS) (last' : Z) :
  cache_ok s → 1 ≤ cols (_cfg s) → glyphs_ok s → 0 ≤ i →
  Py.getitem (_shadow s) i ≠ Some ch →
  flush_body (i, ch) (s, last) = Some (s', last') →
  ∃ calls, _lcd s' = _lcd s ++ calls ∧ Forall call_ok calls.
Proof.
  intros Hok HC Hglyphs Hi Hchanged Hbody.
  destruct (aged_frame s) as (Hlcd1 & _).
  destruct (cell_turn i ch last s s' last' Hok HC Hi Hchanged Hbody)
    as (code & cur & Hcur & [[-> _]|(v & dyn & Hv & _ & Hcat & _ & _ & ->)]).
  - exists (cur ++ [write_char code]). simpl. rewrite Hlcd1. split; [done|].
    apply Forall_app. split; [|by repeat constructor].
    destruct Hcur as [->| ->]; by repeat constructor.
  - exists ([create_char v (pattern dyn)] ++ cur ++ [write_char code]).
    simpl. rewrite Hlcd1. split; [done|].
    apply Forall_cons. split.
    + simpl. split; [lia|]. by apply (Hglyphs ch).
    + apply Forall_app. split; [|by repeat constructor].
      destruct Hcur as [->| ->]; by repeat constructor.
Qed.


(** The slot a changed cell gives goes with its bit: the mask stays snug
    around the slots in use. *)
Lemma aged_snug (s : LCDS) : cache_ok s → snug s → snug (aged s).
Proof.
  intros (Hlen & Hrot & Hmirror & Hbits) Hsnug. unfold aged.
  case_decide as Hfull; [|done].
  right. exists (_dyn_rotate_index s). simpl. split; [done|]. split.
  - intros slot Hslot. rewrite Hfull, testbit_unset, testbit_255 by lia.
    rewrite bool_decide_eq_true_2 by done. simpl.
    by rewrite <- bool_decide_not.
  - intros slot Hslot. apply Hbits.
    rewrite Hfull, testbit_255. by apply bool_decide_eq_true.
Qed.

Lemma give_slot_snug (v ch : Z) (s : LCDS) :
  length (_dyn_slot_to_char s) = 8%nat →
  0 ≤ v < 8 → Z.testbit (_dyn_used_mask s) v = false →
  snug s → snug (give_slot v ch s).
Proof.
  intros Hlen Hv Hfree Hsnug. left. intros slot c Hslot. simpl.
  rewrite testbit_set by lia.
  destruct (decide (slot = v)) as [->|Hne].
  { intros _. rewrite bool_decide_eq_true_2 by done. apply orb_true_r. }
  rewrite list_lookup_insert_ne by lia. intros Hl.
  destruct Hsnug as [Hall|(v0 & Hv0 & Hmask & _)].
  - by rewrite (Hall slot c).
  - rewrite (Hmask v) in Hfree by done.
    apply bool_decide_eq_false in Hfree.
    assert (v = v0) as <- by (destruct (decide (v = v0)); [done|by destruct Hfree]).
    rewrite (Hmask slot) by done. by rewrite bool_decide_eq_true_2.
Qed.

Lemma cell_snug (i ch last : Z) (s s' : LCDS) (last' : Z) :
  cache_ok s → 1 ≤ cols (_cfg s) → 0 ≤ i →
  Py.getitem (_shadow s) i ≠ Some ch →
  flush_body (i, ch) (s, last) = Some (s', last') →
  snug s → snug s'.
Proof.
  intros Hok HC Hi Hchanged Hbody Hsnug.
  pose proof (aged_snug s Hok Hsnug) as Hsnug1.
  destruct (aged_ok s Hok) as [(Hlen1 & _) _].
  destruct (cell_turn i ch last s s' last' Hok HC Hi Hchanged Hbody)
    as (code & cur & _ & [[-> _]|(v & dyn & Hv & _ & _ & _ & Hfree & ->)]).
  - exact Hsnug1.
  - exact (give_slot_snug v ch (aged s) Hlen1 Hv Hfree Hsnug1).
Qed.

(** ** The states of a screen in use, and its refreshes *)

Lemma reached_ok (s0 : LCDS) (chs : list Z) (s : LCDS) :
  cache_ok s0 → 1 ≤ cols (_cfg s0) →
  reached s0 chs s →
  cache_ok s ∧ _cfg s = _cfg s0 ∧ _dyn_charset s = _dyn_charset s0.
Proof.
  intros Hok0 HC Hreached.
  induction Hreached as [|chs s b line _ IH|chs s i ch last s' last' _ IH Hi Hchanged Hbody].
  - done.
  - destruct IH as (Hok & Hcfg & Hcs). by split_and!.
  - destruct IH as (Hok & Hcfg & Hcs).
    assert (Hlt : 0 ≤ i < Z.of_nat (length (_shadow s))).
    { split; [done|]. unfold flush_body in Hbody.
      rewrite getitem_nonneg in Hbody by done.
      destruct (_shadow s !! Z.to_nat i) eqn:Hsh; [|done].
      apply lookup_lt_Some in Hsh. lia. }
    destruct (flush_body_ok i ch last s Hok) as
      (calls & c2s & s2c & mask & rot & l' & Hrun & Hok' & _); [by rewrite Hcfg|done|].
    rewrite Hrun in Hbody. injection Hbody as <- <-. by split_and!.
Qed.

Lemma reached_trans (s0 : LCDS) (l1 l2 : list Z) (sm s : LCDS) :
  reached s0 l1 sm → reached sm l2 s → reached s0 (l1 ++ l2) s.
Proof.
  intros H1 H2.
  induction H2 as [|chs s b line _ IH|chs s i ch last s' last' _ IH Hi Hchanged Hbody].
  - by rewrite app_nil_r.
  - by constructor.
  - rewrite (assoc_L (++)). by apply (reached_cell s0 _ s i ch last s' last').
Qed.

(** All the calls a screen in use has made are calls the driver takes. *)
Lemma reached_calls (s0 : LCDS) (chs : list Z) (s : LCDS) :
  cache_ok s0 → 1 ≤ cols (_cfg s0) → glyphs_ok s0 →
  reached s0 chs s →
  ∃ calls, _lcd s = _lcd s0 ++ calls ∧ Forall call_ok calls.
Proof.
  intros Hok0 HC Hglyphs Hreached.
  induction Hreached as [|chs s b line Hr IH|chs s i ch last s' last' Hr IH Hi Hchanged Hbody].
  - exists []. by rewrite app_nil_r.
  - done.
  - destruct IH as (calls & Hlcd & Hcalls).
    destruct (reached_ok s0 chs s Hok0 HC Hr) as (Hok & Hcfg & Hcs).
    destruct (cell_calls i ch last s s' last') as (more & Hlcd' & Hmore);
      try done.
    { by rewrite Hcfg. }
    { unfold glyphs_ok. rewrite Hcs. exact Hglyphs. }
    exists (calls ++ more). rewrite Hlcd', Hlcd, (assoc_L (++)).
    split; [done|]. by apply Forall_app.
Qed.

(** The mask stays snug around the slots in use. *)
Lemma reached_snug (s0 : LCDS) (chs : list Z) (s : LCDS) :
  cache_ok s0 → 1 ≤ cols (_cfg s0) → snug s0 →
  reached s0 chs s → snug s.
Proof.
  intros Hok0 HC Hsnug Hreached.
  induction Hreached as [|chs s b line Hr IH|chs s i ch last s' last' Hr IH Hi Hchanged Hbody].
  - done.
  - done.
  - destruct (reached_ok s0 chs s Hok0 HC Hr) as (Hok & Hcfg & Hcs).
    apply (cell_snug i ch last s s' last'); try done. by rewrite Hcfg.
Qed.

Lemma filter_agree {A} (P Q : A → Prop) `{∀ x, Decision (P x)}
    `{∀ x, Decision (Q x)} (l : list A) :
  Forall (λ x, P x ↔ Q x) l → filter P l = filter Q l.
Proof.
  induction 1 as [|x l Hx _ IH]; [done|].
  rewrite !filter_cons, IH. destruct Hx as [Hpq Hqp].
  destruct (decide (P x)), (decide (Q x)); try done; exfalso; auto.
Qed.

(** The loop of [flush] over cells of distinct indices: it goes through
    the states of the screen in use, and writes the characters of the
    cells that differ from the shadow it started with. *)
Lemma flush_cells_changed (s0 : LCDS) (cells : list (Z * Z)) :
  ∀ (chs : list Z) (s : LCDS) (last : Z) (s' : LCDS) (last' : Z),
  cache_ok s0 → 1 ≤ cols (_cfg s0) →
  Forall (λ c, 0 ≤ c.1) cells → NoDup (cells.*1) →
  reached s0 chs s →
  Py.for_ cells flush_body (s, last) = Some (s', last') →
  reached s0
    (chs ++ (filter (λ ich : Z * Z, Py.getitem (_shadow s) ich.1 ≠ Some ich.2)
                    cells).*2) s'.
Proof.
  induction cells as [|[i ch] cells IH];
    intros chs s last s' last' Hok0 HC Hpos Hnodup Hreached Hrun.
  - simpl in Hrun. simplify_eq. by rewrite app_nil_r.
  - apply Forall_cons in Hpos as [Hi Hpos]. simpl in Hi.
    rewrite fmap_cons in Hnodup. apply NoDup_cons in Hnodup as [Hfresh Hnodup].
    simpl in Hfresh.
    cbn [Py.for_] in Hrun.
    destruct (flush_body (i, ch) (s, last)) as [[s1 last1]|] eqn:Hbody; [|done].
    cbn [mbind option_bind] in Hrun.
    rewrite filter_cons. simpl.
    destruct (decide (Py.getitem (_shadow s) i ≠ Some ch)) as [Hchanged|Hsame].
    + destruct (reached_ok s0 chs s Hok0 HC Hreached) as (Hok & Hcfg & Hcs).
      assert (Hlt : 0 ≤ i < Z.of_nat (length (_shadow s))).
      { split; [done|]. unfold flush_body in Hbody.
        rewrite getitem_nonneg in Hbody by done.
        destruct (_shadow s !! Z.to_nat i) eqn:Hsh; [|done].
        apply lookup_lt_Some in Hsh. lia. }
      destruct (flush_body_ok i ch last s Hok) as
        (calls & c2s & s2c & mask & rot & l' & Hrun1 & _); [by rewrite Hcfg|done|].
      assert (Hshadow : _shadow s1 = <[Z.to_nat i := ch]> (_shadow s)).
      { rewrite Hrun1 in Hbody. by injection Hbody as <- _. }
      pose proof (IH (chs ++ [ch]) s1 last1 s' last' Hok0 HC Hpos Hnodup
                     (reached_cell s0 chs s i ch last s1 last1 Hreached Hi
                                   Hchanged Hbody) Hrun) as Hr.
      rewrite fmap_cons. simpl. rewrite <- (assoc_L (++)) in Hr. simpl in Hr.
      rewrite (filter_agree
                 (λ ich : Z * Z, Py.getitem (_shadow s) ich.1 ≠ Some ich.2)
                 (λ ich : Z * Z, Py.getitem (_shadow s1) ich.1 ≠ Some ich.2));
        [done|].
      apply Forall_forall. intros [j c] Hin. simpl.
      rewrite Forall_forall in Hpos. pose proof (Hpos _ Hin) as Hj. simpl in Hj.
      assert (j ≠ i).
      { intros ->. apply Hfresh. apply list_elem_of_fmap. by exists (i, c). }
      rewrite !getitem_nonneg, Hshadow by done.
      rewrite list_lookup_insert_ne by lia. done.
    + assert (Hkeep : s1 = s ∧ last1 = last).
      { unfold flush_body in Hbody.
        destruct (Py.getitem (_shadow s) i) as [sh|]; [|done]. simpl in Hbody.
        destruct (decide (sh = ch)) as [->|Hne]; [by simplify_eq|].
        destruct Hsame. congruence. }
      destruct Hkeep as [-> ->].
      by apply (IH chs s last s' last').
Qed.

(** A refresh of a screen in use writes the characters of [changed]. *)
Lemma flush_changed (s0 : LCDS) (chs : list Z) (s s' : LCDS) :
  cache_ok s0 → 1 ≤ cols (_cfg s0) →
  reached s0 chs s → flush s = Some s' →
  reached s0 (chs ++ changed s) s'.
Proof.
  intros Hok0 HC Hreached Hflush. unfold flush in Hflush.
  destruct (Py.for_ _ _ _) as [[s1 last1]|] eqn:Hrun; [|done].
  simpl in Hflush. simplify_eq.
  apply (flush_cells_changed s0 (Py.enumerate (_buf s)) chs s (-10000) s' last1);
    try done.
  - unfold Py.enumerate. apply Forall_forall.
    intros [i ch] Hin. apply elem_of_zip_l in Hin.
    apply elem_of_seqZ in Hin. simpl. lia.
  - unfold Py.enumerate. rewrite fst_zip.
    + apply NoDup_seqZ.
    + rewrite length_seqZ. lia.
Qed.

(** ** The calls of the screen, made on the driver *)

Lemma glyph_rows_ok (pat : list Z) : ∀ d : Lcdx.HD44780_PCF8574,
  Lcdx.cursor_ok d → Lcdx.cursor_ok (foldl (λ d b, Lcdx.write_char b d) d pat).
Proof.
  induction pat as [|b pat IH]; intros d Hd; [done|].
  simpl. apply IH. by apply write_char_ok.
Qed.

Lemma create_char_ok (location : Z) (pat : list Z) (d : Lcdx.HD44780_PCF8574) :
  0 ≤ location ≤ 7 → length pat = 8%nat → Lcdx.cursor_ok d →
  ∃ d', Lcdx.create_char location pat d = Some d' ∧ Lcdx.cursor_ok d'.
Proof.
  intros Hloc Hlen Hd. unfold Lcdx.create_char.
  destruct (decide (¬ 0 ≤ location ≤ 7)) as [Hno|_]; [by destruct Hno|].
  rewrite decide_False by (by intros Hne).
  eexists. split; [done|]. by apply glyph_rows_ok.
Qed.

Lemma perform_ok (c : lcd_call) (d : Lcdx.HD44780_PCF8574) :
  call_ok c → Lcdx.cursor_ok d →
  ∃ d', perform c d = Some d' ∧ Lcdx.cursor_ok d'.
Proof.
  intros Hc Hd. destruct c as [location pat|col row|code]; simpl.
  - destruct Hc as [Hloc Hlen]. by apply create_char_ok.
  - destruct (set_cursor_ok col row d Hd) as (d' & Hrun & Hd' & _).
    by exists d'.
  - eexists. split; [done|]. by apply write_char_ok.
Qed.

(** The calls the screen makes are taken by a driver of up to four rows. *)
Lemma replay_ok (calls : list lcd_call) : ∀ d : Lcdx.HD44780_PCF8574,
  Forall call_ok calls → Lcdx.cursor_ok d →
  ∃ d', Py.for_ calls perform d = Some d' ∧ Lcdx.cursor_ok d'.
Proof.
  induction calls as [|c calls IH]; intros d Hcalls Hd.
  - by exists d.
  - apply Forall_cons in Hcalls as [Hc Hcalls].
    destruct (perform_ok c d Hc Hd) as (d1 & Hrun & Hd1).
    destruct (IH d1 Hcalls Hd1) as (d' & Hrun' & Hd').
    exists d'. cbn [Py.for_]. rewrite Hrun. by simpl.
Qed.

(** A method that makes no call leaves the driver as it is. *)
Lemma on_driver_same (method : LCDS → option LCDS) (s s' : LCDS)
    (d : Lcdx.HD44780_PCF8574) :
  method s = Some s' → _lcd s' = _lcd s →
  on_driver method (s, d) = Some (s', d).
Proof.
  intros Hrun Hlcd. unfold on_driver. rewrite Hrun. simpl.
  by rewrite Hlcd, drop_all.
Qed.

(** A refresh on the driver: it returns, the screen has gone through the
    cells that changed, the shadow is the buffer. *)
Lemma flush_on_driver (s : LCDS) (d : Lcdx.HD44780_PCF8574) :
  screen_ok s → cache_ok s → glyphs_ok s → Lcdx.cursor_ok d →
  ∃ s' d',
    on_driver flush (s, d) = Some (s', d')
    ∧ flush s = Some s'
    ∧ reached s (changed s) s'
    ∧ screen_ok s' ∧ cache_ok s' ∧ Lcdx.cursor_ok d'
    ∧ _cfg s' = _cfg s ∧ _dyn_charset s' = _dyn_charset s
    ∧ _buf s' = _buf s ∧ _shadow s' = _buf s.
Proof.
  intros Hscreen Hok Hglyphs Hd.
  pose proof Hscreen as (HC & HR & Hsize & Hshadow & Hline).
  destruct (flush_ok s Hscreen Hok) as (calls0 & c2s & s2c & mask & rot & Hflush & Hok').
  pose proof (flush_changed s [] s _ Hok HC (reached_start s) Hflush) as Hreached.
  simpl in Hreached.
  destruct (reached_calls s _ _ Hok HC Hglyphs Hreached) as (calls & Hlcd & Hcalls).
  destruct (replay_ok calls d Hcalls Hd) as (d' & Hreplay & Hd').
  eexists _, d'. split_and!; [|exact Hflush|exact Hreached| |exact Hok'|exact Hd'|done..].
  - unfold on_driver. rewrite Hflush. simpl in Hlcd |- *.
    rewrite Hlcd, drop_app_length, Hreplay. done.
  - unfold screen_ok. simpl. split_and!; (done || lia).
Qed.

(** The operations that write to the buffer change the buffer and the
    remembered line, nothing else. *)
Lemma edit_op (o : screen_op) (s s' : LCDS) :
  screen_ok s → o ≠ op_reset_dynamic_chars → o ≠ op_flush →
  run_op o s = Some s' →
  ∃ b line, s' = set_puts_line line (set_buf b s).
Proof.
  intros Hscreen Hnoreset Hnoflush Hrun.
  pose proof Hscreen as (HC & HR & Hsize & Hshadow & Hline).
  destruct o as [|row|col row text|text| |]; simpl in Hrun.
  - destruct (clear_ok s) as (b' & Hc & _). rewrite Hc in Hrun.
    simplify_eq. by exists b', (_puts_line s).
  - destruct (clear_line_ok s row HC HR Hsize) as (b' & Hc & _).
    rewrite Hc in Hrun. simplify_eq. by exists b', (_puts_line s).
  - destruct (write_at_cells s col row text Hsize) as (b' & Hc & _).
    rewrite Hc in Hrun. simplify_eq. by exists b', (_puts_line s).
  - destruct (decide (text = [])) as [->|Hne].
    { rewrite (proj1 (puts_cells s [] Hscreen)) in Hrun.
      injection Hrun as <-. by exists (_buf s), (_puts_line s); destruct s. }
    destruct (proj2 (puts_cells s text Hscreen) Hne)
      as (s1 & Hp & Hs1 & _).
    rewrite Hp in Hrun. injection Hrun as <-. eauto.
  - done.
  - done.
Qed.

Lemma reset_snug (s : LCDS) : snug (reset_dynamic_chars s).
Proof. left. intros slot ch _ Hl. simpl in Hl. destruct (empty_slots _ _ Hl). Qed.

(** An operation that writes to the buffer returns, makes no call on the
    driver and keeps the screen in order. *)
Lemma edit_on_driver (o : screen_op) (s : LCDS) (d : Lcdx.HD44780_PCF8574) :
  screen_ok s → cache_ok s →
  o ≠ op_reset_dynamic_chars → o ≠ op_flush →
  ∃ b line,
    on_driver (run_op o) (s, d) = Some (set_puts_line line (set_buf b s), d)
    ∧ screen_ok (set_puts_line line (set_buf b s)).
Proof.
  intros Hscreen Hok Hnoreset Hnoflush.
  destruct (run_op_ok o s Hscreen Hok) as (s' & Hrun & Hscreen' & _).
  destruct (edit_op o s s' Hscreen Hnoreset Hnoflush Hrun) as (b & line & ->).
  exists b, line. split; [|done]. by apply on_driver_same.
Qed.

(** Every operation of the screen returns on a driver of up to four rows,
    and keeps the screen and its cache in order. *)
Lemma run_op_on_driver (o : screen_op) (s : LCDS) (d : Lcdx.HD44780_PCF8574) :
  screen_ok s → cache_ok s → snug s → glyphs_ok s → Lcdx.cursor_ok d →
  ∃ s' d',
    on_driver (run_op o) (s, d) = Some (s', d')
    ∧ screen_ok s' ∧ cache_ok s' ∧ snug s' ∧ glyphs_ok s' ∧ Lcdx.cursor_ok d'
    ∧ _cfg s' = _cfg s ∧ _dyn_charset s' = _dyn_charset s.
Proof.
  intros Hscreen Hok Hsnug Hglyphs Hd.
  pose proof Hscreen as (HC & _).
  assert (Hedit : o ≠ op_reset_dynamic_chars → o ≠ op_flush →
            ∃ s' d',
              on_driver (run_op o) (s, d) = Some (s', d')
              ∧ screen_ok s' ∧ cache_ok s' ∧ snug s' ∧ glyphs_ok s'
              ∧ Lcdx.cursor_ok d'
              ∧ _cfg s' = _cfg s ∧ _dyn_charset s' = _dyn_charset s).
  { intros Hnoreset Hnoflush.
    destruct (edit_on_driver o s d Hscreen Hok Hnoreset Hnoflush)
      as (b & line & Hrun & Hscreen').
    by exists (set_puts_line line (set_buf b s)), d. }
  destruct o as [|row|col row text|text| |]; try (by apply Hedit).
  - exists (reset_dynamic_chars s), d.
    split_and!; [by apply on_driver_same|exact Hscreen|apply reset_ok
                |apply reset_snug|exact Hglyphs|exact Hd|done|done].
  - destruct (flush_on_driver s d Hscreen Hok Hglyphs Hd)
      as (s' & d' & Hrun & _ & Hreached & Hscreen' & Hok' & Hd' & Hcfg & Hcs & _).
    exists s', d'. split_and!; try done.
    + by apply (reached_snug s (changed s) s').
    + unfold glyphs_ok. by rewrite Hcs.
Qed.

Lemma run_ops_on_driver (ops : list screen_op) :
  ∀ (s : LCDS) (d : Lcdx.HD44780_PCF8574),
  screen_ok s → cache_ok s → snug s → glyphs_ok s → Lcdx.cursor_ok d →
  ∃ s' d',
    Py.for_ ops (λ o, on_driver (run_op o)) (s, d) = Some (s', d')
    ∧ screen_ok s' ∧ cache_ok s' ∧ snug s' ∧ glyphs_ok s' ∧ Lcdx.cursor_ok d'
    ∧ _cfg s' = _cfg s ∧ _dyn_charset s' = _dyn_charset s.
Proof.
  induction ops as [|o ops IH]; intros s d Hscreen Hok Hsnug Hglyphs Hd.
  - by exists s, d.
  - destruct (run_op_on_driver o s d Hscreen Hok Hsnug Hglyphs Hd)
      as (s1 & d1 & Hrun & Hscreen1 & Hok1 & Hsnug1 & Hglyphs1 & Hd1 & Hcfg1 & Hcs1).
    destruct (IH s1 d1 Hscreen1 Hok1 Hsnug1 Hglyphs1 Hd1)
      as (s' & d' & Hrun' & Hscreen' & Hok' & Hsnug' & Hglyphs' & Hd' & Hcfg' & Hcs').
    exists s', d'. cbn [Py.for_]. rewrite Hrun. simpl.
    split_and!; try done; congruence.
Qed.

(** The patterns of the catalog have eight rows. *)
Lemma default_glyphs (cs : gmap Z DynamicCharDef) :
  _default_dynamic_charset = Some cs →
  ∀ ch dyn, cs !! ch = Some dyn → length (pattern dyn) = 8%nat.
Proof.
  unfold _default_dynamic_charset. intros Hcs ch dyn Hl.
  destruct (mapM _ charset_source) as [entries|] eqn:Hentries; [|done].
  simpl in Hcs. injection Hcs as <-.
  apply elem_of_list_to_map_2 in Hl.
  vm_compute in Hentries. injection Hentries as <-.
  repeat (apply elem_of_cons in Hl as [Hl|Hl]; [by simplify_eq|]).
  by apply elem_of_nil in Hl.
Qed.

Lemma init_on_driver (config : LCDSConfig) :
  1 ≤ cols config → 1 ≤ rows config →
  ∃ s0, __init__ config = Some s0 ∧ screen_ok s0 ∧ cache_ok s0
        ∧ snug s0 ∧ glyphs_ok s0 ∧ filled [] s0 ∧ _cfg s0 = config.
Proof.
  intros HC HR.
  destruct (init_ok config HC HR)
    as (s0 & Hinit & Hscreen & Hok & Hcfg & _ & _ & Hs2c & _ & _ & Hcs).
  destruct (init_filled config s0 HC HR Hinit) as (_ & _ & Hfilled & _).
  exists s0. split_and!; try done.
  - left. intros slot ch _ Hl. rewrite Hs2c in Hl. destruct (empty_slots _ _ Hl).
  - exact (default_glyphs _ Hcs).
Qed.

(** ** Counting the slots, exactly *)

(** The mapped characters are as many as the slots that hold one. *)
Lemma live_slots (s : LCDS) :
  length (_dyn_slot_to_char s) = 8%nat → maps_mirror s →
  size (_dyn_char_to_slot s)
  = length (filter (λ slot, is_Some (mjoin (_dyn_slot_to_char s !! Z.to_nat slot)))
                   (seqZ 0 8)).
Proof.
  intros Hlen Hmirror.
  destruct (mapped_slots s Hmirror) as [Hnodup Hrange].
  rewrite <- length_map_to_list.
  rewrite <- (length_fmap snd (map_to_list (_dyn_char_to_slot s))).
  apply Permutation_length, NoDup_Permutation; [done| |].
  { apply NoDup_filter, NoDup_seqZ. }
  intros slot. rewrite list_elem_of_filter, elem_of_seqZ. split.
  - intros ([c sl] & -> & Hin%elem_of_map_to_list)%list_elem_of_fmap.
    simpl. apply Hmirror in Hin as [Hr Hl]. rewrite Hl. simpl.
    split; [by eexists|lia].
  - intros [[c Hc] Hr].
    destruct (_dyn_slot_to_char s !! Z.to_nat slot) as [[c'|]|] eqn:Hl;
      simpl in Hc; simplify_eq.
    apply list_elem_of_fmap. exists (c, slot). split; [done|].
    apply elem_of_map_to_list. apply Hmirror. split; [lia|done].
Qed.

Lemma filter_all {A} (P : A → Prop) `{∀ x, Decision (P x)} (l : list A) :
  Forall P l → filter P l = l.
Proof.
  induction 1 as [|x l Hx _ IH]; [done|].
  by rewrite filter_cons, decide_True, IH.
Qed.

Lemma seven_slots (v : Z) :
  0 ≤ v < 8 → length (filter (λ slot, slot ≠ v) (seqZ 0 8)) = 7%nat.
Proof.
  intros Hv.
  assert (v = 0 ∨ v = 1 ∨ v = 2 ∨ v = 3 ∨ v = 4 ∨ v = 5 ∨ v = 6 ∨ v = 7)
    as Hcases by lia.
  destruct_or! Hcases; subst v; reflexivity.
Qed.

(** The counts of a cache in order whose mask is snug. *)
Lemma snug_count (s : LCDS) :
  cache_ok s → snug s →
  popcount (_dyn_used_mask s) = size (_dyn_char_to_slot s)
  ∨ (popcount (_dyn_used_mask s) = 7%nat ∧ size (_dyn_char_to_slot s) = 8%nat).
Proof.
  intros (Hlen & Hrot & Hmirror & Hbits) [Hall|(v & Hv & Hmask & Hlive)];
    rewrite (live_slots s Hlen Hmirror); unfold popcount, used_slots.
  - left. f_equal. apply filter_agree, Forall_forall.
    intros slot Hslot%elem_of_seqZ. split.
    + intros Hb. destruct (Hbits slot Hb) as [_ [ch ->]]. by eexists.
    + intros [c Hc].
      destruct (_dyn_slot_to_char s !! Z.to_nat slot) as [[c'|]|] eqn:Hl;
        simpl in Hc; simplify_eq.
      apply (Hall slot c); [lia|done].
  - right. split.
    + rewrite <- (seven_slots v Hv). f_equal. apply filter_agree, Forall_forall.
      intros slot Hslot%elem_of_seqZ. rewrite Hmask by lia.
      by rewrite bool_decide_eq_true.
    + transitivity (length (seqZ 0 8)); [|done]. f_equal.
      apply filter_all, Forall_forall.
      intros slot Hslot%elem_of_seqZ.
      destruct (Hlive slot) as [ch ->]; [lia|]. by eexists.
Qed.

Lemma snug_invariant (s : LCDS) : cache_ok s → snug s → glyph_invariant s.
Proof.
  intros Hok Hsnug. pose proof (snug_count s Hok Hsnug).
  destruct Hok as (Hlen & Hrot & Hmirror & Hbits).
  by unfold glyph_invariant.
Qed.

(** ** The refresh is idempotent *)

(** C3. A screen in order (a buffer and a shadow of the size of the
    geometry, a glyph cache as the code keeps it, a catalog of patterns of
    eight rows) on a driver of up to four rows: one [flush] returns, with
    all its calls made on the driver; it leaves the buffer as it was and
    the shadow equal to it; and a second [flush] right after returns the
    very same screen object and the very same driver object: no call is
    made on the driver (the record of calls is unchanged), no set_cursor
    and no write_char, and nothing is written on the bus. *)
Theorem flush_idempotent (s : LCDS) (d : Lcdx.HD44780_PCF8574) :
  screen_ok s → cache_ok s → glyphs_ok s → Lcdx.cursor_ok d →
  ∃ s' d',
    on_driver flush (s, d) = Some (s', d')
    ∧ _buf s' = _buf s
    ∧ _shadow s' = _buf s'
    ∧ on_driver flush (s', d') = Some (s', d').
Proof.
  intros Hscreen Hok Hglyphs Hd.
  destruct (flush_on_driver s d Hscreen Hok Hglyphs Hd)
    as (s' & d' & Hrun & _ & _ & _ & _ & _ & _ & _ & Hbuf & Hshadow).
  exists s', d'. split_and!; [done|done|congruence|].
  apply on_driver_same; [|done]. apply flush_same. congruence.
Qed.

(** The row offsets of the driver are four: on a driver of five rows the
    first refresh of a 2x5 screen raises, at the cursor move to the fifth
    row. *)
Lemma flush_raises_past_four_rows :
  ∃ s d,
    __init__ {| cols := 2; rows := 5; use_dynamic_chars := true |} = Some s
    ∧ Lcdx.__init__ [] Pins.VARIANT_A
        {| Lcdx.cols := 2; Lcdx.rows := 5; Lcdx.address_7bit := 0x3F;
           Lcdx.i2c_speed_hz := 100000 |} = Some d
    ∧ is_Some (flush s)
    ∧ on_driver flush (s, d) = None.
Proof.
  destruct (__init__ {| cols := 2; rows := 5; use_dynamic_chars := true |})
    as [s|] eqn:Hs; [|by vm_compute in Hs].
  destruct (Lcdx.__init__ [] Pins.VARIANT_A
              {| Lcdx.cols := 2; Lcdx.rows := 5; Lcdx.address_7bit := 0x3F;
                 Lcdx.i2c_speed_hz := 100000 |})
    as [d|] eqn:Hd; [|by vm_compute in Hd].
  exists s, d. split; [done|]. split; [done|].
  vm_compute in Hs. injection Hs as <-.
  vm_compute in Hd. injection Hd as <-.
  split; [eexists; vm_compute; reflexivity|]. vm_compute. reflexivity.
Qed.

(** ** The invariant of the glyph cache *)

(** C1, as the code keeps it. From [__init__] on a geometry of at least
    one cell each way, on a driver of up to four rows, every sequence of
    operations of the buffered screen ([clear], [clear_line], [write_at],
    [puts], [reset_dynamic_chars], [flush]) returns, with all its calls
    made on the driver, and after it: a character maps to a slot exactly
    when the reverse entry of that slot is the character; every bit set in
    the used-slot mask names a slot that holds a character; and the number
    of set bits is the number of mapped characters, or one less: 7 bits
    for 8 characters. *)
Theorem glyph_cache_invariant (config : LCDSConfig) (d : Lcdx.HD44780_PCF8574)
    (ops : list screen_op) :
  1 ≤ cols config → 1 ≤ rows config → Lcdx.cursor_ok d →
  ∃ s0 s d',
    __init__ config = Some s0
    ∧ Py.for_ ops (λ o, on_driver (run_op o)) (s0, d) = Some (s, d')
    ∧ glyph_invariant s.
Proof.
  intros HC HR Hd.
  destruct (init_on_driver config HC HR)
    as (s0 & Hinit & Hscreen & Hok & Hsnug & Hglyphs & _).
  destruct (run_ops_on_driver ops s0 d Hscreen Hok Hsnug Hglyphs Hd)
    as (s & d' & Hrun & _ & Hok' & Hsnug' & _).
  exists s0, s, d'. split_and!; [done..|]. by apply snug_invariant.
Qed.

Lemma glyph_count_after_eight :
  (s0 ← __init__ {| cols := 16; rows := 2; use_dynamic_chars := true |};
   s1 ← write_at 0 0 [0x105; 0x104; 0x107; 0x106; 0x119; 0x118; 0x142; 0x141] s0;
   s2 ← flush s1;
   Some (_dyn_used_mask s2, popcount (_dyn_used_mask s2),
         size (_dyn_char_to_slot s2)))
  = Some (0xFE, 7%nat, 8%nat).
Proof. vm_compute. reflexivity. Qed.

(** C1 does not hold for the count: the mask is aged (one bit cleared) on
    the next changed cell once it is full, while the eight mappings stay.
    On a 16x2 screen, eight catalog characters written on line 0 and one
    [flush]: the mask has 7 bits set (0xFE) and 8 characters are mapped, so
    the invariant of the specification does not hold after the refresh. *)
Lemma glyph_count_differs :
  ∃ s0 s1 s2,
    __init__ {| cols := 16; rows := 2; use_dynamic_chars := true |} = Some s0
    ∧ write_at 0 0 [0x105; 0x104; 0x107; 0x106; 0x119; 0x118; 0x142; 0x141] s0
      = Some s1
    ∧ flush s1 = Some s2
    ∧ ¬ glyph_invariant_claimed s2.
Proof.
  pose proof glyph_count_after_eight as H.
  destruct (__init__ _) as [s0|]; [|by cbn in H].
  cbn [mbind option_bind] in H.
  destruct (write_at _ _ _ s0) as [s1|] eqn:E1; [|by cbn in H].
  cbn [mbind option_bind] in H.
  destruct (flush s1) as [s2|] eqn:E2; [|by cbn in H].
  cbn [mbind option_bind] in H.
  exists s0, s1, s2. split_and!; [done..|].
  intros [_ Hcount]. injection H as _ Hpop Hsize. congruence.
Qed.

(** ** The theorems on a 16x2 display, wired as variant A *)

Lemma default_driver :
  ∃ d, Lcdx.__init__ [] Pins.VARIANT_A Lcdx.default_config = Some d
       ∧ Lcdx.cursor_ok d.
Proof.
  destruct (Lcdx.__init__ [] Pins.VARIANT_A Lcdx.default_config)
    as [d|] eqn:Hinit; [|by vm_compute in Hinit].
  exists d. split; [done|].
  vm_compute in Hinit. injection Hinit as <-.
  unfold Lcdx.cursor_ok. simpl. lia.
Qed.

(** A 16x2 screen after [puts] of two letters, with its driver. *)
Lemma greeted_on_driver :
  ∃ s0 s d,
    __init__ {| cols := 16; rows := 2; use_dynamic_chars := true |} = Some s0
    ∧ Py.for_ [op_puts [72; 105]] run_op s0 = Some s
    ∧ Lcdx.__init__ [] Pins.VARIANT_A Lcdx.default_config = Some d
    ∧ screen_ok s ∧ cache_ok s ∧ glyphs_ok s ∧ Lcdx.cursor_ok d.
Proof.
  destruct (init_on_driver {| cols := 16; rows := 2; use_dynamic_chars := true |})
    as (s0 & Hinit & Hscreen & Hok & _ & Hglyphs & _); [simpl; lia..|].
  destruct (run_ops_ok [op_puts [72; 105]] s0 Hscreen Hok)
    as (s & Hrun & Hscreen' & Hok' & _ & Hcs).
  destruct default_driver as (d & Hd & Hcursor).
  exists s0, s, d. split_and!; try done.
  unfold glyphs_ok. by rewrite Hcs.
Qed.

(** [flush_idempotent] on a 16x2 screen that has two letters to show. *)
Lemma flush_idempotent_witness :
  ∃ s0 s d,
    __init__ {| cols := 16; rows := 2; use_dynamic_chars := true |} = Some s0
    ∧ Py.for_ [op_puts [72; 105]] run_op s0 = Some s
    ∧ Lcdx.__init__ [] Pins.VARIANT_A Lcdx.default_config = Some d
    ∧ screen_ok s ∧ cache_ok s ∧ glyphs_ok s ∧ Lcdx.cursor_ok d
    ∧ ∃ s' d',
        on_driver flush (s, d) = Some (s', d')
        ∧ _buf s' = _buf s
        ∧ _shadow s' = _buf s'
        ∧ on_driver flush (s', d') = Some (s', d').
Proof.
  destruct greeted_on_driver
    as (s0 & s & d & Hinit & Hrun & Hd & Hscreen & Hok & Hglyphs & Hcursor).
  exists s0, s, d. split; [exact Hinit|]. split; [exact Hrun|].
  split; [exact Hd|]. split; [exact Hscreen|]. split; [exact Hok|].
  split; [exact Hglyphs|]. split; [exact Hcursor|].
  exact (flush_idempotent s d Hscreen Hok Hglyphs Hcursor).
Defined.

(** [glyph_cache_invariant] on a 16x2 screen: eight catalog characters
    written and shown, a letter shown next (the full mask is aged), the
    cache emptied, one catalog character shown again. *)
Lemma glyph_cache_invariant_witness :
  1 ≤ cols {| cols := 16; rows := 2; use_dynamic_chars := true |}
  ∧ 1 ≤ rows {| cols := 16; rows := 2; use_dynamic_chars := true |}
  ∧ ∃ d,
      Lcdx.__init__ [] Pins.VARIANT_A Lcdx.default_config = Some d
      ∧ Lcdx.cursor_ok d
      ∧ ∃ s0 s d',
          __init__ {| cols := 16; rows := 2; use_dynamic_chars := true |} = Some s0
          ∧ Py.for_ [op_write_at 0 0 [0x105; 0x104; 0x107; 0x106;
                                      0x119; 0x118; 0x142; 0x141];
                     op_flush; op_puts [72; 105]; op_flush;
                     op_reset_dynamic_chars;
                     op_write_at 0 1 [0x142]; op_flush]
                    (λ o, on_driver (run_op o)) (s0, d) = Some (s, d')
          ∧ glyph_invariant s.
Proof.
  assert (HC : 1 ≤ cols {| cols := 16; rows := 2; use_dynamic_chars := true |})
    by (simpl; lia).
  assert (HR : 1 ≤ rows {| cols := 16; rows := 2; use_dynamic_chars := true |})
    by (simpl; lia).
  split; [exact HC|]. split; [exact HR|].
  destruct default_driver as (d & Hd & Hcursor).
  exists d. split; [exact Hd|]. split; [exact Hcursor|].
  exact (glyph_cache_invariant _ d _ HC HR Hcursor).
Defined.

(** ** The glyph cache over the refreshes of a screen in use *)







End screen_on_driver.

Section menu_engine.
Import Menu.

(** * The menu engine *)

(** ** The value widgets *)

(** C7, as the code has it. On a range widget RIGHT adds one below [max]
    and LEFT takes one above [min], and neither moves a value at the bound
    (a value within the bounds stays within them). On an enumeration with
    at least one position RIGHT and LEFT move the position by one, modulo
    the number of positions. On a time widget RIGHT adds one to the field
    under edit, the hour modulo 24, the minute and the second modulo 60; OK
    moves the edit on from hour to minute to second and back to hour; and
    LEFT changes nothing. Each of these returns the action it was given and
    changes no other field. *)
Theorem value_widgets_step (r : RangeItem) (e : EnumItem) (t : TimeItem) :
  positions e ≠ [] →
  (RangeItem_action r RIGHT
   = (RIGHT, {| ri_name := ri_name r; min := min r; max := max r;
                current := if decide (current r < max r) then current r + 1
                           else current r;
                ri_enter := ri_enter r |})
   ∧ RangeItem_action r LEFT
     = (LEFT, {| ri_name := ri_name r; min := min r; max := max r;
                 current := if decide (current r > min r) then current r - 1
                            else current r;
                 ri_enter := ri_enter r |})
   ∧ (min r ≤ current r ≤ max r →
      min r ≤ current (RangeItem_action r RIGHT).2 ≤ max r
      ∧ min r ≤ current (RangeItem_action r LEFT).2 ≤ max r))
  ∧ (EnumItem_action e RIGHT
     = Some (RIGHT, {| ei_name := ei_name e; positions := positions e;
                       pos := (pos e + 1) `mod` Z.of_nat (length (positions e));
                       ei_enter := ei_enter e |})
     ∧ EnumItem_action e LEFT
       = Some (LEFT, {| ei_name := ei_name e; positions := positions e;
                        pos := (pos e - 1) `mod` Z.of_nat (length (positions e));
                        ei_enter := ei_enter e |}))
  ∧ (TimeItem_action t RIGHT
     = (RIGHT, {| h := if decide (it t = 0) then (h t + 1) `mod` 24 else h t;
                  m := if decide (it t = 1) then (m t + 1) `mod` 60 else m t;
                  s := if decide (it t = 0 ∨ it t = 1) then s t
                       else (s t + 1) `mod` 60;
                  it := it t; ti_enter := ti_enter t |})
     ∧ TimeItem_action t OK
       = (OK, {| h := h t; m := m t; s := s t; it := (it t + 1) `mod` 3;
                 ti_enter := ti_enter t |})
     ∧ TimeItem_action t LEFT = (LEFT, t)).
Proof.
  intros Hpos. split_and!.
  - unfold RangeItem_action. simpl. destruct r; simpl. by case_decide.
  - unfold RangeItem_action. simpl. destruct r; simpl. by case_decide.
  - intros Hr. unfold RangeItem_action. simpl.
    repeat case_decide; simpl; lia.
  - unfold EnumItem_action, Py.mod_. simpl.
    rewrite decide_False; [done|]. destruct (positions e); [done|]. simpl. lia.
  - unfold EnumItem_action, Py.mod_. simpl.
    rewrite decide_False; [done|]. destruct (positions e); [done|]. simpl. lia.
  - unfold TimeItem_action. simpl.
    repeat case_decide; try lia; try done; destruct t; simpl in *; by f_equal.
  - done.
  - by destruct t.
Qed.

(** C7 does not hold for the time widget: LEFT does not
    decrement the field under edit. At 05:00:00 with the hour under edit,
    LEFT leaves the hour at 5. *)
Lemma time_left_changes_nothing :
  h (TimeItem_action {| h := 5; m := 0; s := 0; it := 0; ti_enter := true |} LEFT).2
  = 5.
Proof. reflexivity. Qed.

(** ** OK on a line without submenu *)

Section ok_forwarded.
Context {W : Type} `{!LineInh W}.

Lemma with_sub_same (self : Menu W) : with_sub (sub self) self = self.
Proof. by destruct self. Qed.

(** C6, as the code has it. A menu with no submenu open, whose focused line
    exposes no submenu: OK is forwarded to that line; the menu returns what
    the line returned and keeps the line as the line left itself; and the
    observer, when there is one, is called once after the line, with the
    action and the focus index, whatever the line returned, BREAK too. *)
Theorem ok_forwarded_event_fires (self : Menu W) (k : nat) (current current' : W)
    (rv : Z) (log : list effect) :
  sub self = None →
  Py.index (lines self) (child_it self) = Some k →
  lines self !! k = Some current →
  submenu current = false →
  action current OK = Some (rv, current', log) →
  menu_action self OK
  = Some (rv, with_lines (<[k := current']> (lines self)) self,
          log ++ (if has_event self then [event (name self) OK (child_it self)]
                  else [])).
Proof.
  intros Hsub Hk Hcur Hnosub Hact. unfold menu_action. rewrite Hsub.
  rewrite decide_False by (intros Hnil; by rewrite Hnil in Hcur).
  rewrite Hk. simpl. rewrite Hcur. simpl.
  rewrite Hnosub. unfold act. simpl. rewrite Hcur. simpl. rewrite Hact. simpl.
  unfold fire, with_lines, with_sub. simpl. by rewrite Hsub.
Qed.

End ok_forwarded.

(** C6 does not hold for BREAK: the observer is called also when the
    line returns BREAK. A menu named M with an observer and the single line
    Save (an [Ok]): OK returns BREAK, and the observer was called. *)
Lemma event_fires_on_break :
  menu_action {| name := [77]; has_event := true;
                 lines := [an_Ok {| has_commit := false; ok_index := 0;
                                    ok_enter := false |}];
                 child_it := 0; cur_line := 0; sub := None; _last_rows := 2 |} OK
  = Some (BREAK,
          {| name := [77]; has_event := true;
             lines := [an_Ok {| has_commit := false; ok_index := 0;
                                ok_enter := false |}];
             child_it := 0; cur_line := 0; sub := None; _last_rows := 2 |},
          [event [77] OK 0]).
Proof. reflexivity. Qed.

(** ** Moving the focus down *)

Section focus_down.
Context {W : Type} `{!LineInh W}.

(** The lines of the menu are calm: they do not grab the input, and they
    take ON_ENTER and ON_LEAVE and stay calm. *)
Variable calm : W → Prop.
Hypothesis calm_no_grab : ∀ w, calm w → grab w = false.
Hypothesis calm_focus : ∀ w a,
  calm w → a = ON_ENTER ∨ a = ON_LEAVE →
  ∃ rv w' log, action w a = Some (rv, w', log) ∧ calm w'.

Lemma act_calm (k : nat) (a : Z) (self : Menu W) :
  Forall calm (lines self) → (k < length (lines self))%nat →
  a = ON_ENTER ∨ a = ON_LEAVE →
  ∃ rv ls log,
    act k a self = Some (rv, with_lines ls self, log)
    ∧ Forall calm ls ∧ length ls = length (lines self).
Proof.
  intros Hcalm Hk Ha. unfold act.
  destruct (lookup_lt_is_Some_2 _ _ Hk) as [line Hline].
  rewrite Hline. simpl.
  destruct (calm_focus line a) as (rv & line' & log & Hact & Hcalm');
    [by eapply Forall_lookup_1|done|].
  rewrite Hact. simpl. eexists rv, _, log. split; [done|].
  split; [by apply Forall_insert|by rewrite length_insert].
Qed.

(** One DOWN on a menu with calm lines and no submenu open. *)
Lemma down_step (self : Menu W) :
  sub self = None → Forall calm (lines self) →
  0 ≤ child_it self < Z.of_nat (length (lines self)) →
  ∃ ls log,
    menu_action self DOWN
    = Some (DOWN,
            {| name := name self; has_event := has_event self; lines := ls;
               child_it := (child_it self + 1) `mod` Z.of_nat (length (lines self));
               cur_line :=
                 if decide (cur_line self < 1000000
                            ∧ cur_line self < Z.max 1 (_last_rows self) - 1
                            ∧ cur_line self < Z.of_nat (length (lines self)) - 1)
                 then cur_line self + 1 else cur_line self;
               sub := None; _last_rows := _last_rows self |},
            log)
    ∧ Forall calm ls ∧ length ls = length (lines self).
Proof.
  intros Hsub Hcalm Hit. unfold menu_action. rewrite Hsub.
  rewrite decide_False by (intros Hnil; rewrite Hnil in Hit; simpl in Hit; lia).
  rewrite index_nonneg by done. simpl.
  destruct (lookup_lt_is_Some_2 (lines self) (Z.to_nat (child_it self)))
    as [current Hcur]; [lia|].
  rewrite Hcur. simpl.
  rewrite (calm_no_grab current) by (by eapply Forall_lookup_1).
  destruct (act_calm (Z.to_nat (child_it self)) ON_LEAVE self)
    as (rv1 & ls1 & log1 & Hact1 & Hcalm1 & Hlen1); [done|lia|by right|].
  rewrite Hact1. simpl. rewrite Hlen1.
  unfold Py.mod_. rewrite decide_False by lia. simpl.
  set (it' := (child_it self + 1) `mod` Z.of_nat (length (lines self))).
  assert (Hit' : 0 ≤ it' < Z.of_nat (length (lines self)))
    by (apply Z.mod_pos_bound; lia).
  rewrite index_nonneg by (simpl; lia). simpl.
  destruct (act_calm (Z.to_nat it') ON_ENTER
              (with_child_it it' (with_lines ls1 self)))
    as (rv2 & ls2 & log2 & Hact2 & Hcalm2 & Hlen2); [done|simpl; lia|by left|].
  rewrite Hact2. simpl. simpl in Hlen2. rewrite Hlen2, Hlen1.
  exists ls2, ((log1 ++ log2) ++
               fire {| name := name self; has_event := has_event self; lines := ls2;
                       child_it := it';
                       cur_line :=
                         if decide (cur_line self < 1000000
                                    ∧ cur_line self < Z.max 1 (_last_rows self) - 1
                                    ∧ cur_line self < Z.of_nat (length (lines self)) - 1)
                         then cur_line self + 1 else cur_line self;
                       sub := None; _last_rows := _last_rows self |} DOWN).
  split; [|split; [done|congruence]].
  unfold _rows_hint, with_cur_line, with_lines, with_child_it. simpl.
  rewrite Hsub. by case_decide.
Qed.

(** The rows of [render], first row apart. *)
Lemma render_first_row (self : Menu W) (cols rows : Z) :
  sub self = None → 0 < cols → 0 < rows →
  render self cols rows
  = (row0 ← render_row self cols 0;
     rest ← mapM (render_row self cols) (Py.range 1 rows);
     Some (row0 :: rest)).
Proof.
  intros Hsub Hcols Hrows. unfold render.
  rewrite decide_False by lia. rewrite Hsub.
  unfold Py.range. rewrite seqZ_cons by lia.
  replace (Z.pred (rows - 0)) with (rows - 1) by lia.
  replace (Z.succ 0) with 1 by lia. done.
Qed.

(** A row of the window shows the line [child_it + i - cur_line], cyclically,
    with the mark on the row [cur_line]. *)
Lemma render_row_at (self : Menu W) (cols i : Z) (k : nat) (line : W) :
  sub self = None →
  0 ≤ i < Z.of_nat (length (lines self)) →
  Z.of_nat k
  = (child_it self + i + Z.of_nat (length (lines self)) - cur_line self)
    `mod` Z.of_nat (length (lines self)) →
  lines self !! k = Some line →
  render_row self cols i
  = (body ← Line_print line (cols - 2);
     Some (_fit ((if decide (i = cur_line self) then [62; Py.SPACE]
                  else [Py.SPACE; Py.SPACE]) ++ body) cols Py.SPACE)).
Proof.
  intros Hsub Hi Hk Hline. unfold render_row. cbv zeta.
  rewrite (decide_True (P := i < Z.of_nat (length (lines self)))) by lia.
  unfold Py.mod_.
  rewrite (decide_False (P := Z.of_nat (length (lines self)) = 0)) by lia.
  cbn [mbind option_bind]. rewrite <- Hk. rewrite getitem_nonneg by lia.
  rewrite Nat2Z.id, Hline. cbn [mbind option_bind].
  by destruct (Line_print line (cols - 2)).
Qed.

(** C5. A menu with no submenu open and calm lines (none grabs the input):
    - DOWN returns, moves the focus to the next line, cyclically, and moves
      the scroll offset on by one only while it is below the window height
      less one and below the number of lines less one; so an offset within
      [min(height-1, lines-1)] stays within it;
    - with 4 lines, rows hint 2, focus 0 and offset 0, three DOWN in a row
      return and leave the focus at 3 and the offset at 1, which is
      [min(2-1, 4-1)]; and the render that follows, when it has rows, has
      as its first row the line of index 2, without the focus mark. *)
Theorem menu_down_scrolls (self : Menu W) :
  sub self = None → Forall calm (lines self) →
  0 ≤ child_it self < Z.of_nat (length (lines self)) →
  (∃ self' log,
     menu_action self DOWN = Some (DOWN, self', log)
     ∧ child_it self' = (child_it self + 1) `mod` Z.of_nat (length (lines self))
     ∧ cur_line self'
       = (if decide (cur_line self < 1000000
                     ∧ cur_line self < Z.max 1 (_last_rows self) - 1
                     ∧ cur_line self < Z.of_nat (length (lines self)) - 1)
          then cur_line self + 1 else cur_line self)
     ∧ (cur_line self ≤ Z.min (Z.max 1 (_last_rows self) - 1)
                              (Z.of_nat (length (lines self)) - 1) →
        cur_line self' ≤ Z.min (Z.max 1 (_last_rows self) - 1)
                               (Z.of_nat (length (lines self)) - 1)))
  ∧ (length (lines self) = 4%nat → _last_rows self = 2 →
     child_it self = 0 → cur_line self = 0 →
     ∃ m1 log1 m2 log2 m3 log3 item2,
       menu_action self DOWN = Some (DOWN, m1, log1)
       ∧ menu_action m1 DOWN = Some (DOWN, m2, log2)
       ∧ menu_action m2 DOWN = Some (DOWN, m3, log3)
       ∧ child_it m3 = 3
       ∧ cur_line m3 = 1 ∧ cur_line m3 = Z.min (2 - 1) (4 - 1)
       ∧ lines m3 !! 2%nat = Some item2
       ∧ ∀ cols rows, 0 < cols → 0 < rows →
           render m3 cols rows
           = (body ← Line_print item2 (cols - 2);
              row0 ← Some (_fit ([Py.SPACE; Py.SPACE] ++ body) cols Py.SPACE);
              rest ← mapM (render_row m3 cols) (Py.range 1 rows);
              Some (row0 :: rest))).
Proof.
  intros Hsub Hcalm Hit. split.
  - destruct (down_step self Hsub Hcalm Hit) as (ls & log & Hrun & _).
    eexists _, log. split; [exact Hrun|]. simpl. split_and!; [done..|].
    case_decide; lia.
  - intros Hlen Hrows Hfocus Hline.
    destruct (down_step self Hsub Hcalm Hit) as (ls1 & log1 & Hrun1 & Hcalm1 & Hlen1).
    rewrite Hlen, Hrows, Hfocus, Hline in Hrun1. simpl in Hrun1.
    set (m1 := {| name := name self; has_event := has_event self; lines := ls1;
                  child_it := 1; cur_line := 1; sub := None; _last_rows := 2 |}).
    destruct (down_step m1) as (ls2 & log2 & Hrun2 & Hcalm2 & Hlen2);
      [done|done|simpl; lia|].
    simpl in Hrun2, Hlen2. rewrite Hlen1, Hlen in Hrun2. simpl in Hrun2.
    set (m2 := {| name := name self; has_event := has_event self; lines := ls2;
                  child_it := 2; cur_line := 1; sub := None; _last_rows := 2 |}).
    destruct (down_step m2) as (ls3 & log3 & Hrun3 & Hcalm3 & Hlen3);
      [done|done|simpl; lia|].
    simpl in Hrun3, Hlen3. rewrite Hlen2, Hlen1, Hlen in Hrun3. simpl in Hrun3.
    set (m3 := {| name := name self; has_event := has_event self; lines := ls3;
                  child_it := 3; cur_line := 1; sub := None; _last_rows := 2 |}).
    assert (Hl3 : length ls3 = 4%nat) by congruence.
    destruct (lookup_lt_is_Some_2 ls3 2) as [item2 Hitem2]; [lia|].
    exists m1, log1, m2, log2, m3, log3, item2.
    split_and!; try done.
    intros cols rows Hcols Hrows'.
    rewrite render_first_row by done.
    rewrite (render_row_at m3 cols 0 2 item2); [|done|simpl; lia|simpl; by rewrite Hl3|done].
    simpl. by destruct (Line_print item2 (cols - 2)).
Qed.

End focus_down.

(** ** The theorems of the menu at work on the widgets *)

(** [value_widgets_step] on a volume of 0 to 10, a mode of three positions
    and a clock. *)
Lemma value_widgets_step_witness :
  positions {| ei_name := [77]; positions := [[65]; [66]; [67]]; pos := 2;
               ei_enter := false |} ≠ []
  ∧ RangeItem_action {| ri_name := [86]; min := 0; max := 10; current := 10;
                        ri_enter := false |} RIGHT
    = (RIGHT, {| ri_name := [86]; min := 0; max := 10; current := 10;
                 ri_enter := false |})
  ∧ EnumItem_action {| ei_name := [77]; positions := [[65]; [66]; [67]]; pos := 2;
                       ei_enter := false |} RIGHT
    = Some (RIGHT, {| ei_name := [77]; positions := [[65]; [66]; [67]]; pos := 0;
                      ei_enter := false |})
  ∧ TimeItem_action {| h := 23; m := 59; s := 59; it := 0; ti_enter := false |} RIGHT
    = (RIGHT, {| h := 0; m := 59; s := 59; it := 0; ti_enter := false |}).
Proof.
  assert (Hpos : positions {| ei_name := [77]; positions := [[65]; [66]; [67]];
                              pos := 2; ei_enter := false |} ≠ []) by done.
  split; [exact Hpos|].
  destruct (value_widgets_step
              {| ri_name := [86]; min := 0; max := 10; current := 10;
                 ri_enter := false |}
              {| ei_name := [77]; positions := [[65]; [66]; [67]]; pos := 2;
                 ei_enter := false |}
              {| h := 23; m := 59; s := 59; it := 0; ti_enter := false |} Hpos)
    as ((Hright & _) & (Henum & _) & (Htime & _)).
  split; [exact Hright|]. split; [exact Henum|exact Htime].
Defined.

(** [ok_forwarded_event_fires] on a menu named M with an observer and a
    clock as its single line: OK goes to the clock, which moves its edit
    from the hour to the minute, and the observer is called. *)
Lemma ok_forwarded_event_fires_witness :
  sub {| name := [77]; has_event := true;
         lines := [a_TimeItem {| h := 5; m := 0; s := 0; it := 0; ti_enter := true |}];
         child_it := 0; cur_line := 0; sub := None; _last_rows := 2 |} = None
  ∧ menu_action
      {| name := [77]; has_event := true;
         lines := [a_TimeItem {| h := 5; m := 0; s := 0; it := 0; ti_enter := true |}];
         child_it := 0; cur_line := 0; sub := None; _last_rows := 2 |} OK
    = Some (OK,
            {| name := [77]; has_event := true;
               lines := [a_TimeItem {| h := 5; m := 0; s := 0; it := 1;
                                       ti_enter := true |}];
               child_it := 0; cur_line := 0; sub := None; _last_rows := 2 |},
            [event [77] OK 0]).
Proof.
  split; [reflexivity|].
  exact (ok_forwarded_event_fires
           {| name := [77]; has_event := true;
              lines := [a_TimeItem {| h := 5; m := 0; s := 0; it := 0;
                                      ti_enter := true |}];
              child_it := 0; cur_line := 0; sub := None; _last_rows := 2 |}
           0 (a_TimeItem {| h := 5; m := 0; s := 0; it := 0; ti_enter := true |})
           (a_TimeItem {| h := 5; m := 0; s := 0; it := 1; ti_enter := true |})
           OK [] eq_refl eq_refl eq_refl eq_refl eq_refl).
Defined.

(** The calm widgets do not grab the input. *)
Lemma Widget_calm_no_grab (w : Widget) : Widget_calm w → grab w = false.
Proof. by destruct w. Qed.

(** The calm widgets take the focus and give it up, and stay calm. *)
Lemma Widget_calm_focus (w : Widget) (a : Z) :
  Widget_calm w → a = ON_ENTER ∨ a = ON_LEAVE →
  ∃ rv w' log, action w a = Some (rv, w', log) ∧ Widget_calm w'.
Proof.
  intros Hcalm Ha. destruct w; try done; simpl.
  - by eexists _, _, _.
  - destruct (SwitchItem_action _ a) as [rv x]. by eexists _, _, _.
  - destruct (RangeItem_action _ a) as [rv x]. by eexists _, _, _.
  - destruct (TimeItem_action _ a) as [rv x]. by eexists _, _, _.
  - by eexists _, _, _.
  - by eexists _, _, _.
  - destruct (Ok_action _ a) as [[rv x] log]. by eexists _, _, _.
Qed.

(** [menu_down_scrolls] on a menu of four calm widgets, shown on two rows:
    a blank line, a volume, a clock and Save. *)
Lemma menu_down_scrolls_witness :
  sub {| name := [77]; has_event := false;
         lines := [a_Space;
                   a_RangeItem {| ri_name := [86]; min := 0; max := 10; current := 5;
                                  ri_enter := false |};
                   a_TimeItem {| h := 5; m := 0; s := 0; it := 0; ti_enter := false |};
                   an_Ok {| has_commit := false; ok_index := 0; ok_enter := false |}];
         child_it := 0; cur_line := 0; sub := None; _last_rows := 2 |} = None
  ∧ Forall Widget_calm
      [a_Space;
       a_RangeItem {| ri_name := [86]; min := 0; max := 10; current := 5;
                      ri_enter := false |};
       a_TimeItem {| h := 5; m := 0; s := 0; it := 0; ti_enter := false |};
       an_Ok {| has_commit := false; ok_index := 0; ok_enter := false |}]
  ∧ ∃ m1 log1 m2 log2 m3 log3,
      menu_action
        {| name := [77]; has_event := false;
           lines := [a_Space;
                     a_RangeItem {| ri_name := [86]; min := 0; max := 10; current := 5;
                                    ri_enter := false |};
                     a_TimeItem {| h := 5; m := 0; s := 0; it := 0;
                                   ti_enter := false |};
                     an_Ok {| has_commit := false; ok_index := 0;
                              ok_enter := false |}];
           child_it := 0; cur_line := 0; sub := None; _last_rows := 2 |} DOWN
      = Some (DOWN, m1, log1)
      ∧ menu_action m1 DOWN = Some (DOWN, m2, log2)
      ∧ menu_action m2 DOWN = Some (DOWN, m3, log3)
      ∧ child_it m3 = 3
      ∧ cur_line m3 = 1.
Proof.
  split; [reflexivity|].
  assert (Hcalm : Forall Widget_calm
            [a_Space;
             a_RangeItem {| ri_name := [86]; min := 0; max := 10; current := 5;
                            ri_enter := false |};
             a_TimeItem {| h := 5; m := 0; s := 0; it := 0; ti_enter := false |};
             an_Ok {| has_commit := false; ok_index := 0; ok_enter := false |}])
    by (repeat constructor).
  split; [exact Hcalm|].
  destruct (menu_down_scrolls Widget_calm Widget_calm_no_grab Widget_calm_focus
              {| name := [77]; has_event := false;
                 lines := [a_Space;
                           a_RangeItem {| ri_name := [86]; min := 0; max := 10;
                                          current := 5; ri_enter := false |};
                           a_TimeItem {| h := 5; m := 0; s := 0; it := 0;
                                         ti_enter := false |};
                           an_Ok {| has_commit := false; ok_index := 0;
                                    ok_enter := false |}];
                 child_it := 0; cur_line := 0; sub := None; _last_rows := 2 |}
              eq_refl Hcalm) as [_ Hthree]; [simpl; lia|].
  destruct Hthree as (m1 & log1 & m2 & log2 & m3 & log3 & item2
                      & H1 & H2 & H3 & Hfocus & Hline & _); [reflexivity..|].
  exists m1, log1, m2, log2, m3, log3.
  split; [exact H1|]. split; [exact H2|]. split; [exact H3|].
  split; [exact Hfocus|exact Hline].
Defined.

End menu_engine.
